(** * A shallow embedding of the raw-mode terminal editor

    The development follows [main.c] function by function.  The second
    program, [raw_mode_editor.c], shares [die], [disableRawMode] and
    [enableRawMode] with it verbatim; its own [main] is embedded in the
    module [KeyPrinter] further down.

    Conventions.
    - [int] is a 32-bit two's complement integer, carried as a [Z] and
      wrapped with [wrap32] where the C code does arithmetic; [tcflag_t]
      is an unsigned 32-bit integer ([u32]).
    - [char] buffers are [list ascii]; a character constant such as
      ['['] is the [int] value [lit "["].
    - The operating system is a [world]: the attributes in force on the
      terminal, the answers the coming system calls will give, the bytes
      written so far, and the program's global variables.
    - Code runs in the monad [M]: a call returns ([Ret]), ends the process
      through [exit] ([Exit]), or never returns because it waits for input
      that does not come ([Hang]). *)

From Stdlib Require Import ZArith Ascii String Lia Bool.
From stdpp Require Import base tactics list.

Local Open Scope Z_scope.

(** ** Machine integers *)

(** [int]: the value of a signed 32-bit computation. *)
Definition wrap32 (z : Z) : Z := (z + 2 ^ 31) mod 2 ^ 32 - 2 ^ 31.

(** [unsigned int], the type behind [tcflag_t]. *)
Definition u32 (z : Z) : Z := z mod 2 ^ 32.

Definition int_range (z : Z) : Prop := - 2 ^ 31 <= z < 2 ^ 31.

Definition u32_range (z : Z) : Prop := 0 <= z < 2 ^ 32.

(** ** What the system headers provide

    [<termios.h>] and [<errno.h>] are not part of the repository: their
    constants are a parameter of the development.  [char_signed] says
    whether plain [char] is a signed type on the platform. *)

Class platform : Type := {
  BRKINT : Z; ICRNL : Z; INPCK : Z; ISTRIP : Z; IXON : Z;
  OPOST : Z;
  CS8 : Z;
  ECHO : Z; ICANON : Z; IEXTEN : Z; ISIG : Z;
  VMIN : nat; VTIME : nat; NCCS : nat;
  EAGAIN : Z;
  char_signed : bool
}.

(** The values of Linux on x86-64 (octal in the headers). *)
Definition linux_x86_64 : platform := {|
  BRKINT := 2; ICRNL := 256; INPCK := 16; ISTRIP := 32; IXON := 1024;
  OPOST := 1;
  CS8 := 48;
  ECHO := 8; ICANON := 2; IEXTEN := 32768; ISIG := 1;
  VMIN := 6; VTIME := 5; NCCS := 32;
  EAGAIN := 11;
  char_signed := true
|}.

(** [struct termios]. *)
Record termios : Type := {
  c_iflag : Z;
  c_oflag : Z;
  c_cflag : Z;
  c_lflag : Z;
  c_line : Z;
  c_cc : list Z;
  c_ispeed : Z;
  c_ospeed : Z
}.

(** ** Bytes and character constants *)

Definition str (s : string) : list ascii := list_ascii_of_string s.

Definition ESC : ascii := "027"%char.
Definition NUL : ascii := "000"%char.
Definition CR : ascii := "013"%char.
Definition LF : ascii := "010"%char.

(** A string literal that starts with [\x1b]. *)
Definition esc (s : string) : list ascii := ESC :: str s.

(** A character constant: an [int]. *)
Definition lit (c : ascii) : Z := Z.of_N (N_of_ascii c).

(** ** The editor's data *)

Definition KEY_UP : Z := 1000.
Definition KEY_DOWN : Z := 1001.
Definition KEY_RIGHT : Z := 1002.
Definition KEY_LEFT : Z := 1003.
Definition KEY_PAGE_UP : Z := 1004.
Definition KEY_PAGE_DOWN : Z := 1005.
Definition KEY_HOME : Z := 1006.
Definition KEY_END : Z := 1007.
Definition KEY_DEL : Z := 1008.
Definition KEY_ESC : Z := 27.

Record editorState : Type := {
  screenrows : Z;
  screencols : Z;
  cursor_x : Z;
  cursor_y : Z
}.

Record appendBuffer : Type := {
  b : list ascii;
  len : Z
}.

Definition AB_INIT : appendBuffer := {| b := []; len := 0 |}.

(** ** The world *)

(** What one [read(STDIN_FILENO, &c, 1)] does. *)
Inductive read_event : Type :=
| Byte (c : ascii)      (* returns 1 and stores [c] *)
| Timeout               (* returns 0: [VTIME] ran out, or end of input *)
| Error (errno : Z).    (* returns -1 *)

Record world : Type := {
  (* the terminal *)
  tty : termios;                 (* attributes in force *)
  tc_faults : list bool;         (* coming [tcgetattr]/[tcsetattr] calls: [true] fails *)
  winsize : option (Z * Z);      (* [TIOCGWINSZ]: [(ws_row, ws_col)], [None] when [ioctl] fails *)
  stdin : list read_event;       (* coming reads; once used up every read returns 0 *)
  stdout : list ascii;           (* bytes written so far *)
  write_faults : list bool;      (* coming [write] calls: [true] writes nothing and returns -1 *)
  stderr : list string;          (* messages of [perror] *)
  heap_faults : list bool;       (* coming [realloc] calls: [true] returns [NULL] *)
  (* the program's globals *)
  orig_termios : termios;
  atexit_disableRawMode : bool;  (* whether [atexit(disableRawMode)] has run *)
  E : editorState
}.

Definition set_tty (t : termios) (w : world) : world :=
  {| tty := t; tc_faults := tc_faults w; winsize := winsize w; stdin := stdin w;
     stdout := stdout w; write_faults := write_faults w; stderr := stderr w;
     heap_faults := heap_faults w; orig_termios := orig_termios w;
     atexit_disableRawMode := atexit_disableRawMode w; E := E w |}.

Definition set_tc_faults (f : list bool) (w : world) : world :=
  {| tty := tty w; tc_faults := f; winsize := winsize w; stdin := stdin w;
     stdout := stdout w; write_faults := write_faults w; stderr := stderr w;
     heap_faults := heap_faults w; orig_termios := orig_termios w;
     atexit_disableRawMode := atexit_disableRawMode w; E := E w |}.

Definition set_stdin (i : list read_event) (w : world) : world :=
  {| tty := tty w; tc_faults := tc_faults w; winsize := winsize w; stdin := i;
     stdout := stdout w; write_faults := write_faults w; stderr := stderr w;
     heap_faults := heap_faults w; orig_termios := orig_termios w;
     atexit_disableRawMode := atexit_disableRawMode w; E := E w |}.

Definition set_stdout (o : list ascii) (w : world) : world :=
  {| tty := tty w; tc_faults := tc_faults w; winsize := winsize w; stdin := stdin w;
     stdout := o; write_faults := write_faults w; stderr := stderr w;
     heap_faults := heap_faults w; orig_termios := orig_termios w;
     atexit_disableRawMode := atexit_disableRawMode w; E := E w |}.

Definition set_write_faults (f : list bool) (w : world) : world :=
  {| tty := tty w; tc_faults := tc_faults w; winsize := winsize w; stdin := stdin w;
     stdout := stdout w; write_faults := f; stderr := stderr w;
     heap_faults := heap_faults w; orig_termios := orig_termios w;
     atexit_disableRawMode := atexit_disableRawMode w; E := E w |}.

Definition set_stderr (e : list string) (w : world) : world :=
  {| tty := tty w; tc_faults := tc_faults w; winsize := winsize w; stdin := stdin w;
     stdout := stdout w; write_faults := write_faults w; stderr := e;
     heap_faults := heap_faults w; orig_termios := orig_termios w;
     atexit_disableRawMode := atexit_disableRawMode w; E := E w |}.

Definition set_heap_faults (f : list bool) (w : world) : world :=
  {| tty := tty w; tc_faults := tc_faults w; winsize := winsize w; stdin := stdin w;
     stdout := stdout w; write_faults := write_faults w; stderr := stderr w;
     heap_faults := f; orig_termios := orig_termios w;
     atexit_disableRawMode := atexit_disableRawMode w; E := E w |}.

Definition set_orig_termios (t : termios) (w : world) : world :=
  {| tty := tty w; tc_faults := tc_faults w; winsize := winsize w; stdin := stdin w;
     stdout := stdout w; write_faults := write_faults w; stderr := stderr w;
     heap_faults := heap_faults w; orig_termios := t;
     atexit_disableRawMode := atexit_disableRawMode w; E := E w |}.

Definition set_atexit (r : bool) (w : world) : world :=
  {| tty := tty w; tc_faults := tc_faults w; winsize := winsize w; stdin := stdin w;
     stdout := stdout w; write_faults := write_faults w; stderr := stderr w;
     heap_faults := heap_faults w; orig_termios := orig_termios w;
     atexit_disableRawMode := r; E := E w |}.

Definition set_E (e : editorState) (w : world) : world :=
  {| tty := tty w; tc_faults := tc_faults w; winsize := winsize w; stdin := stdin w;
     stdout := stdout w; write_faults := write_faults w; stderr := stderr w;
     heap_faults := heap_faults w; orig_termios := orig_termios w;
     atexit_disableRawMode := atexit_disableRawMode w; E := e |}.

(** ** The monad of C calls *)

Inductive result (A : Type) : Type :=
| Ret (a : A) (w : world)        (* the call returns [a] *)
| Exit (status : Z) (w : world)  (* [exit(status)] was called *)
| Hang (w : world).              (* the call never returns *)

Arguments Ret {A} a w.
Arguments Exit {A} status w.
Arguments Hang {A} w.

Definition M (A : Type) : Type := world -> result A.

Definition ret {A : Type} (a : A) : M A := fun w => Ret a w.

Definition bind {A B : Type} (m : M A) (k : A -> M B) : M B :=
  fun w =>
    match m w with
    | Ret a w' => k a w'
    | Exit s w' => Exit s w'
    | Hang w' => Hang w'
    end.

Notation "x <- m ;; k" := (bind m (fun x => k))
  (at level 100, m at next level, k at level 200, right associativity).
Notation "m ;; k" := (bind m (fun _ => k))
  (at level 100, k at level 200, right associativity).

Definition get {A : Type} (f : world -> A) : M A := fun w => Ret (f w) w.

Definition modify (f : world -> world) : M unit := fun w => Ret tt (f w).

(** The next answer of a fault script; a script that is used up answers
    "no fault". *)
Definition next_fault (fs : list bool) : bool * list bool :=
  match fs with
  | [] => (false, [])
  | f :: fs' => (f, fs')
  end.

(** ** System and library calls *)

(** [tcgetattr(STDIN_FILENO, &orig_termios)]. *)
Definition tcgetattr_orig : M Z := fun w =>
  let '(fault, fs) := next_fault (tc_faults w) in
  if fault then Ret (-1) (set_tc_faults fs w)
  else Ret 0 (set_orig_termios (tty w) (set_tc_faults fs w)).

(** [tcsetattr(STDIN_FILENO, TCSAFLUSH, &t)]; [TCSAFLUSH] also discards
    the input not yet read, which the scripts of [stdin] leave out. *)
Definition tcsetattr (t : termios) : M Z := fun w =>
  let '(fault, fs) := next_fault (tc_faults w) in
  if fault then Ret (-1) (set_tc_faults fs w)
  else Ret 0 (set_tty t (set_tc_faults fs w)).

(** [write(STDOUT_FILENO, s, n)]. *)
Definition write (s : list ascii) (n : Z) : M Z := fun w =>
  let '(fault, fs) := next_fault (write_faults w) in
  if fault then Ret (-1) (set_write_faults fs w)
  else Ret n (set_stdout (stdout w ++ take (Z.to_nat n) s) (set_write_faults fs w)).

(** [read(STDIN_FILENO, &c, 1)]. *)
Definition read : M read_event := fun w =>
  match stdin w with
  | [] => Ret Timeout w
  | e :: rest => Ret e (set_stdin rest w)
  end.

(** [realloc]: whether it returned a block. *)
Definition realloc : M bool := fun w =>
  let '(fault, fs) := next_fault (heap_faults w) in
  Ret (negb fault) (set_heap_faults fs w).

Definition perror (s : string) : M unit :=
  modify (fun w => set_stderr (stderr w ++ [s]) w).

Definition exit {A : Type} (status : Z) : M A := fun w => Exit status w.

(** [printf] of a string without conversions. *)
Definition printf (s : list ascii) : M unit :=
  modify (fun w => set_stdout (stdout w ++ s) w).

(** [%d] of an [int]: at most ten decimal digits behind the sign. *)
Definition digit_char (d : Z) : ascii := ascii_of_N (Z.to_N (lit "0" + d)).

Fixpoint digits (fuel : nat) (n : Z) (acc : list ascii) : list ascii :=
  match fuel with
  | O => acc
  | S fuel' =>
      let acc' := digit_char (n mod 10) :: acc in
      if n / 10 =? 0 then acc' else digits fuel' (n / 10) acc'
  end.

Definition dec (z : Z) : list ascii :=
  if z <? 0 then "-"%char :: digits 10 (- z) [] else digits 10 z [].

(** [snprintf(buf, size, ...)] where the conversions produce [s]: what
    [buf] holds up to and including the terminating [NUL], and the
    returned length. *)
Definition snprintf (size : nat) (s : list ascii) : list ascii * Z :=
  (take (Nat.pred size) s ++ [NUL], Z.of_nat (length s)).

(** [strlen]. *)
Fixpoint strlen (buf : list ascii) : Z :=
  match buf with
  | [] => 0
  | c :: rest => if Ascii.eqb c NUL then 0 else 1 + strlen rest
  end.

(** ** [sscanf(s, "%d;%d", rows, cols)]

    The C library is not part of the repository either.  The model
    follows ISO C for the directives: [%d] skips white space, takes an
    optional sign and the longest run of decimal digits, and fails to
    match when there is no digit; the literal [;] must come next.  The
    value is the returned number of assignments, or [EOF] (-1) when the
    string ends before the first conversion.  A number too large for
    [long] saturates before it is stored in the [int] (glibc, LP64). *)

Definition isspace (c : ascii) : bool :=
  (lit c =? 32) || ((9 <=? lit c) && (lit c <=? 13)).

Definition isdigit (c : ascii) : bool :=
  (lit "0" <=? lit c) && (lit c <=? lit "9").

(** The C string a buffer holds: its bytes before the first [NUL]. *)
Fixpoint cstring (buf : list ascii) : list ascii :=
  match buf with
  | [] => []
  | c :: rest => if Ascii.eqb c NUL then [] else c :: cstring rest
  end.

Fixpoint skip_space (s : list ascii) : list ascii :=
  match s with
  | [] => []
  | c :: rest => if isspace c then skip_space rest else s
  end.

Fixpoint scan_digits (s : list ascii) (acc : Z) : Z * list ascii :=
  match s with
  | [] => (acc, [])
  | c :: rest =>
      if isdigit c then scan_digits rest (10 * acc + (lit c - lit "0"))
      else (acc, s)
  end.

Inductive conversion : Type :=
| Converted (v : Z) (rest : list ascii)
| MatchFailure
| InputFailure.

(** One [%d] directive. *)
Definition scan_int (s : list ascii) : conversion :=
  match skip_space s with
  | [] => InputFailure
  | c :: rest =>
      let '(negative, body) :=
        if Ascii.eqb c "-" then (true, rest)
        else if Ascii.eqb c "+" then (false, rest)
        else (false, c :: rest) in
      match body with
      | d :: _ =>
          if isdigit d then
            let '(v, rest') := scan_digits body 0 in
            Converted (if negative then - v else v) rest'
          else MatchFailure
      | [] => MatchFailure
      end
  end.

(** What an [int] receives from the [long] that [%d] converted. *)
Definition int_of_long (v : Z) : Z :=
  wrap32 (Z.max (- 2 ^ 63) (Z.min (2 ^ 63 - 1) v)).

(** The returned count and the two [int]s behind the pointers. *)
Definition sscanf_d_d (buf : list ascii) (rows cols : Z) : Z * (Z * Z) :=
  match scan_int (cstring buf) with
  | InputFailure => (-1, (rows, cols))
  | MatchFailure => (0, (rows, cols))
  | Converted r rest =>
      let rows' := int_of_long r in
      match rest with
      | c :: rest' =>
          if Ascii.eqb c ";" then
            match scan_int rest' with
            | Converted c' _ => (2, (rows', int_of_long c'))
            | _ => (1, (rows', cols))
            end
          else (1, (rows', cols))
      | [] => (1, (rows', cols))
      end
  end.

(** ** Updating the editor state *)

Definition with_screenrows (v : Z) (e : editorState) : editorState :=
  {| screenrows := v; screencols := screencols e;
     cursor_x := cursor_x e; cursor_y := cursor_y e |}.

Definition with_screencols (v : Z) (e : editorState) : editorState :=
  {| screenrows := screenrows e; screencols := v;
     cursor_x := cursor_x e; cursor_y := cursor_y e |}.

Definition with_cursor_x (v : Z) (e : editorState) : editorState :=
  {| screenrows := screenrows e; screencols := screencols e;
     cursor_x := v; cursor_y := cursor_y e |}.

Definition with_cursor_y (v : Z) (e : editorState) : editorState :=
  {| screenrows := screenrows e; screencols := screencols e;
     cursor_x := cursor_x e; cursor_y := v |}.

(** An assignment to a field of the global [E]. *)
Definition assign (f : Z -> editorState -> editorState) (v : Z) : M unit :=
  modify (fun w => set_E (f v (E w)) w).

(** ** The append buffer *)

(** [realloc], then [memcpy] of [n] bytes of [s] and [len += n].  This is
    the function on [0 <= n], where C defines it: [memcpy] takes its
    count as a [size_t], and a negative [n] is not modelled.  Every call
    passes a constant or a count of [snprintf], except the one of the
    banner, whose length is clipped to [E.screencols] and is negative
    exactly when that is (lemma [clipped_nonneg]); the statements about
    drawing on a screen whose column count is not otherwise bounded
    assume [0 <= screencols]. *)
Definition abAppend (ab : appendBuffer) (s : list ascii) (n : Z) : M appendBuffer :=
  new <- realloc ;;
  if negb new then ret ab
  else ret {| b := b ab ++ take (Z.to_nat n) s; len := wrap32 (len ab + n) |}.

Definition abFree (ab : appendBuffer) : M unit := ret tt.

Section Editor.

Context `{P : platform}.

(** The [int] a [char] promotes to. *)
Definition int_of_char (c : ascii) : Z :=
  let n := lit c in
  if (128 <=? n) && char_signed then n - 256 else n.

(** ** Terminal mode *)

Definition die {A : Type} (s : string) : M A :=
  perror s ;; exit 1.

Definition disableRawMode : M unit :=
  orig <- get orig_termios ;;
  r <- tcsetattr orig ;;
  if r =? -1 then die "tcsetattr" else ret tt.

(** The attributes [enableRawMode] computes from a copy of the snapshot. *)
Definition raw_of (orig : termios) : termios :=
  let raw := orig in
  let iflag := Z.land (c_iflag raw)
                 (u32 (Z.lnot (Z.lor BRKINT (Z.lor ICRNL (Z.lor INPCK (Z.lor ISTRIP IXON)))))) in
  let oflag := Z.land (c_oflag raw) (u32 (Z.lnot OPOST)) in
  let cflag := Z.lor (c_cflag raw) (u32 CS8) in
  let lflag := Z.land (c_lflag raw)
                 (u32 (Z.lnot (Z.lor ECHO (Z.lor ICANON (Z.lor IEXTEN ISIG))))) in
  let cc := <[VMIN := 0]> (c_cc raw) in
  let cc := <[VTIME := 1]> cc in
  {| c_iflag := iflag; c_oflag := oflag; c_cflag := cflag; c_lflag := lflag;
     c_line := c_line raw; c_cc := cc;
     c_ispeed := c_ispeed raw; c_ospeed := c_ospeed raw |}.

Definition enableRawMode : M unit :=
  r <- tcgetattr_orig ;;
  (if r =? -1 then die "tcgetattr" else ret tt) ;;
  modify (set_atexit true) ;;
  orig <- get orig_termios ;;
  let raw := raw_of orig in
  r <- tcsetattr raw ;;
  if r =? -1 then die "tcsetattr" else ret tt.

(** ** Window size *)

(** The loop of [getCursorPosition]: [fuel] is what is left of the 31
    bytes of room, [buf] the bytes stored so far.  The terminator [R] is
    stored too, and then overwritten by the [NUL] that ends the string,
    so it is not part of the result. *)
Fixpoint read_reply (fuel : nat) (buf : list ascii) : M (list ascii) :=
  match fuel with
  | O => ret buf
  | S fuel' =>
      r <- read ;;
      match r with
      | Byte c =>
          if int_of_char c =? lit "R" then ret buf
          else read_reply fuel' (buf ++ [c])
      | _ => ret buf
      end
  end.

(** The result is the returned [int] and the values of [*rows], [*cols]. *)
Definition getCursorPosition (rows cols : Z) : M (Z * (Z * Z)) :=
  n <- write (esc "[6n") 4 ;;
  if negb (n =? 4) then ret (-1, (rows, cols)) else
  got <- read_reply 31 [] ;;
  let buf := got ++ [NUL] in
  if negb (int_of_char (nth 0 buf NUL) =? lit ESC)
     || negb (int_of_char (nth 1 buf NUL) =? lit "[")
  then ret (-1, (rows, cols)) else
  let '(n, out) := sscanf_d_d (drop 2 buf) rows cols in
  if negb (n =? 2) then ret (-1, out) else ret (0, out).

Definition getWindowSize (rows cols : Z) : M (Z * (Z * Z)) :=
  let probe :=
    n <- write (esc "[999C" ++ esc "[999B") 12 ;;
    if negb (n =? 12) then ret (-1, (rows, cols))
    else getCursorPosition rows cols in
  ws <- get winsize ;;
  match ws with
  | None => probe
  | Some (ws_row, ws_col) =>
      if ws_col =? 0 then probe else ret (0, (ws_row, ws_col))
  end.

Definition clearScreen : M unit :=
  write (esc "[2J") 4 ;;
  write (esc "[H") 3 ;;
  ret tt.

(** ** Keys *)

(** The first loop of [readKey]: it leaves only with a byte, or through
    [die].  Every turn uses up one answer of [stdin], so [fuel] is the
    number of answers left; when they are used up every further read
    returns 0 and the loop spins for ever. *)
Fixpoint read_byte (fuel : nat) : M ascii :=
  match fuel with
  | O => fun w => Hang w
  | S fuel' =>
      r <- read ;;
      match r with
      | Byte c => ret c
      | Timeout => read_byte fuel'
      | Error errno =>
          if negb (errno =? EAGAIN) then die "read" else read_byte fuel'
      end
  end.

Definition readKey : M Z :=
  n <- get (fun w => length (stdin w)) ;;
  c <- read_byte n ;;
  if int_of_char c =? lit ESC then
    r0 <- read ;;
    match r0 with
    | Byte seq0 =>
      r1 <- read ;;
      match r1 with
      | Byte seq1 =>
        if int_of_char seq0 =? lit "[" then
          if (lit "0" <=? int_of_char seq1) && (int_of_char seq1 <=? lit "9") then
            r2 <- read ;;
            match r2 with
            | Byte seq2 =>
              if int_of_char seq2 =? lit "~" then
                if int_of_char seq1 =? lit "1" then ret KEY_HOME
                else if int_of_char seq1 =? lit "3" then ret KEY_DEL
                else if int_of_char seq1 =? lit "4" then ret KEY_END
                else if int_of_char seq1 =? lit "5" then ret KEY_PAGE_UP
                else if int_of_char seq1 =? lit "6" then ret KEY_PAGE_DOWN
                else if int_of_char seq1 =? lit "7" then ret KEY_HOME
                else if int_of_char seq1 =? lit "8" then ret KEY_END
                else ret (lit ESC)
              else ret (lit ESC)
            | _ => ret (lit ESC)
            end
          else
            if int_of_char seq1 =? lit "A" then ret KEY_UP
            else if int_of_char seq1 =? lit "B" then ret KEY_DOWN
            else if int_of_char seq1 =? lit "C" then ret KEY_RIGHT
            else if int_of_char seq1 =? lit "D" then ret KEY_LEFT
            else if int_of_char seq1 =? lit "H" then ret KEY_HOME
            else if int_of_char seq1 =? lit "F" then ret KEY_END
            else ret (lit ESC)
        else if int_of_char seq0 =? lit "O" then
          if int_of_char seq1 =? lit "H" then ret KEY_HOME
          else if int_of_char seq1 =? lit "F" then ret KEY_END
          else ret (lit ESC)
        else ret (lit ESC)
      | _ => ret (lit ESC)
      end
    | _ => ret (lit ESC)
    end
  else ret (int_of_char c).

(** ** Cursor movement *)

Definition moveCursor (key : Z) : M unit :=
  e <- get E ;;
  if key =? KEY_UP then
    if cursor_y e >? 0 then assign with_cursor_y (wrap32 (cursor_y e - 1)) else ret tt
  else if key =? KEY_DOWN then
    if cursor_y e <? wrap32 (screenrows e - 1)
    then assign with_cursor_y (wrap32 (cursor_y e + 1)) else ret tt
  else if key =? KEY_LEFT then
    if cursor_x e >? 0 then assign with_cursor_x (wrap32 (cursor_x e - 1)) else ret tt
  else if key =? KEY_RIGHT then
    if cursor_x e <? wrap32 (screencols e - 1)
    then assign with_cursor_x (wrap32 (cursor_x e + 1)) else ret tt
  else if key =? KEY_HOME then assign with_cursor_x 0
  else if key =? KEY_END then assign with_cursor_x (wrap32 (screencols e - 1))
  else if key =? KEY_PAGE_UP then assign with_cursor_y 0
  else if key =? KEY_PAGE_DOWN then assign with_cursor_y (wrap32 (screenrows e - 1))
  else ret tt.

(** ** Drawing *)

Definition welcome_text : list ascii := str "Tiny Editor -- version 0.0.1".

(** [while (padding--) abAppend(ab, " ", 1)].  [fuel] is the value of
    [padding] on entry; [drawWelcome] never enters with a negative one
    (lemma [padding_nonneg] below). *)
Fixpoint pad_loop (fuel : nat) (padding : Z) (ab : appendBuffer) : M appendBuffer :=
  match fuel with
  | O => ret ab
  | S fuel' =>
      if padding =? 0 then ret ab
      else
        ab <- abAppend ab (str " ") 1 ;;
        pad_loop fuel' (wrap32 (padding - 1)) ab
  end.

(** [drawWelcome] with the banner as an argument. *)
Definition drawWelcome_of (text : list ascii) (ab : appendBuffer) : M appendBuffer :=
  e <- get E ;;
  let '(welcome, welcomelen) := snprintf 80 text in
  let welcomelen := if welcomelen >? screencols e then screencols e else welcomelen in
  let padding := Z.quot (wrap32 (screencols e - welcomelen)) 2 in
  st <- (if negb (padding =? 0)
         then ab <- abAppend ab (str "~") 1 ;; ret (ab, wrap32 (padding - 1))
         else ret (ab, padding)) ;;
  let '(ab, padding) := st in
  ab <- pad_loop (Z.to_nat padding) padding ab ;;
  abAppend ab welcome welcomelen.

Definition drawWelcome (ab : appendBuffer) : M appendBuffer :=
  drawWelcome_of welcome_text ab.

(** The body of the [for] loop of [refreshScreen]. *)
Definition draw_row (y : Z) (ab : appendBuffer) : M appendBuffer :=
  e <- get E ;;
  let '(line, linelen) := snprintf 32 (dec (wrap32 (y + 1)) ++ str " ") in
  ab <- (if linelen >? 0 then abAppend ab line linelen else ret ab) ;;
  ab <- (if y =? 0 then drawWelcome ab else abAppend ab (str "~") 1) ;;
  ab <- abAppend ab (esc "[K") 3 ;;
  if y <? wrap32 (screenrows e - 1) then abAppend ab [CR; LF] 2 else ret ab.

(** [for (int y = 0; y < E.screenrows; y++)], from [y] on. *)
Fixpoint draw_rows (fuel : nat) (y : Z) (ab : appendBuffer) : M appendBuffer :=
  match fuel with
  | O => ret ab
  | S fuel' =>
      e <- get E ;;
      if y <? screenrows e then
        ab <- draw_row y ab ;;
        draw_rows fuel' (wrap32 (y + 1)) ab
      else ret ab
  end.

(** What [snprintf] formats for the status line. *)
Definition status_text (e : editorState) : list ascii :=
  str "[Cursor: " ++ dec (wrap32 (cursor_y e + 1)) ++ str ","
    ++ dec (wrap32 (cursor_x e + 1)) ++ str "] [Size: "
    ++ dec (screencols e) ++ str "×" ++ dec (screenrows e) ++ str "]".

(** What [snprintf] formats for the final cursor placement. *)
Definition cursor_text (e : editorState) : list ascii :=
  esc "[" ++ dec (wrap32 (cursor_y e + 1)) ++ str ";"
    ++ dec (wrap32 (cursor_x e + 1)) ++ str "H".

Definition refreshScreen : M unit :=
  let ab := AB_INIT in
  ab <- abAppend ab (esc "[?25l") 6 ;;
  ab <- abAppend ab (esc "[H") 3 ;;
  e <- get E ;;
  ab <- draw_rows (Z.to_nat (screenrows e)) 0 ab ;;
  let '(status, statuslen) := snprintf 80 (status_text e) in
  let statuslen := if statuslen >? screencols e then screencols e else statuslen in
  ab <- abAppend ab (esc "[999C") 6 ;;
  ab <- abAppend ab (esc "[1A") 4 ;;
  ab <- abAppend ab (esc "[7m") 4 ;;
  ab <- abAppend ab status statuslen ;;
  ab <- abAppend ab (esc "[m") 3 ;;
  let '(buf, _) := snprintf 32 (cursor_text e) in
  ab <- abAppend ab buf (strlen buf) ;;
  ab <- abAppend ab (esc "[?25h") 6 ;;
  write (b ab) (len ab) ;;
  abFree ab.

(** ** The program *)

Definition initEditor : M unit :=
  assign with_cursor_x 0 ;;
  assign with_cursor_y 0 ;;
  e <- get E ;;
  r <- getWindowSize (screenrows e) (screencols e) ;;
  let '(status, (rows, cols)) := r in
  assign with_screenrows rows ;;
  assign with_screencols cols ;;
  if negb (status =? 0) then die "getWindowSize" else ret tt.

(** [while (1)] of [main].  Every turn reads at least one answer of
    [stdin] or hangs in [readKey], so [fuel] above the number of answers
    left is never used up (lemma [main_loop_fuel] below). *)
Fixpoint main_loop (fuel : nat) : M unit :=
  match fuel with
  | O => fun w => Hang w
  | S fuel' =>
      refreshScreen ;;
      c <- readKey ;;
      if (c =? lit "q") || (c =? KEY_ESC) then clearScreen
      else
        (if (c =? KEY_UP) || (c =? KEY_DOWN) || (c =? KEY_LEFT) || (c =? KEY_RIGHT)
            || (c =? KEY_HOME) || (c =? KEY_END) || (c =? KEY_PAGE_UP)
            || (c =? KEY_PAGE_DOWN)
         then moveCursor c else ret tt) ;;
        main_loop fuel'
  end.

Definition goodbye : list ascii :=
  str "终端原始模式已禁用，恢复标准设置。" ++ [CR; LF].

Definition main : M Z :=
  enableRawMode ;;
  initEditor ;;
  n <- get (fun w => length (stdin w)) ;;
  main_loop (S n) ;;
  printf goodbye ;;
  ret 0.

(** The handlers [exit] runs. *)
Definition run_atexit : M unit :=
  registered <- get atexit_disableRawMode ;;
  if registered then disableRawMode else ret tt.

(** A process from start to end: [main] returns or calls [exit], then
    the handlers run; a [die] inside a handler ends the process with
    status 1. *)
Definition process (main : M Z) (w : world) : result unit :=
  match main w with
  | Ret status w' | Exit status w' =>
      match run_atexit w' with
      | Ret _ w'' => Exit status w''
      | other => other
      end
  | Hang w' => Hang w'
  end.

Definition run : world -> result unit := process main.

End Editor.

(** ** The second program: [raw_mode_editor.c]

    [die], [disableRawMode] and [enableRawMode] are the ones above. *)

Module KeyPrinter.

Section Program.

Context `{P : platform}.

(** [iscntrl] in the C locale. *)
Definition iscntrl (c : Z) : bool := (c <? 32) || (c =? 127).

(** [%c] of an [int]: the byte it converts to. *)
Definition chr (c : Z) : ascii := ascii_of_N (Z.to_N (c mod 256)).

(** The argument is an [unsigned char]. *)
Definition printKeyInfo (c : Z) : M unit :=
  if iscntrl c then
    printf (dec c ++ str " (^" ++ [chr (c + 64)] ++ str ")" ++ [CR; LF])
  else
    printf (dec c ++ str " ('" ++ [chr c] ++ str "')" ++ [CR; LF]).

(** [while (1)] of [main]: every turn uses one answer of [stdin], and
    when they are used up every read returns 0 and the loop goes on for
    ever. *)
Fixpoint main_loop (fuel : nat) : M unit :=
  match fuel with
  | O => fun w => Hang w
  | S fuel' =>
      r <- read ;;
      (match r with
       | Error errno => if negb (errno =? EAGAIN) then die "read" else ret tt
       | _ => ret tt
       end) ;;
      let c := match r with Byte c => lit c | _ => lit NUL end in
      (if negb (c =? lit NUL) then printKeyInfo c else ret tt) ;;
      if c =? lit "q" then ret tt else main_loop fuel'
  end.

Definition main : M Z :=
  enableRawMode ;;
  printf (str "终端原始模式已启用。按下 'q' 退出。" ++ [CR; LF]) ;;
  printf (str "按键信息将显示为: ASCII值 (字符表示)" ++ [CR; LF]) ;;
  printf (str "------------------------------------" ++ [CR; LF]) ;;
  n <- get (fun w => length (stdin w)) ;;
  main_loop n ;;
  printf ([CR; LF] ++ str "终端原始模式已禁用，恢复标准设置。" ++ [CR; LF]) ;;
  ret 0.

Definition run : world -> result unit := process main.

End Program.

End KeyPrinter.

(** * Vocabulary of the properties *)

(** ** Worlds to run the program in *)

(** Objects of static storage start out as zeros. *)
Definition zero_termios `{P : platform} : termios :=
  {| c_iflag := 0; c_oflag := 0; c_cflag := 0; c_lflag := 0; c_line := 0;
     c_cc := replicate NCCS 0; c_ispeed := 0; c_ospeed := 0 |}.

(** The world at process start: a terminal with attributes [t], a window
    size answer, the input to come; nothing fails. *)
Definition boot `{P : platform} (t : termios) (ws : option (Z * Z))
    (input : list read_event) : world :=
  {| tty := t; tc_faults := []; winsize := ws; stdin := input; stdout := [];
     write_faults := []; stderr := []; heap_faults := [];
     orig_termios := zero_termios; atexit_disableRawMode := false;
     E := {| screenrows := 0; screencols := 0; cursor_x := 0; cursor_y := 0 |} |}.

(** The attributes of a Linux terminal in its usual line mode
    ([stty sane]-like: [ICRNL], [IXON], [OPOST], [ISIG], [ICANON],
    [ECHO], ...). *)
Definition cooked : termios :=
  {| c_iflag := 17664; c_oflag := 5; c_cflag := 191; c_lflag := 35387;
     c_line := 0;
     c_cc := [3; 28; 127; 21; 4; 0; 1; 0; 17; 19; 26; 0; 18; 15; 23; 22;
              0; 0; 0; 0; 0; 0; 0; 0; 0; 0; 0; 0; 0; 0; 0; 0];
     c_ispeed := 15; c_ospeed := 15 |}.

(** The world the main loop starts in: [boot] after [enableRawMode] and
    [initEditor] put the cursor at the origin of a [rows] by [cols]
    screen. *)
Definition at_loop `{P : platform} (rows cols : Z) (input : list read_event) : world :=
  set_E {| screenrows := rows; screencols := cols; cursor_x := 0; cursor_y := 0 |}
    (set_atexit true
       (set_tty (raw_of cooked)
          (set_orig_termios cooked (boot cooked (Some (rows, cols)) input)))).

(** The bytes of a key sequence, as successful reads. *)
Definition keys (s : list ascii) : list read_event := map Byte s.

(** ** Cursor movement *)

(** The cursor is on the screen. *)
Definition in_bounds (e : editorState) : Prop :=
  0 <= cursor_y e < screenrows e /\ 0 <= cursor_x e < screencols e.

(** Where each key sends the cursor, as [(row, column)]: one step that
    stops at the border, or a jump to a border. *)
Definition moved (key : Z) (e : editorState) : Z * Z :=
  let y := cursor_y e in
  let x := cursor_x e in
  if key =? KEY_UP then (Z.max 0 (y - 1), x)
  else if key =? KEY_DOWN then (Z.min (screenrows e - 1) (y + 1), x)
  else if key =? KEY_LEFT then (y, Z.max 0 (x - 1))
  else if key =? KEY_RIGHT then (y, Z.min (screencols e - 1) (x + 1))
  else if key =? KEY_HOME then (y, 0)
  else if key =? KEY_END then (y, screencols e - 1)
  else if key =? KEY_PAGE_UP then (0, x)
  else if key =? KEY_PAGE_DOWN then (screenrows e - 1, x)
  else (y, x).


(** ** Terminal input modes *)

(** Modelled from POSIX (General Terminal Interface, non-canonical mode
    input processing), which the repository relies on and does not
    contain: how [read] on a terminal behaves, by [ICANON] and the
    [MIN] and [TIME] entries of [c_cc].  [TIME] counts tenths of a
    second. *)
Inductive read_mode : Type :=
| LineAtATime                      (* canonical: a read waits for a whole line *)
| Polling                          (* MIN = 0, TIME = 0: returns at once *)
| Timed (ms : Z)                   (* MIN = 0, TIME > 0: returns on the first byte, or
                                      with zero bytes after [ms] milliseconds *)
| Blocking (min : Z)               (* MIN > 0, TIME = 0: waits for [min] bytes *)
| InterByte (min : Z) (ms : Z).    (* MIN > 0, TIME > 0: timer between bytes *)

Definition read_mode_of `{P : platform} (t : termios) : read_mode :=
  if negb (Z.land (c_lflag t) ICANON =? 0) then LineAtATime
  else
    let min := default 0 (c_cc t !! VMIN) in
    let time := default 0 (c_cc t !! VTIME) in
    if min =? 0 then (if time =? 0 then Polling else Timed (100 * time))
    else (if time =? 0 then Blocking min else InterByte min (100 * time)).

(** The bits of a 32-bit flag word. *)
Definition bit (flags : Z) (i : Z) : bool := Z.testbit flags i.

(** ** What a call may change *)

(** The world a call leaves behind, however it ends. *)
Definition world_of {A : Type} (r : result A) : world :=
  match r with
  | Ret _ w | Exit _ w | Hang w => w
  end.

(** [m] takes every world to one that [R] relates to it. *)
Definition preserves {A : Type} (R : world -> world -> Prop) (m : M A) : Prop :=
  forall w, R w (world_of (m w)).

(** [m] always returns, and then [R] relates the worlds. *)
Definition returns_with {A : Type} (R : world -> world -> Prop) (m : M A) : Prop :=
  forall w, exists a w', m w = Ret a w' /\ R w w'.

(** Neither the terminal attributes, nor the snapshot, nor the handler
    registration, nor the fate of the coming attribute calls changed. *)
Definition terminal_untouched (w w' : world) : Prop :=
  tty w' = tty w /\ tc_faults w' = tc_faults w
  /\ orig_termios w' = orig_termios w
  /\ atexit_disableRawMode w' = atexit_disableRawMode w.

(** Only output happened: bytes were added to [stdout], and answers of
    the [write] and [realloc] scripts were used. *)
Definition only_output (w w' : world) : Prop :=
  terminal_untouched w w'
  /\ winsize w' = winsize w /\ stdin w' = stdin w /\ stderr w' = stderr w
  /\ E w' = E w
  /\ (write_faults w = [] -> write_faults w' = [])
  /\ (heap_faults w = [] -> heap_faults w' = [])
  /\ exists out, stdout w' = stdout w ++ out.

(** The input only gets shorter: a call answers no read that was
    already answered. *)
Definition stdin_shrinks (w w' : world) : Prop :=
  (length (stdin w') <= length (stdin w))%nat.

(** ** Key sequences *)

(** The world with [evs] as the answers of the coming reads. *)
Definition feed (evs : list read_event) (w : world) : world := set_stdin evs w.

(** A failed read that [readKey] retries: a timeout, or [EAGAIN]. *)
Definition retried `{P : platform} (ev : read_event) : Prop :=
  ev = Timeout \/ ev = Error EAGAIN.

(** The tables of the specification: what follows [ESC], and the key. *)
Definition escape_table : list (string * Z) :=
  [ ("[1~", KEY_HOME); ("[3~", KEY_DEL); ("[4~", KEY_END); ("[5~", KEY_PAGE_UP);
    ("[6~", KEY_PAGE_DOWN); ("[7~", KEY_HOME); ("[8~", KEY_END);
    ("[A", KEY_UP); ("[B", KEY_DOWN); ("[C", KEY_RIGHT); ("[D", KEY_LEFT);
    ("[H", KEY_HOME); ("[F", KEY_END);
    ("OH", KEY_HOME); ("OF", KEY_END) ]%string.

(** The coming reads start with the bytes [s]. *)
Fixpoint starts_with (s : list ascii) (evs : list read_event) : bool :=
  match s, evs with
  | [], _ => true
  | c :: s', Byte c' :: evs' => Ascii.eqb c c' && starts_with s' evs'
  | _ :: _, _ => false
  end.

(** What follows [ESC] is one of the sequences of the tables. *)
Definition recognized (evs : list read_event) : bool :=
  existsb (fun entry => starts_with (str (fst entry)) evs) escape_table.

(** The decoder of [readKey] behind the [ESC] byte, as a function of the
    coming reads: the key, and the reads it leaves. *)
Definition escape_key (evs : list read_event) : Z * list read_event :=
  match evs with
  | [] => (KEY_ESC, [])
  | Byte seq0 :: [] => (KEY_ESC, [])
  | Byte seq0 :: Byte seq1 :: rest =>
      if Ascii.eqb seq0 "[" then
        if isdigit seq1 then
          match rest with
          | [] => (KEY_ESC, [])
          | Byte seq2 :: rest' =>
              if Ascii.eqb seq2 "~" then
                (if Ascii.eqb seq1 "1" then KEY_HOME
                 else if Ascii.eqb seq1 "3" then KEY_DEL
                 else if Ascii.eqb seq1 "4" then KEY_END
                 else if Ascii.eqb seq1 "5" then KEY_PAGE_UP
                 else if Ascii.eqb seq1 "6" then KEY_PAGE_DOWN
                 else if Ascii.eqb seq1 "7" then KEY_HOME
                 else if Ascii.eqb seq1 "8" then KEY_END
                 else KEY_ESC, rest')
              else (KEY_ESC, rest')
          | _ :: rest' => (KEY_ESC, rest')
          end
        else
          (if Ascii.eqb seq1 "A" then KEY_UP
           else if Ascii.eqb seq1 "B" then KEY_DOWN
           else if Ascii.eqb seq1 "C" then KEY_RIGHT
           else if Ascii.eqb seq1 "D" then KEY_LEFT
           else if Ascii.eqb seq1 "H" then KEY_HOME
           else if Ascii.eqb seq1 "F" then KEY_END
           else KEY_ESC, rest)
      else if Ascii.eqb seq0 "O" then
        (if Ascii.eqb seq1 "H" then KEY_HOME
         else if Ascii.eqb seq1 "F" then KEY_END
         else KEY_ESC, rest)
      else (KEY_ESC, rest)
  | Byte seq0 :: _ :: rest => (KEY_ESC, rest)
  | _ :: rest => (KEY_ESC, rest)
  end.

(** ** Buffers and frames *)

(** The buffer after an [abAppend] whose [realloc] succeeded. *)
Definition push (ab : appendBuffer) (s : list ascii) (n : Z) : appendBuffer :=
  {| b := b ab ++ take (Z.to_nat n) s; len := wrap32 (len ab + n) |}.

(** [ab'] is [ab] with [bytes] added at the end, and its length field
    has followed (as 32-bit integers). *)
Definition appended (ab ab' : appendBuffer) (bytes : list ascii) : Prop :=
  b ab' = b ab ++ bytes
  /\ wrap32 (len ab') = wrap32 (len ab + Z.of_nat (length bytes)).

(** The left margin [drawWelcome] draws for a padding of [padding]. *)
Definition margin (padding : Z) : list ascii :=
  if padding =? 0 then [] else "~"%char :: replicate (Z.to_nat (padding - 1)) " "%char.

(** What [drawWelcome_of text] adds on a screen of [cols] columns: the
    margin, then the first bytes of the array [welcome]. *)
Definition welcome_bytes (text : list ascii) (cols : Z) : list ascii :=
  let welcomelen := Z.min (Z.of_nat (length text)) cols in
  margin ((cols - welcomelen) / 2)
    ++ take (Z.to_nat welcomelen) (take 79 text ++ [NUL]).

(** What the loop of [refreshScreen] adds for row [y]: the line number,
    the banner or the leader, clear-to-end-of-line, and a line break
    unless the row is the last. *)
Definition row_bytes (e : editorState) (y : Z) : list ascii :=
  dec (y + 1) ++ str " "
    ++ (if y =? 0 then welcome_bytes welcome_text (screencols e) else str "~")
    ++ esc "[K"
    ++ (if y <? screenrows e - 1 then [CR; LF] else []).

(** The rows from [y] on, [n] of them. *)
Fixpoint rows_bytes (e : editorState) (n : nat) (y : Z) : list ascii :=
  match n with
  | O => []
  | S n' => row_bytes e y ++ rows_bytes e n' (y + 1)
  end.

(** The part of the status text that is shown: clipped to the width of
    the screen. *)
Definition status_shown (e : editorState) : list ascii :=
  take (Z.to_nat (screencols e)) (status_text e).

(** One frame. *)
Definition frame (e : editorState) : list ascii :=
  esc "[?25l" ++ esc "[H"
    ++ rows_bytes e (Z.to_nat (screenrows e)) 0
    ++ esc "[999C" ++ esc "[1A"
    ++ esc "[7m" ++ status_shown e ++ esc "[m"
    ++ cursor_text e
    ++ esc "[?25h".

(** ** The scenario of the specification *)

(** The state of a [rows] by [cols] screen with the cursor at row [y],
    column [x]. *)
Definition screen_at (rows cols y x : Z) : editorState :=
  {| screenrows := rows; screencols := cols; cursor_x := x; cursor_y := y |}.

(** The bytes [h], [j], [ESC [ C], [q]. *)
Definition scenario_keys : list read_event :=
  keys (str "hj") ++ Byte ESC :: keys (str "[C") ++ keys (str "q").

(** A world about to enter the main loop: the screen state is [e], the
    input to come is [input], [out] has been written, no [realloc] or
    [write] will fail; everything else is arbitrary. *)
Definition looping (t orig : termios) (tcf : list bool) (ws : option (Z * Z))
    (err : list string) (registered : bool)
    (out : list ascii) (input : list read_event) (e : editorState) : world :=
  {| tty := t; tc_faults := tcf; winsize := ws; stdin := input; stdout := out;
     write_faults := []; stderr := err; heap_faults := [];
     orig_termios := orig; atexit_disableRawMode := registered; E := e |}.

(** ** Replies to the cursor position request *)

(** The bytes [getCursorPosition] stores from the coming reads: up to
    the first [R], the first read that fails, or the 31st byte. *)
Fixpoint reply_bytes (room : nat) (evs : list read_event) : list ascii :=
  match room, evs with
  | S room', Byte c :: evs' =>
      if Ascii.eqb c "R" then [] else c :: reply_bytes room' evs'
  | _, _ => []
  end.

(** The reads it leaves. *)
Fixpoint reply_rest (room : nat) (evs : list read_event) : list read_event :=
  match room, evs with
  | S room', Byte c :: evs' =>
      if Ascii.eqb c "R" then evs' else reply_rest room' evs'
  | S room', _ :: evs' => evs'
  | _, _ => evs
  end.

(** What [getCursorPosition] makes of the stored bytes [got]: the
    returned [int] and the values behind [rows] and [cols]. *)
Definition parse_reply (got : list ascii) (rows cols : Z) : Z * (Z * Z) :=
  let buf := got ++ [NUL] in
  if negb (Ascii.eqb (nth 0 buf NUL) ESC) || negb (Ascii.eqb (nth 1 buf NUL) "[")
  then (-1, (rows, cols))
  else
    let '(n, out) := sscanf_d_d (drop 2 buf) rows cols in
    if negb (n =? 2) then (-1, out) else (0, out).

(** The value of a run of decimal digits. *)
Definition digits_value (ds : list ascii) : Z :=
  fold_left (fun acc c => 10 * acc + (lit c - lit "0")) ds 0.

Definition all_digits (ds : list ascii) : Prop :=
  ds <> [] /\ Forall (fun c => isdigit c = true) ds.

Definition all_spaces (ws : list ascii) : Prop :=
  Forall (fun c => isspace c = true) ws.

(** The bytes do not go on with a digit. *)
Definition not_digit_head (l : list ascii) : Prop :=
  match l with
  | [] => True
  | c :: _ => isdigit c = false
  end.

(** A decimal numeral with an optional sign, and its value. *)
Inductive numeral : list ascii -> Z -> Prop :=
| numeral_plain (ds : list ascii) :
    all_digits ds -> numeral ds (digits_value ds)
| numeral_plus (ds : list ascii) :
    all_digits ds -> numeral ("+"%char :: ds) (digits_value ds)
| numeral_minus (ds : list ascii) :
    all_digits ds -> numeral ("-"%char :: ds) (- digits_value ds).

(** The pattern of the specification, [ESC [ rows ; cols R]: all the
    bytes of the reply, terminator included. *)
Definition strict_reply (bytes : list ascii) (r c : Z) : Prop :=
  exists ds1 ds2 : list ascii,
    bytes = ESC :: "["%char :: ds1 ++ ";"%char :: ds2 ++ ["R"%char]
    /\ all_digits ds1 /\ all_digits ds2
    /\ r = digits_value ds1 /\ c = digits_value ds2.

(** What the code accepts, on the bytes stored before the terminator:
    [ESC [], then for each number optional white space and an optionally
    signed numeral, [;] between the two, and anything behind that does
    not go on with a digit. *)
Definition lenient_reply (got : list ascii) (r c : Z) : Prop :=
  exists ws1 n1 ws2 n2 tail : list ascii,
    got = ESC :: "["%char :: ws1 ++ n1 ++ ";"%char :: ws2 ++ n2 ++ tail
    /\ all_spaces ws1 /\ numeral n1 r
    /\ all_spaces ws2 /\ numeral n2 c
    /\ not_digit_head tail.

(** ** Invariants of the main loop *)

(** The editor state is as it was. *)
Definition state_kept (w w' : world) : Prop := E w' = E w.

(** The extent is as it was, and a cursor that was on the screen is
    still on it. *)
Definition stays_on_screen (w w' : world) : Prop :=
  screenrows (E w') = screenrows (E w)
  /\ screencols (E w') = screencols (E w)
  /\ (int_range (screenrows (E w)) -> int_range (screencols (E w)) ->
      in_bounds (E w) -> in_bounds (E w')).

(** The state after [key], for a cursor on the screen. *)
Definition after_key (key : Z) (e : editorState) : editorState :=
  with_cursor_x (snd (moved key e)) (with_cursor_y (fst (moved key e)) e).

(** An extent [TIOCGWINSZ] can report: two [unsigned short]s. *)
Definition reportable (e : editorState) : Prop :=
  0 <= screenrows e <= 65535 /\ 0 <= screencols e <= 65535.

(** ** One write for a frame *)

(** Nothing reached the terminal and no [write] was made. *)
Definition buffering (w w' : world) : Prop :=
  stdout w' = stdout w /\ write_faults w' = write_faults w.

(** One [write] was made, of [bytes]; when it failed nothing reached the
    terminal. *)
Definition wrote_once (bytes : list ascii) (w w' : world) : Prop :=
  write_faults w' = drop 1 (write_faults w)
  /\ stdout w' = stdout w ++ (if fst (next_fault (write_faults w)) then [] else bytes).

(** ** Starting the editor *)

(** The reply of a terminal whose cursor is in row [r], column [c]:
    [ESC [ r ; c R] with the numbers in decimal. *)
Definition cursor_report (r c : Z) : list ascii :=
  esc "[" ++ dec r ++ str ";" ++ dec c ++ str "R".

(** [ioctl] gives no usable window size: it fails, or reports zero
    columns. *)
Definition no_winsize (w : world) : Prop :=
  winsize w = None \/ exists ws_row : Z, winsize w = Some (ws_row, 0).

(** ** How the programs end *)

(** The messages of the calls of [die]. *)
Definition die_messages : list string :=
  ["tcgetattr"; "tcsetattr"; "read"; "getWindowSize"]%string.

(** A call that complains only when it dies: it returns or waits with
    [stderr] as it was, or it exits with status 1 and one message more. *)
Definition dies_loudly {A : Type} (m : M A) : Prop :=
  forall w,
    match m w with
    | Ret _ w' | Hang w' => stderr w' = stderr w
    | Exit status w' =>
        status = 1
        /\ exists msg : string, In msg die_messages /\ stderr w' = stderr w ++ [msg]
    end.

(** [m] returns no value but [v]. *)
Definition returns_only {A : Type} (v : A) (m : M A) : Prop :=
  forall w a w', m w = Ret a w' -> a = v.

(** The ways a process started in [w] may end: waiting for input with
    nothing said, with status 0 and nothing said, or with status 1 and
    the message of the [die] that ended it (and a second one when the
    handler of [exit] dies too). *)
Definition ends_properly (w : world) (r : result unit) : Prop :=
  match r with
  | Ret _ _ => False
  | Hang w' => stderr w' = stderr w
  | Exit status w' =>
      (status = 0 /\ stderr w' = stderr w)
      \/ (status = 1
          /\ exists msgs : list string,
               (0 < length msgs <= 2)%nat
               /\ Forall (fun msg => In msg die_messages) msgs
               /\ stderr w' = stderr w ++ msgs)
  end.

(** ** The key printer *)

(** The line the key printer shows for the byte [c]: its number, then
    the byte itself between quotes, or for a control character a caret
    and the byte 64 above it. *)
Definition key_line (c : ascii) : list ascii :=
  dec (lit c)
    ++ (if (lit c <? 32) || (lit c =? 127)
        then str " (^" ++ [ascii_of_N (N_of_ascii c + 64)] ++ str ")"
        else str " ('" ++ [c] ++ str "')")
    ++ [CR; LF].

(** What one read makes the key printer show: a line for a byte other
    than [NUL], nothing for [NUL] and for a read without a byte. *)
Definition shown (ev : read_event) : list ascii :=
  match ev with
  | Byte c => if Ascii.eqb c NUL then [] else key_line c
  | _ => []
  end.

(** A read that does not end the key printer: any byte but [q], a
    timeout, or [EAGAIN]. *)
Definition goes_on `{P : platform} (ev : read_event) : Prop :=
  match ev with
  | Byte c => c <> "q"%char
  | Timeout => True
  | Error errno => errno = EAGAIN
  end.

(** The three lines the key printer starts with, and its last line. *)
Definition key_printer_header : list ascii :=
  str "终端原始模式已启用。按下 'q' 退出。" ++ [CR; LF]
    ++ str "按键信息将显示为: ASCII值 (字符表示)" ++ [CR; LF]
    ++ str "------------------------------------" ++ [CR; LF].

Definition key_printer_farewell : list ascii :=
  [CR; LF] ++ str "终端原始模式已禁用，恢复标准设置。" ++ [CR; LF].

(** ** Key codes *)

(** The keys [readKey] has a code of its own for. *)
Definition special_keys : list Z :=
  [KEY_UP; KEY_DOWN; KEY_RIGHT; KEY_LEFT; KEY_PAGE_UP; KEY_PAGE_DOWN;
   KEY_HOME; KEY_END; KEY_DEL].

(** ** Sessions *)

(** What a user does at the keyboard: type a byte, or press a key that
    sends one of the sequences of the tables. *)
Inductive press : Type :=
| Typed (c : ascii)
| Special (entry : string * Z).

(** The reads a press gives. *)
Definition press_events (p : press) : list read_event :=
  match p with
  | Typed c => [Byte c]
  | Special entry => Byte ESC :: keys (str (fst entry))
  end.

(** The presses the main loop goes on after: bytes other than [q] and
    [ESC], and sequences of the tables. *)
Definition press_ok (p : press) : Prop :=
  match p with
  | Typed c => c <> "q"%char /\ c <> ESC
  | Special entry => In entry escape_table
  end.

(** The state after a press. *)
Definition press_effect (e : editorState) (p : press) : editorState :=
  match p with
  | Typed _ => e
  | Special entry => after_key (snd entry) e
  end.

(** A step of a session: the reads without a key that pass while the
    user does nothing (timeouts, [EAGAIN]), then a press. *)
Definition step : Type := list read_event * press.

Definition step_events (s : step) : list read_event :=
  fst s ++ press_events (snd s).

Definition step_ok `{P : platform} (s : step) : Prop :=
  Forall retried (fst s) /\ press_ok (snd s).

Definition step_effect (e : editorState) (s : step) : editorState :=
  press_effect e (snd s).

(** The frames drawn while the steps are read from state [e], the one
    drawn before the key that ends the loop included. *)
Fixpoint frames_of (e : editorState) (steps : list step) : list ascii :=
  match steps with
  | [] => frame e
  | s :: steps' => frame e ++ frames_of (step_effect e s) steps'
  end.

(** * Properties *)

(** ** Integers and the world *)

Lemma wrap32_small (z : Z) : int_range z -> wrap32 z = z.
Proof.
  unfold int_range, wrap32. intros Hz.
  rewrite Z.mod_small; lia.
Qed.

Lemma set_E_same (w : world) : set_E (E w) w = w.
Proof. destruct w; reflexivity. Qed.

Lemma set_stdin_same (w : world) : set_stdin (stdin w) w = w.
Proof. destruct w; reflexivity. Qed.

Lemma set_heap_faults_same (w : world) : set_heap_faults (heap_faults w) w = w.
Proof. destruct w; reflexivity. Qed.

Lemma set_write_faults_same (w : world) : set_write_faults (write_faults w) w = w.
Proof. destruct w; reflexivity. Qed.

Lemma set_tc_faults_same (w : world) : set_tc_faults (tc_faults w) w = w.
Proof. destruct w; reflexivity. Qed.

Section CursorFacts.

Context `{P : platform}.

Ltac key_case k :=
  let Hk := fresh "Hk" in
  destruct (Z.eqb_spec k KEY_UP) as [Hk | Hk];
  [ | destruct (Z.eqb_spec k KEY_DOWN) as [? | ?];
      [ | destruct (Z.eqb_spec k KEY_LEFT) as [? | ?];
          [ | destruct (Z.eqb_spec k KEY_RIGHT) as [? | ?];
              [ | destruct (Z.eqb_spec k KEY_HOME) as [? | ?];
                  [ | destruct (Z.eqb_spec k KEY_END) as [? | ?];
                      [ | destruct (Z.eqb_spec k KEY_PAGE_UP) as [? | ?];
                          [ | destruct (Z.eqb_spec k KEY_PAGE_DOWN) as [? | ?] ] ] ] ] ] ] ].

(** [moveCursor] always returns, touches only the cursor, and leaves it
    where [moved] says. *)
Lemma moveCursor_moved (key : Z) (w : world) :
  int_range (screenrows (E w)) ->
  int_range (screencols (E w)) ->
  in_bounds (E w) ->
  moveCursor key w =
    Ret tt (set_E (with_cursor_x (snd (moved key (E w)))
                     (with_cursor_y (fst (moved key (E w))) (E w))) w).
Proof.
  intros Hr Hc [Hy Hx].
  assert (Hsame : forall e : editorState,
             with_cursor_x (cursor_x e) (with_cursor_y (cursor_y e) e) = e)
    by (intros []; reflexivity).
  unfold int_range in Hr, Hc.
  unfold moveCursor, moved, bind, get, assign, modify, ret.
  key_case key; cbn [fst snd].
  - destruct (Z.gtb_spec (cursor_y (E w)) 0).
    + rewrite wrap32_small by (unfold int_range; lia).
      rewrite Z.max_r by lia. destruct w as [? ? ? ? ? ? ? ? ? ? []]; reflexivity.
    + rewrite Z.max_l by lia. replace 0 with (cursor_y (E w)) at 1 by lia.
      rewrite Hsame, set_E_same. reflexivity.
  - rewrite (wrap32_small (screenrows (E w) - 1)) by (unfold int_range; lia).
    destruct (Z.ltb_spec (cursor_y (E w)) (screenrows (E w) - 1)).
    + rewrite wrap32_small by (unfold int_range; lia).
      rewrite Z.min_r by lia. destruct w as [? ? ? ? ? ? ? ? ? ? []]; reflexivity.
    + rewrite Z.min_l by lia.
      replace (screenrows (E w) - 1) with (cursor_y (E w)) by lia.
      rewrite Hsame, set_E_same. reflexivity.
  - destruct (Z.gtb_spec (cursor_x (E w)) 0).
    + rewrite wrap32_small by (unfold int_range; lia).
      rewrite Z.max_r by lia. destruct w as [? ? ? ? ? ? ? ? ? ? []]; reflexivity.
    + rewrite Z.max_l by lia. replace 0 with (cursor_x (E w)) at 1 by lia.
      rewrite Hsame, set_E_same. reflexivity.
  - rewrite (wrap32_small (screencols (E w) - 1)) by (unfold int_range; lia).
    destruct (Z.ltb_spec (cursor_x (E w)) (screencols (E w) - 1)).
    + rewrite wrap32_small by (unfold int_range; lia).
      rewrite Z.min_r by lia. destruct w as [? ? ? ? ? ? ? ? ? ? []]; reflexivity.
    + rewrite Z.min_l by lia.
      replace (screencols (E w) - 1) with (cursor_x (E w)) by lia.
      rewrite Hsame, set_E_same. reflexivity.
  - destruct w as [? ? ? ? ? ? ? ? ? ? []]; reflexivity.
  - rewrite wrap32_small by (unfold int_range; lia).
    destruct w as [? ? ? ? ? ? ? ? ? ? []]; reflexivity.
  - destruct w as [? ? ? ? ? ? ? ? ? ? []]; reflexivity.
  - rewrite wrap32_small by (unfold int_range; lia).
    destruct w as [? ? ? ? ? ? ? ? ? ? []]; reflexivity.
  - rewrite Hsame, set_E_same. reflexivity.
Qed.

Lemma moved_in_bounds (key : Z) (e : editorState) :
  in_bounds e ->
  0 <= fst (moved key e) < screenrows e /\ 0 <= snd (moved key e) < screencols e.
Proof.
  intros [Hy Hx]. unfold moved.
  key_case key; cbn [fst snd]; lia.
Qed.


(** C1.  From a cursor inside [0, rows) x [0, cols), whatever the key,
    [moveCursor] returns with the extent unchanged and the cursor still
    inside: Up, Down, Left and Right step by one and stop at the border,
    Home and End set the column to 0 and [cols - 1], PageUp and PageDown
    set the row to 0 and [rows - 1], and any other key leaves the cursor
    where it is. *)
Theorem moveCursor_stays_on_screen (key : Z) (w : world) :
  int_range (screenrows (E w)) ->
  int_range (screencols (E w)) ->
  in_bounds (E w) ->
  exists e' : editorState,
    moveCursor key w = Ret tt (set_E e' w)
    /\ in_bounds e'
    /\ screenrows e' = screenrows (E w)
    /\ screencols e' = screencols (E w)
    /\ let y := cursor_y (E w) in
       let x := cursor_x (E w) in
       let rows := screenrows (E w) in
       let cols := screencols (E w) in
       (key = KEY_UP -> cursor_y e' = Z.max 0 (y - 1) /\ cursor_x e' = x)
       /\ (key = KEY_DOWN -> cursor_y e' = Z.min (rows - 1) (y + 1) /\ cursor_x e' = x)
       /\ (key = KEY_LEFT -> cursor_y e' = y /\ cursor_x e' = Z.max 0 (x - 1))
       /\ (key = KEY_RIGHT -> cursor_y e' = y /\ cursor_x e' = Z.min (cols - 1) (x + 1))
       /\ (key = KEY_HOME -> cursor_y e' = y /\ cursor_x e' = 0)
       /\ (key = KEY_END -> cursor_y e' = y /\ cursor_x e' = cols - 1)
       /\ (key = KEY_PAGE_UP -> cursor_y e' = 0 /\ cursor_x e' = x)
       /\ (key = KEY_PAGE_DOWN -> cursor_y e' = rows - 1 /\ cursor_x e' = x)
       /\ (~ In key [KEY_UP; KEY_DOWN; KEY_LEFT; KEY_RIGHT; KEY_HOME; KEY_END;
                     KEY_PAGE_UP; KEY_PAGE_DOWN] ->
           cursor_y e' = y /\ cursor_x e' = x).
Proof.
  intros Hr Hc Hb.
  eexists. split; [apply moveCursor_moved; assumption | ].
  pose proof (moved_in_bounds key (E w) Hb) as [Hy Hx].
  split; [split; assumption | ].
  split; [reflexivity | ]. split; [reflexivity | ].
  cbn zeta. cbn [cursor_y cursor_x with_cursor_x with_cursor_y].
  unfold moved.
  repeat match goal with |- _ /\ _ => split end; intros Hk.
  1-8: subst key; cbn [fst snd]; split; reflexivity.
  key_case key; cbn [fst snd]; try (split; reflexivity).
  all: exfalso; apply Hk; subst key; cbn; tauto.
Qed.

End CursorFacts.

(** The cursor in the middle of a 24 x 80 screen, and the key Down. *)
Lemma moveCursor_stays_on_screen_witness :
  exists e' : editorState,
    moveCursor KEY_DOWN
      (set_E {| screenrows := 24; screencols := 80; cursor_x := 79; cursor_y := 22 |}
         (at_loop (P := linux_x86_64) 24 80 [])) =
    Ret tt (set_E e' (at_loop (P := linux_x86_64) 24 80 []))
    /\ cursor_y e' = 23 /\ cursor_x e' = 79.
Proof.
  destruct (moveCursor_stays_on_screen KEY_DOWN
              (set_E {| screenrows := 24; screencols := 80; cursor_x := 79; cursor_y := 22 |}
                 (at_loop (P := linux_x86_64) 24 80 [])))
    as (e' & Hrun & _ & _ & _ & _ & Hdown & _).
  - unfold int_range; cbn; lia.
  - unfold int_range; cbn; lia.
  - unfold in_bounds; cbn; lia.
  - exists e'. split; [exact Hrun | ].
    destruct (Hdown eq_refl) as [Hy Hx]. cbn in Hy, Hx. split; assumption.
Defined.

(** ** Terminal attributes *)

Lemma u32_range_fix (z : Z) : u32_range z <-> u32 z = z.
Proof.
  unfold u32_range, u32. split.
  - intros Hz. apply Z.mod_small. exact Hz.
  - intros <-. apply Z.mod_pos_bound. lia.
Qed.

Ltac bits :=
  repeat first
    [ rewrite Z.land_spec | rewrite Z.lor_spec
    | rewrite Z.lnot_spec by lia | rewrite Z.testbit_mod_pow2 by lia ].

Lemma clear_bits_range (flags mask : Z) :
  u32_range flags -> u32_range (Z.land flags (u32 (Z.lnot mask))).
Proof.
  intros Hf. apply u32_range_fix. apply u32_range_fix in Hf.
  apply Z.bits_inj'. intros i Hi. unfold u32 in *. bits.
  destruct (i <? 32); [reflexivity | ]. rewrite andb_false_r. reflexivity.
Qed.

Lemma set_bits_range (flags mask : Z) :
  u32_range flags -> u32_range (Z.lor flags (u32 mask)).
Proof.
  intros Hf. apply u32_range_fix. apply u32_range_fix in Hf.
  apply Z.bits_inj'. intros i Hi. rewrite <- Hf at 2. unfold u32 in *. bits.
  destruct (i <? 32); [reflexivity | ]. reflexivity.
Qed.

Lemma clear_bits_spec (flags mask i : Z) :
  0 <= i < 32 ->
  bit (Z.land flags (u32 (Z.lnot mask))) i = bit flags i && negb (bit mask i).
Proof.
  intros Hi. unfold bit, u32. bits.
  replace (i <? 32) with true by (symmetry; apply Z.ltb_lt; lia).
  reflexivity.
Qed.

Lemma set_bits_spec (flags mask i : Z) :
  0 <= i < 32 ->
  bit (Z.lor flags (u32 mask)) i = bit flags i || bit mask i.
Proof.
  intros Hi. unfold bit, u32. bits.
  replace (i <? 32) with true by (symmetry; apply Z.ltb_lt; lia).
  reflexivity.
Qed.

Section TermiosFacts.

Context `{P : platform}.

(** Once [ICANON] is among the cleared bits, none of its bits is left. *)
Lemma icanon_cleared (flags : Z) :
  u32_range ICANON ->
  Z.land (Z.land flags (u32 (Z.lnot (Z.lor ECHO (Z.lor ICANON (Z.lor IEXTEN ISIG))))))
         ICANON = 0.
Proof.
  intros Hc. apply u32_range_fix in Hc.
  apply Z.bits_inj'. intros i Hi. rewrite Z.bits_0.
  rewrite <- Hc at 2. unfold u32. bits.
  destruct (i <? 32), (Z.testbit ICANON i), (Z.testbit flags i),
    (Z.testbit ECHO i), (Z.testbit IEXTEN i), (Z.testbit ISIG i); reflexivity.
Qed.

(** C7.  The attributes [enableRawMode] applies are the snapshot with
    exactly these changes: the bits of [BRKINT], [ICRNL], [INPCK],
    [ISTRIP] and [IXON] are cleared in the input flags, those of [OPOST]
    in the output flags, those of [ECHO], [ICANON], [IEXTEN] and [ISIG]
    in the local flags; the bits of [CS8] are set in the control flags;
    [c_cc[VMIN]] is 0 and [c_cc[VTIME]] is 1; every other bit, control
    character and field is as in the snapshot.  With these, a read on
    the terminal returns with the first byte, or with none after 100
    milliseconds. *)
Theorem raw_of_exact_changes (t : termios) :
  u32_range (c_iflag t) -> u32_range (c_oflag t) ->
  u32_range (c_cflag t) -> u32_range (c_lflag t) ->
  u32_range ICANON ->
  (VMIN < length (c_cc t))%nat -> (VTIME < length (c_cc t))%nat ->
  VMIN <> VTIME ->
  let raw := raw_of t in
  (forall i, 0 <= i < 32 ->
     bit (c_iflag raw) i =
       bit (c_iflag t) i
       && negb (bit BRKINT i || bit ICRNL i || bit INPCK i || bit ISTRIP i || bit IXON i))
  /\ (forall i, 0 <= i < 32 ->
        bit (c_oflag raw) i = bit (c_oflag t) i && negb (bit OPOST i))
  /\ (forall i, 0 <= i < 32 ->
        bit (c_cflag raw) i = bit (c_cflag t) i || bit CS8 i)
  /\ (forall i, 0 <= i < 32 ->
        bit (c_lflag raw) i =
          bit (c_lflag t) i
          && negb (bit ECHO i || bit ICANON i || bit IEXTEN i || bit ISIG i))
  /\ (u32_range (c_iflag raw) /\ u32_range (c_oflag raw)
      /\ u32_range (c_cflag raw) /\ u32_range (c_lflag raw))
  /\ c_cc raw !! VMIN = Some 0
  /\ c_cc raw !! VTIME = Some 1
  /\ (forall j : nat, j <> VMIN -> j <> VTIME -> c_cc raw !! j = c_cc t !! j)
  /\ length (c_cc raw) = length (c_cc t)
  /\ c_line raw = c_line t
  /\ c_ispeed raw = c_ispeed t
  /\ c_ospeed raw = c_ospeed t
  /\ read_mode_of raw = Timed 100.
Proof.
  intros Hi Ho Hc Hl Hcanon Hmin Htime Hne raw.
  assert (Hvmin : c_cc raw !! VMIN = Some 0).
  { cbn. rewrite list_lookup_insert_ne by congruence.
    apply list_lookup_insert_eq. exact Hmin. }
  assert (Hvtime : c_cc raw !! VTIME = Some 1).
  { cbn. apply list_lookup_insert_eq. rewrite length_insert. exact Htime. }
  repeat match goal with |- _ /\ _ => split end.
  - intros i Hb. cbn. rewrite clear_bits_spec by exact Hb.
    unfold bit. rewrite !Z.lor_spec, !orb_assoc. reflexivity.
  - intros i Hb. cbn. apply clear_bits_spec. exact Hb.
  - intros i Hb. cbn. apply set_bits_spec. exact Hb.
  - intros i Hb. cbn. rewrite clear_bits_spec by exact Hb.
    unfold bit. rewrite !Z.lor_spec, !orb_assoc. reflexivity.
  - apply clear_bits_range. exact Hi.
  - apply clear_bits_range. exact Ho.
  - apply set_bits_range. exact Hc.
  - apply clear_bits_range. exact Hl.
  - exact Hvmin.
  - exact Hvtime.
  - intros j Hj1 Hj2. cbn.
    rewrite !list_lookup_insert_ne by congruence. reflexivity.
  - cbn. rewrite !length_insert. reflexivity.
  - reflexivity.
  - reflexivity.
  - reflexivity.
  - unfold read_mode_of. rewrite Hvmin, Hvtime.
    replace (c_lflag raw) with
      (Z.land (c_lflag t) (u32 (Z.lnot (Z.lor ECHO (Z.lor ICANON (Z.lor IEXTEN ISIG))))))
      by reflexivity.
    rewrite icanon_cleared by exact Hcanon. reflexivity.
Qed.

End TermiosFacts.

(** The usual line-mode attributes of a Linux terminal: raw mode turns
    [ICRNL], [IXON], [OPOST], [ISIG], [ICANON], [ECHO] and [IEXTEN] off. *)
Lemma raw_of_exact_changes_witness :
  c_iflag (raw_of (P := linux_x86_64) cooked) = 16384
  /\ c_oflag (raw_of (P := linux_x86_64) cooked) = 4
  /\ c_lflag (raw_of (P := linux_x86_64) cooked) = 2608
  /\ read_mode_of (P := linux_x86_64) (raw_of (P := linux_x86_64) cooked) = Timed 100.
Proof.
  destruct (raw_of_exact_changes (P := linux_x86_64) cooked)
    as (_ & _ & _ & _ & _ & _ & _ & _ & _ & _ & _ & _ & Hmode).
  1-5: unfold u32_range; vm_compute; split; [discriminate | reflexivity].
  1-2: vm_compute; lia.
  - vm_compute. discriminate.
  - split; [reflexivity | split; [reflexivity | split; [reflexivity | exact Hmode]]].
Defined.

(** ** Frame rules for the monad *)

#[local] Instance terminal_untouched_preorder : PreOrder terminal_untouched.
Proof.
  split.
  - intros w. repeat split.
  - intros w1 w2 w3 (? & ? & ? & ?) (? & ? & ? & ?).
    repeat split; congruence.
Qed.

#[local] Instance only_output_preorder : PreOrder only_output.
Proof.
  split.
  - intros w. split; [reflexivity | ]. repeat split; try (intros H; exact H).
    exists []. symmetry. apply app_nil_r.
  - intros w1 w2 w3 (Ht1 & ? & ? & ? & ? & Hw1 & Hh1 & out1 & Ho1)
                    (Ht2 & ? & ? & ? & ? & Hw2 & Hh2 & out2 & Ho2).
    split; [etrans; eassumption | ].
    repeat split; try congruence; try (intros H'; auto).
    exists (out1 ++ out2). rewrite Ho2, Ho1, app_assoc. reflexivity.
Qed.

Section Frames.

Context {R : world -> world -> Prop} `{!PreOrder R}.

Lemma preserves_ret {A : Type} (a : A) : preserves R (ret a).
Proof. intros w. cbn. reflexivity. Qed.

Lemma preserves_bind {A B : Type} (m : M A) (k : A -> M B) :
  preserves R m -> (forall a, preserves R (k a)) -> preserves R (bind m k).
Proof.
  intros Hm Hk w. unfold bind. specialize (Hm w).
  destruct (m w) as [a w' | s w' | w']; cbn in *; try exact Hm.
  etrans; [exact Hm | apply Hk].
Qed.

Lemma preserves_get {A : Type} (f : world -> A) : preserves R (get f).
Proof. intros w. cbn. reflexivity. Qed.

Lemma preserves_exit {A : Type} (s : Z) : preserves R (exit (A := A) s).
Proof. intros w. cbn. reflexivity. Qed.

Lemma preserves_hang {A : Type} : preserves R (fun w => Hang (A := A) w).
Proof. intros w. cbn. reflexivity. Qed.

Lemma returns_ret {A : Type} (a : A) : returns_with R (ret a).
Proof. intros w. exists a, w. split; reflexivity. Qed.

Lemma returns_get {A : Type} (f : world -> A) : returns_with R (get f).
Proof. intros w. exists (f w), w. split; reflexivity. Qed.

Lemma returns_bind {A B : Type} (m : M A) (k : A -> M B) :
  returns_with R m -> (forall a, returns_with R (k a)) -> returns_with R (bind m k).
Proof.
  intros Hm Hk w. unfold bind.
  destruct (Hm w) as (a & w1 & -> & H1).
  destruct (Hk a w1) as (b' & w2 & -> & H2).
  exists b', w2. split; [reflexivity | etrans; eassumption].
Qed.

Lemma returns_preserves {A : Type} (m : M A) : returns_with R m -> preserves R m.
Proof. intros Hm w. destruct (Hm w) as (a & w' & -> & H). exact H. Qed.

End Frames.

Lemma returns_weaken {A : Type} (R R' : world -> world -> Prop) (m : M A) :
  (forall w w', R w w' -> R' w w') -> returns_with R m -> returns_with R' m.
Proof.
  intros HR Hm w. destruct (Hm w) as (a & w' & Heq & H).
  exists a, w'. split; [exact Heq | apply HR; exact H].
Qed.

Lemma only_output_terminal (w w' : world) : only_output w w' -> terminal_untouched w w'.
Proof. intros [H _]. exact H. Qed.

(** ** Drawing only writes *)

Create HintDb frames.

Ltac returns_step :=
  first
    [ apply returns_ret
    | apply returns_get
    | solve [auto with frames]
    | apply returns_bind; [ | intros ? ]
    | match goal with
      | |- returns_with _ (if ?c then _ else _) => destruct c
      | |- returns_with _ (let '(_, _) := ?p in _) => destruct p
      | |- returns_with _ (match ?p with _ => _ end) => destruct p
      end ].

Ltac returns_auto := repeat returns_step.

Ltac preserves_step :=
  first
    [ apply preserves_ret
    | apply preserves_get
    | apply preserves_exit
    | apply preserves_hang
    | solve [auto with frames]
    | apply preserves_bind; [ | intros ? ]
    | match goal with
      | |- preserves _ (if ?c then _ else _) => destruct c
      | |- preserves _ (let '(_, _) := ?p in _) => destruct p
      | |- preserves _ (match ?p with _ => _ end) => destruct p
      end ].

Ltac preserves_auto := repeat preserves_step.

Ltac output_fields :=
  split; [repeat split | ];
  repeat match goal with |- _ /\ _ => split end;
  try reflexivity; try (intros H; exact H); try (cbn; congruence).

Lemma realloc_output : returns_with only_output realloc.
Proof.
  intros w. unfold realloc.
  destruct (heap_faults w) as [ | fault fs] eqn:Hh; cbn [next_fault];
    (eexists _, _; split; [reflexivity | ]); output_fields;
    exists []; cbn; symmetry; apply app_nil_r.
Qed.

Lemma write_output (s : list ascii) (n : Z) : returns_with only_output (write s n).
Proof.
  intros w. unfold write.
  destruct (write_faults w) as [ | [] fs] eqn:Hw; cbn [next_fault];
    (eexists _, _; split; [reflexivity | ]); output_fields.
  - eexists. cbn. reflexivity.
  - exists []. cbn. symmetry. apply app_nil_r.
  - eexists. cbn. reflexivity.
Qed.

Lemma printf_output (s : list ascii) : returns_with only_output (printf s).
Proof.
  intros w. eexists _, _. split; [reflexivity | ]. output_fields.
  eexists. cbn. reflexivity.
Qed.

#[local] Hint Resolve realloc_output write_output printf_output : frames.

Lemma abAppend_output (ab : appendBuffer) (s : list ascii) (n : Z) :
  returns_with only_output (abAppend ab s n).
Proof. unfold abAppend. returns_auto. Qed.

Lemma abFree_output (ab : appendBuffer) : returns_with only_output (abFree ab).
Proof. unfold abFree. returns_auto. Qed.

#[local] Hint Resolve abAppend_output abFree_output : frames.

Lemma pad_loop_output (fuel : nat) (padding : Z) (ab : appendBuffer) :
  returns_with only_output (pad_loop fuel padding ab).
Proof.
  revert padding ab. induction fuel as [ | fuel IH]; intros padding ab; cbn [pad_loop].
  - returns_auto.
  - returns_auto.
Qed.

#[local] Hint Resolve pad_loop_output : frames.

Lemma drawWelcome_of_output (text : list ascii) (ab : appendBuffer) :
  returns_with only_output (drawWelcome_of text ab).
Proof. unfold drawWelcome_of. returns_auto. Qed.

#[local] Hint Resolve drawWelcome_of_output : frames.

Lemma draw_row_output (y : Z) (ab : appendBuffer) :
  returns_with only_output (draw_row y ab).
Proof. unfold draw_row, drawWelcome. returns_auto. Qed.

#[local] Hint Resolve draw_row_output : frames.

Lemma draw_rows_output (fuel : nat) (y : Z) (ab : appendBuffer) :
  returns_with only_output (draw_rows fuel y ab).
Proof.
  revert y ab. induction fuel as [ | fuel IH]; intros y ab; cbn [draw_rows].
  - returns_auto.
  - returns_auto.
Qed.

#[local] Hint Resolve draw_rows_output : frames.

Lemma refreshScreen_output : returns_with only_output refreshScreen.
Proof. unfold refreshScreen. returns_auto. Qed.

Lemma clearScreen_output : returns_with only_output clearScreen.
Proof. unfold clearScreen. returns_auto. Qed.

(** ** The snapshot of the terminal attributes *)

Lemma output_untouched {A : Type} (m : M A) :
  returns_with only_output m -> preserves terminal_untouched m.
Proof.
  intros Hm. apply returns_preserves.
  revert Hm. apply returns_weaken. exact only_output_terminal.
Qed.

Lemma read_untouched : preserves terminal_untouched read.
Proof. intros w. unfold read. destruct (stdin w); repeat split. Qed.

Lemma modify_untouched (f : world -> world) :
  (forall w, terminal_untouched w (f w)) -> preserves terminal_untouched (modify f).
Proof. intros Hf w. apply Hf. Qed.

Lemma perror_untouched (s : string) : preserves terminal_untouched (perror s).
Proof. apply modify_untouched. intros w. repeat split. Qed.

Lemma assign_untouched (f : Z -> editorState -> editorState) (v : Z) :
  preserves terminal_untouched (assign f v).
Proof. apply modify_untouched. intros w. repeat split. Qed.

#[local] Hint Resolve read_untouched perror_untouched assign_untouched : frames.
#[local] Hint Resolve refreshScreen_output clearScreen_output : frames.
#[local] Hint Resolve output_untouched : frames.

Section SnapshotFacts.

Context `{P : platform}.

Lemma die_untouched {A : Type} (s : string) : preserves terminal_untouched (die (A := A) s).
Proof. unfold die. preserves_auto. Qed.

Hint Resolve die_untouched : frames.

Lemma read_byte_untouched (fuel : nat) : preserves terminal_untouched (read_byte fuel).
Proof. induction fuel as [ | fuel IH]; cbn [read_byte]; preserves_auto. Qed.

Lemma read_reply_untouched (fuel : nat) (buf : list ascii) :
  preserves terminal_untouched (read_reply fuel buf).
Proof.
  revert buf. induction fuel as [ | fuel IH]; intros buf; cbn [read_reply];
    preserves_auto.
Qed.

Hint Resolve read_byte_untouched read_reply_untouched : frames.

Lemma readKey_untouched : preserves terminal_untouched readKey.
Proof. unfold readKey. preserves_auto. Qed.

Lemma getCursorPosition_untouched (rows cols : Z) :
  preserves terminal_untouched (getCursorPosition rows cols).
Proof. unfold getCursorPosition. preserves_auto. Qed.

Hint Resolve readKey_untouched getCursorPosition_untouched : frames.

Lemma getWindowSize_untouched (rows cols : Z) :
  preserves terminal_untouched (getWindowSize rows cols).
Proof. unfold getWindowSize. preserves_auto. Qed.

Lemma moveCursor_untouched (key : Z) : preserves terminal_untouched (moveCursor key).
Proof. unfold moveCursor. preserves_auto. Qed.

Hint Resolve getWindowSize_untouched moveCursor_untouched : frames.

Lemma initEditor_untouched : preserves terminal_untouched initEditor.
Proof. unfold initEditor. preserves_auto. Qed.

Lemma main_loop_untouched (fuel : nat) : preserves terminal_untouched (main_loop fuel).
Proof. induction fuel as [ | fuel IH]; cbn [main_loop]; preserves_auto. Qed.

Lemma printKeyInfo_untouched (c : Z) :
  preserves terminal_untouched (KeyPrinter.printKeyInfo c).
Proof. unfold KeyPrinter.printKeyInfo. preserves_auto. Qed.

Hint Resolve initEditor_untouched main_loop_untouched printKeyInfo_untouched : frames.

Lemma key_printer_loop_untouched (fuel : nat) :
  preserves terminal_untouched (KeyPrinter.main_loop fuel).
Proof. induction fuel as [ | fuel IH]; cbn [KeyPrinter.main_loop]; preserves_auto. Qed.

Hint Resolve key_printer_loop_untouched : frames.

(** What [enableRawMode] does when the attribute calls succeed. *)
Lemma enableRawMode_ok (w : world) :
  tc_faults w = [] ->
  enableRawMode w =
    Ret tt (set_tty (raw_of (tty w)) (set_atexit true (set_orig_termios (tty w) w))).
Proof.
  intros Hf. unfold enableRawMode, bind, tcgetattr_orig, tcsetattr, modify, get, ret.
  rewrite Hf. cbn. destruct w; cbn in *; subst; reflexivity.
Qed.

Lemma disableRawMode_ok (w : world) :
  tc_faults w = [] ->
  disableRawMode w = Ret tt (set_tty (orig_termios w) w).
Proof.
  intros Hf. unfold disableRawMode, bind, tcsetattr, get, ret.
  rewrite Hf. cbn. destruct w; cbn in *; subst; reflexivity.
Qed.

(** The handlers of [exit], run in a world where raw mode was entered
    from attributes [t] and the terminal was left alone since. *)
Lemma atexit_restores (body : M Z) (w : world) (t : termios) :
  preserves terminal_untouched body ->
  tc_faults w = [] -> atexit_disableRawMode w = true -> orig_termios w = t ->
  match process body w with
  | Exit _ w' => tty w' = t /\ orig_termios w' = t
  | Hang w' => tty w' = tty w /\ orig_termios w' = t
  | Ret _ _ => False
  end.
Proof.
  intros Hbody Hf Hreg Horig. unfold process.
  specialize (Hbody w). destruct Hbody as (Htty & Hfaults & Hsnap & Hat).
  assert (Hexit : forall w', tc_faults w' = [] -> atexit_disableRawMode w' = true ->
                    orig_termios w' = t ->
                    run_atexit w' = Ret tt (set_tty t w')).
  { intros w' H1 H2 H3. unfold run_atexit, bind, get. rewrite H2.
    rewrite disableRawMode_ok by exact H1. rewrite H3. reflexivity. }
  destruct (body w) as [a w' | s w' | w']; cbn in *.
  - rewrite Hexit by congruence. cbn. split; [reflexivity | congruence].
  - rewrite Hexit by congruence. cbn. split; [reflexivity | congruence].
  - split; congruence.
Qed.

Lemma process_after_enable (rest : M Z) (w : world) :
  tc_faults w = [] ->
  preserves terminal_untouched rest ->
  match process (enableRawMode ;; rest) w with
  | Exit _ w' => tty w' = tty w /\ orig_termios w' = tty w
  | Hang w' => tty w' = raw_of (tty w) /\ orig_termios w' = tty w
  | Ret _ _ => False
  end.
Proof.
  intros Hf Hrest.
  pose proof (atexit_restores rest
                (set_tty (raw_of (tty w)) (set_atexit true (set_orig_termios (tty w) w)))
                (tty w) Hrest) as H.
  unfold process in *. unfold bind at 1. rewrite enableRawMode_ok by exact Hf.
  apply H; [exact Hf | reflexivity | reflexivity].
Qed.

(** C6.  When the attribute calls succeed: [enableRawMode] captures the
    attributes in force into [orig_termios] and applies [raw_of] them;
    [disableRawMode] then puts back exactly the captured attributes, and
    the snapshot is still the captured one.  Nothing the two programs do
    between the capture and the end touches the snapshot (or the
    attributes in force): whenever either program ends, through [return]
    or through [die], the terminal has its original attributes again,
    and while it waits for input the snapshot is intact.  For the
    editor this is stated for the runs in which the extent [initEditor]
    obtains has no negative number of columns: a negative one is handed
    to [abAppend] as a length, which the C code passes on to [memcpy];
    that run is outside what the embedding describes.  The key printer
    draws nothing and needs no such condition. *)
Theorem snapshot_round_trip (w : world) :
  tc_faults w = [] ->
  (exists w1 : world,
     enableRawMode w = Ret tt w1
     /\ orig_termios w1 = tty w
     /\ tty w1 = raw_of (tty w)
     /\ exists w2 : world,
          disableRawMode w1 = Ret tt w2
          /\ tty w2 = tty w
          /\ orig_termios w2 = tty w)
  /\ (preserves terminal_untouched initEditor
      /\ (forall fuel, preserves terminal_untouched (main_loop fuel))
      /\ (forall fuel, preserves terminal_untouched (KeyPrinter.main_loop fuel)))
  /\ ((forall w1 : world,
         (enableRawMode ;; initEditor) w = Ret tt w1 -> 0 <= screencols (E w1)) ->
      match run w with
      | Exit _ w' => tty w' = tty w /\ orig_termios w' = tty w
      | Hang w' => tty w' = raw_of (tty w) /\ orig_termios w' = tty w
      | Ret _ _ => False
      end)
  /\ match KeyPrinter.run w with
     | Exit _ w' => tty w' = tty w /\ orig_termios w' = tty w
     | Hang w' => tty w' = raw_of (tty w) /\ orig_termios w' = tty w
     | Ret _ _ => False
     end.
Proof.
  intros Hf. split; [ | split; [ | split]].
  - eexists. split; [apply enableRawMode_ok; exact Hf | ].
    split; [reflexivity | ]. split; [reflexivity | ].
    eexists. split; [apply disableRawMode_ok; exact Hf | ].
    split; reflexivity.
  - split; [apply initEditor_untouched | ].
    split; [apply main_loop_untouched | apply key_printer_loop_untouched].
  - intros _. apply process_after_enable; [exact Hf | ]. preserves_auto.
  - apply process_after_enable; [exact Hf | ]. preserves_auto.
Qed.

End SnapshotFacts.

(** A terminal in line mode, a 24 x 80 window, and the key [q]: the
    editor ends with status 0 and the terminal is in line mode again. *)
Lemma snapshot_round_trip_witness :
  match run (P := linux_x86_64) (boot (P := linux_x86_64) cooked (Some (24, 80)) [Byte "q"]) with
  | Exit status w' => status = 0 /\ tty w' = cooked /\ orig_termios w' = cooked
  | _ => False
  end.
Proof.
  destruct (snapshot_round_trip (P := linux_x86_64)
              (boot (P := linux_x86_64) cooked (Some (24, 80)) [Byte "q"]) eq_refl)
    as (_ & _ & Hrun & _).
  assert (Hcols : forall w1 : world,
             (enableRawMode (P := linux_x86_64) ;; initEditor (P := linux_x86_64))
               (boot (P := linux_x86_64) cooked (Some (24, 80)) [Byte "q"]) = Ret tt w1 ->
             0 <= screencols (E w1)).
  { intros w1 Hinit. vm_compute in Hinit. injection Hinit as <-. cbn. lia. }
  specialize (Hrun Hcols).
  revert Hrun.
  generalize (eq_refl (run (P := linux_x86_64)
                         (boot (P := linux_x86_64) cooked (Some (24, 80)) [Byte "q"]))).
  generalize (run (P := linux_x86_64)
                (boot (P := linux_x86_64) cooked (Some (24, 80)) [Byte "q"])) at 1 3 4.
  intros r Hr. destruct r as [a w' | s w' | w']; intros H.
  - exact H.
  - destruct H as [H1 H2]. split; [ | split; assumption].
    assert (Hs : match run (P := linux_x86_64)
                         (boot (P := linux_x86_64) cooked (Some (24, 80)) [Byte "q"])
                 with Exit s' _ => s' | _ => 0 end = 0) by (vm_compute; reflexivity).
    rewrite <- Hr in Hs. exact Hs.
  - exfalso.
    assert (Hs : match run (P := linux_x86_64)
                         (boot (P := linux_x86_64) cooked (Some (24, 80)) [Byte "q"])
                 with Hang _ => false | _ => true end = true) by (vm_compute; reflexivity).
    rewrite <- Hr in Hs. discriminate Hs.
Defined.

(** ** Characters *)

Lemma lit_bounds (c : ascii) : 0 <= lit c < 256.
Proof.
  unfold lit. pose proof (N_ascii_bounded c). lia.
Qed.

Lemma lit_inj (c c' : ascii) : lit c = lit c' -> c = c'.
Proof.
  unfold lit. intros H. apply N2Z.inj in H.
  rewrite <- (ascii_N_embedding c), <- (ascii_N_embedding c'), H. reflexivity.
Qed.

Lemma lit_eqb (c c' : ascii) : (lit c =? lit c') = Ascii.eqb c c'.
Proof.
  destruct (Ascii.eqb_spec c c') as [-> | Hne].
  - apply Z.eqb_refl.
  - apply Z.eqb_neq. intros H. apply Hne, lit_inj, H.
Qed.

Section KeyFacts.

Context `{P : platform}.

(** A comparison with a 7-bit character constant does not depend on the
    signedness of [char]. *)
Lemma int_of_char_eqb (c k : ascii) :
  lit k < 128 -> (int_of_char c =? lit k) = Ascii.eqb c k.
Proof.
  intros Hk. rewrite <- lit_eqb. unfold int_of_char. cbv zeta.
  pose proof (lit_bounds c). pose proof (lit_bounds k).
  destruct (Z.leb_spec 128 (lit c)); cbn [andb]; [ | reflexivity].
  destruct char_signed; [ | reflexivity].
  transitivity false; [ | symmetry ]; apply Z.eqb_neq; lia.
Qed.

Lemma int_of_char_digit (c : ascii) :
  (lit "0" <=? int_of_char c) && (int_of_char c <=? lit "9") = isdigit c.
Proof.
  unfold isdigit, int_of_char. cbv zeta.
  pose proof (lit_bounds c).
  destruct (Z.leb_spec 128 (lit c)); cbn [andb]; [ | reflexivity].
  destruct char_signed; [ | reflexivity].
  change (lit "0") with 48. change (lit "9") with 57.
  transitivity false; [ | symmetry ]; apply andb_false_iff.
  - left. apply Z.leb_gt. lia.
  - right. apply Z.leb_gt. lia.
Qed.

(** The first loop of [readKey] skips the reads it retries. *)
Lemma read_byte_skips (pre rest : list read_event) (c : ascii) (w : world) :
  Forall retried pre ->
  read_byte (length (pre ++ Byte c :: rest)) (feed (pre ++ Byte c :: rest) w) =
    Ret c (feed rest w).
Proof.
  intros Hpre. induction Hpre as [ | ev pre Hev _ IH].
  - reflexivity.
  - cbn [app length read_byte]. unfold bind at 1. cbn [read feed set_stdin stdin].
    destruct Hev as [-> | ->].
    + exact IH.
    + rewrite Z.eqb_refl. cbn [negb]. exact IH.
Qed.

(** [readKey] from the [ESC] byte on. *)
Lemma readKey_escape (pre rest : list read_event) (w : world) :
  Forall retried pre ->
  readKey (feed (pre ++ Byte ESC :: rest) w) =
    Ret (fst (escape_key rest)) (feed (snd (escape_key rest)) w).
Proof.
  intros Hpre. unfold readKey. unfold bind at 1. cbn [get feed set_stdin stdin].
  unfold bind at 1.
  change (set_stdin (pre ++ Byte ESC :: rest) w) with (feed (pre ++ Byte ESC :: rest) w).
  rewrite read_byte_skips by exact Hpre.
  rewrite int_of_char_eqb by (vm_compute; reflexivity). cbn [Ascii.eqb Bool.eqb ESC].
  destruct rest as [ | [seq0 | | e0] rest]; try reflexivity.
  destruct rest as [ | [seq1 | | e1] rest]; try reflexivity.
  unfold bind at 1. cbn [read feed set_stdin stdin].
  unfold bind at 1. cbn [read feed set_stdin stdin].
  rewrite !int_of_char_eqb by (vm_compute; reflexivity). rewrite int_of_char_digit.
  cbn [escape_key].
  destruct (Ascii.eqb seq0 "[").
  - destruct (isdigit seq1).
    + destruct rest as [ | [seq2 | | e2] rest]; try reflexivity.
      unfold bind at 1. cbn [read feed set_stdin stdin].
      rewrite int_of_char_eqb by (vm_compute; reflexivity).
      destruct (Ascii.eqb seq2 "~"); [ | reflexivity].
      repeat match goal with
             | |- context [Ascii.eqb seq1 ?k] => destruct (Ascii.eqb seq1 k); [reflexivity | ]
             end.
      reflexivity.
    + repeat match goal with
             | |- context [Ascii.eqb seq1 ?k] => destruct (Ascii.eqb seq1 k); [reflexivity | ]
             end.
      reflexivity.
  - destruct (Ascii.eqb seq0 "O"); [ | reflexivity].
    repeat match goal with
           | |- context [Ascii.eqb seq1 ?k] => destruct (Ascii.eqb seq1 k); [reflexivity | ]
           end.
    reflexivity.
Qed.

Lemma readKey_escape_now (rest : list read_event) (w : world) :
  readKey (feed (Byte ESC :: rest) w) =
    Ret (fst (escape_key rest)) (feed (snd (escape_key rest)) w).
Proof. apply (readKey_escape [] rest w). constructor. Qed.

(** C2.  [readKey] decodes the escape sequences as the tables say: each
    sequence of [escape_table] yields its key and uses up exactly its
    bytes ([ESC [ d ~] gives Home for 1 and 7, Delete for 3, End for 4
    and 8, PageUp for 5, PageDown for 6; [ESC [ A/B/C/D/H/F] give Up,
    Down, Right, Left, Home, End; [ESC O H] and [ESC O F] give Home and
    End); a digit after [ESC [] with any other terminator, any other
    digit before [~], or no terminator at all, yields the bare Escape. *)
Theorem readKey_escape_tables :
  Forall (fun entry : string * Z =>
            forall (w : world) (rest : list read_event),
              readKey (feed (Byte ESC :: keys (str (fst entry)) ++ rest) w) =
                Ret (snd entry) (feed rest w))
         escape_table
  /\ (forall (d t : ascii) (w : world) (rest : list read_event),
        isdigit d = true ->
        t <> "~"%char \/ In d ["0"; "2"; "9"]%char ->
        readKey (feed (Byte ESC :: Byte "[" :: Byte d :: Byte t :: rest) w) =
          Ret KEY_ESC (feed rest w))
  /\ (forall (d : ascii) (ev : read_event) (w : world) (rest : list read_event),
        isdigit d = true ->
        (forall c, ev <> Byte c) ->
        readKey (feed (Byte ESC :: Byte "[" :: Byte d :: ev :: rest) w) =
          Ret KEY_ESC (feed rest w))
  /\ (forall (d : ascii) (w : world),
        isdigit d = true ->
        readKey (feed [Byte ESC; Byte "["; Byte d] w) = Ret KEY_ESC (feed [] w)).
Proof.
  split; [ | split; [ | split]].
  - repeat constructor; intros w rest; cbn [fst snd];
      rewrite readKey_escape_now; reflexivity.
  - intros d t w rest Hd Hother.
    rewrite readKey_escape_now.
    cbn [escape_key]. change (Ascii.eqb "[" "[") with true. cbv iota.
    rewrite Hd.
    destruct (Ascii.eqb_spec t "~") as [-> | Hne]; [ | reflexivity].
    destruct Hother as [Ht | Hin]; [congruence | ].
    cbn [In] in Hin.
    destruct Hin as [<- | [<- | [<- | []]]]; reflexivity.
  - intros d ev w rest Hd Hev.
    rewrite readKey_escape_now.
    cbn [escape_key]. change (Ascii.eqb "[" "[") with true. cbv iota.
    rewrite Hd.
    destruct ev as [c | | e]; [exfalso; apply (Hev c); reflexivity | | ]; reflexivity.
  - intros d w Hd.
    rewrite readKey_escape_now.
    cbn [escape_key]. change (Ascii.eqb "[" "[") with true. cbv iota.
    rewrite Hd. reflexivity.
Qed.

(** Outside the tables the decoder answers [KEY_ESC]. *)
Lemma escape_key_unrecognized (rest : list read_event) :
  recognized rest = false -> fst (escape_key rest) = KEY_ESC.
Proof.
  intros H.
  destruct rest as [ | [seq0 | | e0] rest]; try reflexivity.
  destruct rest as [ | [seq1 | | e1] rest]; try reflexivity.
  cbn [escape_key].
  destruct (Ascii.eqb_spec seq0 "[") as [-> | _].
  - destruct (isdigit seq1) eqn:Hd.
    + destruct rest as [ | [seq2 | | e2] rest]; try reflexivity.
      destruct (Ascii.eqb_spec seq2 "~") as [-> | _]; [ | reflexivity].
      repeat match goal with
             | |- context [Ascii.eqb seq1 ?k] =>
                 destruct (Ascii.eqb_spec seq1 k) as [-> | _];
                 [exfalso; vm_compute in H; discriminate H | ]
             end.
      reflexivity.
    + repeat match goal with
             | |- context [Ascii.eqb seq1 ?k] =>
                 destruct (Ascii.eqb_spec seq1 k) as [-> | _];
                 [exfalso; vm_compute in H; discriminate H | ]
             end.
      reflexivity.
  - destruct (Ascii.eqb_spec seq0 "O") as [-> | _]; [ | reflexivity].
    repeat match goal with
           | |- context [Ascii.eqb seq1 ?k] =>
               destruct (Ascii.eqb_spec seq1 k) as [-> | _];
               [exfalso; vm_compute in H; discriminate H | ]
           end.
    reflexivity.
Qed.

(** The decoder uses at most three reads behind [ESC], from the front. *)
Lemma escape_key_consumes (rest : list read_event) :
  exists used : list read_event,
    rest = used ++ snd (escape_key rest) /\ (length used <= 3)%nat.
Proof.
  assert (H0 : forall l : list read_event, exists used,
               l = used ++ l /\ (length used <= 3)%nat)
    by (intros l; exists []; split; [reflexivity | cbn; lia]).
  assert (H1 : forall a (l : list read_event), exists used,
               a :: l = used ++ l /\ (length used <= 3)%nat)
    by (intros a l; exists [a]; split; [reflexivity | cbn; lia]).
  assert (H2 : forall a a' (l : list read_event), exists used,
               a :: a' :: l = used ++ l /\ (length used <= 3)%nat)
    by (intros a a' l; exists [a; a']; split; [reflexivity | cbn; lia]).
  assert (H3 : forall a a' a'' (l : list read_event), exists used,
               a :: a' :: a'' :: l = used ++ l /\ (length used <= 3)%nat)
    by (intros a a' a'' l; exists [a; a'; a'']; split; [reflexivity | cbn; lia]).
  destruct rest as [ | [seq0 | | e0] rest]; cbn [escape_key snd]; auto.
  destruct rest as [ | [seq1 | | e1] rest]; cbn [escape_key snd]; auto.
  destruct (Ascii.eqb seq0 "["); [ | destruct (Ascii.eqb seq0 "O"); cbn [snd]; auto].
  destruct (isdigit seq1); cbn [snd]; auto.
  destruct rest as [ | [seq2 | | e2] rest]; cbn [snd]; auto.
  destruct (Ascii.eqb seq2 "~"); cbn [snd]; auto.
Qed.

(** C4.  Once the [ESC] byte has arrived (after any number of retried
    reads), [readKey] returns: it neither hangs nor exits.  When no byte
    follows (the next read times out or fails, or the input is over), and
    when what follows is not a sequence of the tables, the value
    returned is the Escape key, and at most three reads behind [ESC] are
    used up. *)
Theorem readKey_escape_fallback (pre rest : list read_event) (w : world) :
  Forall retried pre ->
  (exists (key : Z) (rest' : list read_event),
     readKey (feed (pre ++ Byte ESC :: rest) w) = Ret key (feed rest' w))
  /\ (rest = [] ->
      readKey (feed (pre ++ Byte ESC :: rest) w) = Ret KEY_ESC (feed [] w))
  /\ (forall ev rest0, rest = ev :: rest0 -> (forall c, ev <> Byte c) ->
      readKey (feed (pre ++ Byte ESC :: rest) w) = Ret KEY_ESC (feed rest0 w))
  /\ (recognized rest = false ->
      exists used rest' : list read_event,
        rest = used ++ rest' /\ (length used <= 3)%nat
        /\ readKey (feed (pre ++ Byte ESC :: rest) w) = Ret KEY_ESC (feed rest' w)).
Proof.
  intros Hpre. rewrite (readKey_escape pre rest w Hpre).
  split; [ | split; [ | split]].
  - eexists _, _. reflexivity.
  - intros ->. reflexivity.
  - intros ev rest0 -> Hev.
    destruct ev as [c | | e]; [exfalso; apply (Hev c); reflexivity | | ]; reflexivity.
  - intros Hrec. destruct (escape_key_consumes rest) as (used & Hused & Hlen).
    exists used, (snd (escape_key rest)).
    split; [exact Hused | ]. split; [exact Hlen | ].
    rewrite (escape_key_unrecognized rest Hrec). reflexivity.
Qed.

End KeyFacts.

(** [ESC [ 2 ~] (the Insert key of many terminals) is a bare Escape. *)
Lemma readKey_escape_tables_witness :
  readKey (P := linux_x86_64)
    (feed [Byte ESC; Byte "["; Byte "2"; Byte "~"; Byte "x"]
       (at_loop (P := linux_x86_64) 24 80 [])) =
  Ret KEY_ESC (feed [Byte "x"] (at_loop (P := linux_x86_64) 24 80 [])).
Proof.
  destruct (readKey_escape_tables (P := linux_x86_64)) as (_ & Hother & _).
  apply Hother.
  - reflexivity.
  - right. cbn. tauto.
Defined.

(** A lone [ESC] after two timeouts, then nothing: the Escape key.  And
    [ESC [ Z], which no table lists: the Escape key as well. *)
Lemma readKey_escape_fallback_witness :
  readKey (P := linux_x86_64)
    (feed [Timeout; Timeout; Byte ESC; Timeout; Byte "a"]
       (at_loop (P := linux_x86_64) 24 80 [])) =
    Ret KEY_ESC (feed [Byte "a"] (at_loop (P := linux_x86_64) 24 80 []))
  /\ exists used rest',
       [Byte "["; Byte "Z"; Byte "a"] = used ++ rest' /\ (length used <= 3)%nat
       /\ readKey (P := linux_x86_64)
            (feed [Byte ESC; Byte "["; Byte "Z"; Byte "a"]
               (at_loop (P := linux_x86_64) 24 80 [])) =
          Ret KEY_ESC (feed rest' (at_loop (P := linux_x86_64) 24 80 [])).
Proof.
  split.
  - destruct (readKey_escape_fallback (P := linux_x86_64)
                [Timeout; Timeout] [Timeout; Byte "a"]
                (at_loop (P := linux_x86_64) 24 80 []))
      as (_ & _ & Hshort & _).
    + repeat constructor.
    + apply (Hshort Timeout [Byte "a"] eq_refl). intros c. discriminate.
  - destruct (readKey_escape_fallback (P := linux_x86_64)
                [] [Byte "["; Byte "Z"; Byte "a"]
                (at_loop (P := linux_x86_64) 24 80 []))
      as (_ & _ & _ & Hother).
    + constructor.
    + apply Hother. reflexivity.
Defined.

(** ** The append buffer *)

Lemma wrap32_add_l (x y : Z) : wrap32 (wrap32 x + y) = wrap32 (x + y).
Proof.
  unfold wrap32.
  replace ((x + 2 ^ 31) mod 2 ^ 32 - 2 ^ 31 + y + 2 ^ 31)
    with ((x + 2 ^ 31) mod 2 ^ 32 + y) by lia.
  rewrite Z.add_mod_idemp_l by lia.
  replace (x + 2 ^ 31 + y) with (x + y + 2 ^ 31) by lia. reflexivity.
Qed.

Lemma wrap32_idem (x : Z) : wrap32 (wrap32 x) = wrap32 x.
Proof.
  pose proof (wrap32_add_l x 0) as H. rewrite !Z.add_0_r in H. exact H.
Qed.

Lemma appended_nil (ab : appendBuffer) : appended ab ab [].
Proof.
  split; [symmetry; apply app_nil_r | ].
  cbn. rewrite Z.add_0_r. reflexivity.
Qed.

Lemma appended_app (ab ab1 ab2 : appendBuffer) (x y : list ascii) :
  appended ab ab1 x -> appended ab1 ab2 y -> appended ab ab2 (x ++ y).
Proof.
  intros [Hb1 Hl1] [Hb2 Hl2]. split.
  - rewrite Hb2, Hb1, app_assoc. reflexivity.
  - rewrite Hl2, <- wrap32_add_l, Hl1, wrap32_add_l, length_app. f_equal. lia.
Qed.

Lemma appended_push (ab : appendBuffer) (s : list ascii) (n : Z) :
  0 <= n <= Z.of_nat (length s) ->
  appended ab (push ab s n) (take (Z.to_nat n) s).
Proof.
  intros Hn. split; [reflexivity | ].
  cbn. rewrite wrap32_idem, length_take. f_equal. lia.
Qed.

(** Adding the whole of a string. *)
Lemma appended_push_all (ab : appendBuffer) (s : list ascii) (n : Z) :
  n = Z.of_nat (length s) -> appended ab (push ab s n) s.
Proof.
  intros Hn. rewrite <- (firstn_all s) at 2.
  replace (length s) with (Z.to_nat n) by lia.
  apply appended_push. lia.
Qed.

Lemma abAppend_ok (ab : appendBuffer) (s : list ascii) (n : Z) (w : world) :
  heap_faults w = [] -> abAppend ab s n w = Ret (push ab s n) w.
Proof.
  intros Hh. unfold abAppend, bind, realloc. rewrite Hh. cbn.
  rewrite <- Hh, set_heap_faults_same. reflexivity.
Qed.

(** One step of a computation on a world without heap faults. *)
Lemma bind_abAppend {B : Type} (ab : appendBuffer) (s : list ascii) (n : Z)
    (k : appendBuffer -> M B) (w : world) :
  heap_faults w = [] ->
  (ab' <- abAppend ab s n ;; k ab') w = k (push ab s n) w.
Proof. intros Hh. unfold bind. rewrite abAppend_ok by exact Hh. reflexivity. Qed.

Lemma pad_loop_ok (n : nat) (ab : appendBuffer) (w : world) :
  heap_faults w = [] ->
  Z.of_nat n < 2 ^ 31 ->
  exists ab' : appendBuffer,
    pad_loop n (Z.of_nat n) ab w = Ret ab' w
    /\ appended ab ab' (replicate n " "%char).
Proof.
  intros Hh. revert ab. induction n as [ | n IH]; intros ab Hn.
  - exists ab. split; [reflexivity | apply appended_nil].
  - cbn [pad_loop].
    replace (Z.of_nat (S n) =? 0) with false by (symmetry; apply Z.eqb_neq; lia).
    rewrite bind_abAppend by exact Hh.
    replace (wrap32 (Z.of_nat (S n) - 1)) with (Z.of_nat n)
      by (rewrite wrap32_small; unfold int_range; lia).
    destruct (IH (push ab (str " ") 1)) as (ab' & Hrun & Happ); [lia | ].
    exists ab'. split; [exact Hrun | ].
    change (replicate (S n) " "%char) with ([" "%char] ++ replicate n " "%char).
    eapply appended_app; [ | exact Happ].
    apply (appended_push_all ab (str " ") 1). reflexivity.
Qed.

(** ** The welcome banner *)

Lemma margin_length (p : Z) : 0 <= p -> Z.of_nat (length (margin p)) = p.
Proof.
  intros Hp. unfold margin. destruct (Z.eqb_spec p 0) as [-> | Hne].
  - reflexivity.
  - cbn [length]. rewrite length_replicate. lia.
Qed.

(** The padding [drawWelcome] computes is never negative. *)
Lemma padding_nonneg (cols welcomelen : Z) :
  int_range cols -> 0 <= welcomelen < 2 ^ 31 ->
  0 <= Z.quot (wrap32 (cols - (if welcomelen >? cols then cols else welcomelen))) 2.
Proof.
  unfold int_range. intros Hc Hl.
  destruct (Z.gtb_spec welcomelen cols).
  - rewrite Z.sub_diag, wrap32_small by (unfold int_range; lia).
    apply Z.quot_pos; lia.
  - rewrite wrap32_small by (unfold int_range; lia).
    apply Z.quot_pos; lia.
Qed.

Section BannerFacts.

Context `{P : platform}.

(** [drawWelcome_of] on a world without heap faults, as long as the
    clipped length stays within the 80 bytes of the array [welcome]. *)
Lemma drawWelcome_of_ok (text : list ascii) (ab : appendBuffer) (w : world) :
  heap_faults w = [] ->
  0 <= screencols (E w) -> int_range (screencols (E w)) ->
  Z.of_nat (length text) < 2 ^ 31 ->
  Z.min (Z.of_nat (length text)) (screencols (E w)) <= 80 ->
  exists ab' : appendBuffer,
    drawWelcome_of text ab w = Ret ab' w
    /\ appended ab ab' (welcome_bytes text (screencols (E w))).
Proof.
  intros Hh Hc0 Hc HL H80.
  unfold drawWelcome_of. unfold bind at 1. cbn [get]. unfold snprintf. cbv zeta beta iota.
  set (L := Z.of_nat (length text)) in *. set (cols := screencols (E w)) in *.
  replace (if L >? cols then cols else L) with (Z.min L cols)
    by (destruct (Z.gtb_spec L cols); lia).
  assert (HLnn : 0 <= L) by (subst L; lia).
  unfold int_range in Hc.
  rewrite (wrap32_small (cols - Z.min L cols)) by (unfold int_range; lia).
  rewrite Z.quot_div_nonneg by lia.
  unfold welcome_bytes, margin. fold L.
  set (p := (cols - Z.min L cols) / 2).
  assert (Hp : 0 <= p < 2 ^ 31).
  { subst p. split; [apply Z.div_pos; lia | apply Z.div_lt_upper_bound; lia]. }
  assert (Hwl : 0 <= Z.min L cols <= Z.of_nat (length (take (Nat.pred 80) text ++ [NUL]))).
  { rewrite length_app, length_take. cbn [length Nat.pred]. lia. }
  destruct (Z.eqb_spec p 0) as [Hp0 | Hp0]; cbn [negb].
  - unfold bind at 1. cbn [ret]. rewrite Hp0. change (Z.to_nat 0) with 0%nat.
    unfold bind at 1. cbn [pad_loop ret]. rewrite abAppend_ok by exact Hh.
    eexists. split; [reflexivity | ]. cbn [app]. apply appended_push. exact Hwl.
  - unfold bind at 1. unfold bind at 1. rewrite abAppend_ok by exact Hh. cbn [ret].
    rewrite wrap32_small by (unfold int_range; lia).
    destruct (pad_loop_ok (Z.to_nat (p - 1)) (push ab (str "~") 1) w Hh)
      as (ab1 & Hrun & Happ); [lia | ].
    rewrite Z2Nat.id in Hrun by lia.
    unfold bind at 1. rewrite Hrun. rewrite abAppend_ok by exact Hh.
    eexists. split; [reflexivity | ].
    change (("~"%char :: replicate (Z.to_nat (p - 1)) " "%char)
              ++ take (Z.to_nat (Z.min L cols)) (take 79 text ++ [NUL]))
      with (["~"%char] ++ (replicate (Z.to_nat (p - 1)) " "%char
              ++ take (Z.to_nat (Z.min L cols)) (take 79 text ++ [NUL]))).
    eapply appended_app;
      [apply (appended_push_all ab (str "~") 1); reflexivity | ].
    eapply appended_app; [exact Happ | apply appended_push; exact Hwl].
Qed.


(** C8.  On a screen of [cols >= 0] columns [drawWelcome] adds a margin
    and the first [min cols 28] bytes of the banner: together at most
    [cols] bytes; and when the banner has at least [cols] bytes there is
    no margin and exactly [cols] bytes of it are added.  For any banner
    text of at least [cols] bytes on a screen of at most 80 columns, the
    bytes added are exactly the first [cols] bytes of the array
    [welcome], which holds 79 bytes of the text and the [NUL] that ends
    it: with 80 columns and a text of more than 80 bytes, exactly 80
    bytes. *)
Theorem drawWelcome_clipped (ab : appendBuffer) (w : world) :
  heap_faults w = [] ->
  0 <= screencols (E w) ->
  int_range (screencols (E w)) ->
  let cols := screencols (E w) in
  (exists (pad shown : list ascii) (ab' : appendBuffer),
     drawWelcome ab w = Ret ab' w
     /\ b ab' = b ab ++ pad ++ shown
     /\ shown = take (Z.to_nat cols) welcome_text
     /\ pad = margin ((cols - Z.of_nat (length shown)) / 2)
     /\ Z.of_nat (length (pad ++ shown)) <= cols
     /\ (cols <= Z.of_nat (length welcome_text) ->
         pad = [] /\ Z.of_nat (length shown) = cols))
  /\ (forall text : list ascii,
        cols <= Z.of_nat (length text) < 2 ^ 31 ->
        cols <= 80 ->
        exists (shown : list ascii) (ab' : appendBuffer),
          drawWelcome_of text ab w = Ret ab' w
          /\ b ab' = b ab ++ shown
          /\ shown = take (Z.to_nat cols) (take 79 text ++ [NUL])
          /\ Z.of_nat (length shown) = cols).
Proof.
  intros Hh Hpos Hc cols. split.
  - destruct (drawWelcome_of_ok welcome_text ab w Hh) as (ab' & Hrun & [Hb _]);
      [lia | exact Hc | cbn; lia | cbn; lia | ].
    fold cols in Hb. unfold welcome_bytes in Hb.
    change (Z.of_nat (length welcome_text)) with 28 in *.
    assert (Hshown : take (Z.to_nat (Z.min 28 cols)) (take 79 welcome_text ++ [NUL])
                     = take (Z.to_nat cols) welcome_text).
    { rewrite (take_ge welcome_text 79) by (cbn; lia).
      rewrite take_app_le by (change (length welcome_text) with 28%nat; lia).
      destruct (Z.le_ge_cases cols 28).
      - rewrite Z.min_r by lia. reflexivity.
      - rewrite Z.min_l by lia.
        rewrite !take_ge by (change (length welcome_text) with 28%nat; lia).
        reflexivity. }
    rewrite Hshown in Hb.
    assert (Hlen : Z.of_nat (length (take (Z.to_nat cols) welcome_text)) = Z.min 28 cols).
    { rewrite length_take. change (length welcome_text) with 28%nat. lia. }
    exists (margin ((cols - Z.min 28 cols) / 2)), (take (Z.to_nat cols) welcome_text), ab'.
    split; [exact Hrun | ]. split; [exact Hb | ]. split; [reflexivity | ].
    rewrite Hlen. split; [reflexivity | ].
    assert (Hp : 0 <= (cols - Z.min 28 cols) / 2 <= cols - Z.min 28 cols).
    { split; [apply Z.div_pos; lia | ].
      apply Z.div_le_upper_bound; lia. }
    split.
    + rewrite length_app, Nat2Z.inj_add, margin_length, Hlen by lia. lia.
    + intros Hle. rewrite Z.min_r by lia. rewrite Z.sub_diag. split; [reflexivity | lia].
  - intros text Htext H80.
    destruct (drawWelcome_of_ok text ab w Hh) as (ab' & Hrun & [Hb _]);
      [lia | exact Hc | lia | fold cols; lia | ].
    fold cols in Hb. unfold welcome_bytes in Hb.
    rewrite Z.min_r, Z.sub_diag in Hb by lia. cbn [Z.div margin Z.eqb app] in Hb.
    change (margin (0 / 2)) with (@nil ascii) in Hb. cbn [app] in Hb.
    eexists _, ab'. split; [exact Hrun | ]. split; [exact Hb | ].
    split; [reflexivity | ].
    rewrite length_take, length_app, length_take. cbn [length]. lia.
Qed.

End BannerFacts.

(** The scenario of the specification: 24 x 80 and a banner of 100
    bytes; exactly 80 bytes are added. *)
Lemma drawWelcome_clipped_witness :
  exists (shown : list ascii) (ab' : appendBuffer),
    drawWelcome_of (replicate 100 "x"%char) AB_INIT (at_loop (P := linux_x86_64) 24 80 []) =
      Ret ab' (at_loop (P := linux_x86_64) 24 80 [])
    /\ b ab' = shown
    /\ length shown = 80%nat.
Proof.
  destruct (drawWelcome_clipped AB_INIT (at_loop (P := linux_x86_64) 24 80 []))
    as [_ Hany].
  - reflexivity.
  - cbn. lia.
  - unfold int_range. cbn. lia.
  - destruct (Hany (replicate 100 "x"%char)) as (shown & ab' & Hrun & Hb & _ & Hlen).
    + cbn. lia.
    + cbn. lia.
    + exists shown, ab'. split; [exact Hrun | ]. split; [exact Hb | ].
      cbn in Hlen. lia.
Defined.

(** ** Decimal output *)

Lemma digits_length (fuel : nat) (n : Z) (acc : list ascii) :
  (length (digits fuel n acc) <= fuel + length acc)%nat.
Proof.
  revert n acc. induction fuel as [ | fuel IH]; intros n acc; cbn [digits].
  - lia.
  - destruct (n / 10 =? 0); cbn [length]; [lia | ].
    etrans; [apply IH | ]. cbn [length]. lia.
Qed.

Lemma dec_length (z : Z) : (length (dec z) <= 11)%nat.
Proof.
  unfold dec. destruct (z <? 0); cbn [length].
  - pose proof (digits_length 10 (- z) []). cbn [length] in *. lia.
  - pose proof (digits_length 10 z []). cbn [length] in *. lia.
Qed.

Lemma digit_char_not_nul (d : Z) : 0 <= d < 10 -> digit_char d <> NUL.
Proof.
  intros Hd.
  assert (Hcases : d = 0 \/ d = 1 \/ d = 2 \/ d = 3 \/ d = 4 \/ d = 5 \/ d = 6
                   \/ d = 7 \/ d = 8 \/ d = 9) by lia.
  repeat destruct Hcases as [-> | Hcases]; try discriminate.
  subst d. discriminate.
Qed.

Lemma digits_not_nul (fuel : nat) (n : Z) (acc : list ascii) :
  Forall (fun c => c <> NUL) acc -> Forall (fun c => c <> NUL) (digits fuel n acc).
Proof.
  revert n acc. induction fuel as [ | fuel IH]; intros n acc Hacc; cbn [digits].
  - exact Hacc.
  - assert (Hd : digit_char (n mod 10) <> NUL)
      by (apply digit_char_not_nul, Z.mod_pos_bound; lia).
    destruct (n / 10 =? 0).
    + constructor; assumption.
    + apply IH. constructor; assumption.
Qed.

Lemma dec_not_nul (z : Z) : Forall (fun c => c <> NUL) (dec z).
Proof.
  unfold dec. destruct (z <? 0).
  - constructor; [discriminate | ]. apply digits_not_nul. constructor.
  - apply digits_not_nul. constructor.
Qed.

Lemma strlen_cstring (s t : list ascii) :
  Forall (fun c => c <> NUL) s -> strlen (s ++ NUL :: t) = Z.of_nat (length s).
Proof.
  intros Hs. induction Hs as [ | c s Hc _ IH]; cbn [app strlen length].
  - reflexivity.
  - destruct (Ascii.eqb_spec c NUL) as [-> | _]; [congruence | ].
    rewrite IH. lia.
Qed.

(** ** The frame *)

Lemma set_write_faults_nil (w : world) : write_faults w = [] -> set_write_faults [] w = w.
Proof. intros H. rewrite <- H. apply set_write_faults_same. Qed.

Section FrameFacts.

Context `{P : platform}.

(** A formatted string that fits its array comes out of [snprintf] whole. *)
Lemma snprintf_fits (size : nat) (s : list ascii) :
  (length s < size)%nat ->
  take (length s) (fst (snprintf size s)) = s
  /\ snd (snprintf size s) = Z.of_nat (length s)
  /\ (length s <= length (fst (snprintf size s)))%nat.
Proof.
  intros Hs. unfold snprintf. cbn [fst snd].
  rewrite (take_ge s (Nat.pred size)) by lia.
  split; [apply take_app_length | ]. split; [reflexivity | ].
  rewrite length_app. lia.
Qed.

Lemma appended_snprintf (ab : appendBuffer) (size : nat) (s : list ascii) :
  (length s < size)%nat ->
  appended ab (push ab (fst (snprintf size s)) (snd (snprintf size s))) s.
Proof.
  intros Hs. destruct (snprintf_fits size s Hs) as (Htake & Hlen & Hle).
  rewrite <- Htake at 3. rewrite Hlen.
  replace (length s) with (Z.to_nat (Z.of_nat (length s))) at 2 by lia.
  apply appended_push. lia.
Qed.

Lemma draw_row_ok (y : Z) (ab : appendBuffer) (w : world) :
  heap_faults w = [] ->
  0 <= screencols (E w) -> int_range (screencols (E w)) ->
  int_range (screenrows (E w)) ->
  0 <= y < screenrows (E w) ->
  exists ab' : appendBuffer,
    draw_row y ab w = Ret ab' w /\ appended ab ab' (row_bytes (E w) y).
Proof.
  intros Hh Hc0 Hc Hr Hy. unfold int_range in Hr.
  unfold draw_row. unfold bind at 1. cbn [get].
  rewrite (wrap32_small (y + 1)) by (unfold int_range; lia).
  rewrite (wrap32_small (screenrows (E w) - 1)) by (unfold int_range; lia).
  assert (Hline : (length (dec (y + 1) ++ str " ") < 32)%nat).
  { rewrite length_app. pose proof (dec_length (y + 1)).
    cbn [length str list_ascii_of_string]. lia. }
  pose proof (appended_snprintf ab 32 _ Hline) as Hnum.
  destruct (snprintf 32 (dec (y + 1) ++ str " ")) as [line linelen] eqn:Hsn.
  cbn [fst snd] in Hnum.
  assert (Hpos : (linelen >? 0) = true).
  { apply (f_equal snd) in Hsn. cbn in Hsn. subst linelen. rewrite length_app.
    cbn [length str list_ascii_of_string]. apply Z.gtb_lt. lia. }
  rewrite Hpos.
  rewrite bind_abAppend by exact Hh.
  unfold row_bytes. rewrite (app_assoc (dec (y + 1)) (str " ")).
  assert (Hmid : exists ab1 : appendBuffer,
             (if y =? 0 then drawWelcome (push ab line linelen)
              else abAppend (push ab line linelen) (str "~") 1) w = Ret ab1 w
             /\ appended (push ab line linelen) ab1
                  (if y =? 0 then welcome_bytes welcome_text (screencols (E w))
                   else str "~")).
  { destruct (y =? 0).
    - apply drawWelcome_of_ok; [exact Hh | exact Hc0 | exact Hc | cbn; lia | cbn; lia].
    - rewrite abAppend_ok by exact Hh. eexists. split; [reflexivity | ].
      apply appended_push_all. reflexivity. }
  destruct Hmid as (ab1 & Hrun & Hmid).
  unfold bind at 1. rewrite Hrun.
  rewrite bind_abAppend by exact Hh.
  assert (Hk : appended ab1 (push ab1 (esc "[K") 3) (esc "[K"))
    by (apply appended_push_all; reflexivity).
  destruct (y <? screenrows (E w) - 1).
  - rewrite abAppend_ok by exact Hh. eexists. split; [reflexivity | ].
    eapply appended_app; [exact Hnum | ].
    eapply appended_app; [exact Hmid | ].
    eapply appended_app; [exact Hk | ].
    apply appended_push_all. reflexivity.
  - eexists. split; [reflexivity | ].
    eapply appended_app; [exact Hnum | ].
    eapply appended_app; [exact Hmid | ].
    rewrite app_nil_r. exact Hk.
Qed.

Lemma draw_rows_ok (n : nat) (y : Z) (ab : appendBuffer) (w : world) :
  heap_faults w = [] ->
  0 <= screencols (E w) -> int_range (screencols (E w)) ->
  int_range (screenrows (E w)) ->
  0 <= y -> y + Z.of_nat n = screenrows (E w) ->
  exists ab' : appendBuffer,
    draw_rows n y ab w = Ret ab' w /\ appended ab ab' (rows_bytes (E w) n y).
Proof.
  intros Hh Hc0 Hc Hr. revert y ab.
  induction n as [ | n IH]; intros y ab Hy Hsum; cbn [draw_rows rows_bytes].
  - exists ab. split; [reflexivity | apply appended_nil].
  - unfold bind at 1. cbn [get].
    replace (y <? screenrows (E w)) with true by (symmetry; apply Z.ltb_lt; lia).
    destruct (draw_row_ok y ab w Hh Hc0 Hc Hr) as (ab1 & Hrun & Hrow); [lia | ].
    unfold bind at 1. rewrite Hrun.
    unfold int_range in Hr.
    rewrite wrap32_small by (unfold int_range; lia).
    destruct (IH (y + 1) ab1) as (ab' & Hrest & Hrows); [lia | lia | ].
    exists ab'. split; [exact Hrest | ].
    eapply appended_app; eassumption.
Qed.

Lemma status_text_length (e : editorState) : (length (status_text e) <= 66)%nat.
Proof.
  unfold status_text. rewrite !length_app.
  pose proof (dec_length (wrap32 (cursor_y e + 1))).
  pose proof (dec_length (wrap32 (cursor_x e + 1))).
  pose proof (dec_length (screencols e)).
  pose proof (dec_length (screenrows e)).
  change (length (str "[Cursor: ")) with 9%nat.
  change (length (str ",")) with 1%nat.
  change (length (str "] [Size: ")) with 9%nat.
  change (length (str "×")) with 2%nat.
  change (length (str "]")) with 1%nat.
  lia.
Qed.

Lemma cursor_text_length (e : editorState) : (length (cursor_text e) <= 26)%nat.
Proof.
  unfold cursor_text. rewrite !length_app.
  pose proof (dec_length (wrap32 (cursor_y e + 1))).
  pose proof (dec_length (wrap32 (cursor_x e + 1))).
  change (length (esc "[")) with 2%nat.
  change (length (str ";")) with 1%nat.
  change (length (str "H")) with 1%nat.
  lia.
Qed.

Lemma cursor_text_not_nul (e : editorState) : Forall (fun c => c <> NUL) (cursor_text e).
Proof.
  unfold cursor_text. rewrite !Forall_app.
  repeat split; try apply dec_not_nul; repeat constructor; discriminate.
Qed.

Lemma status_shown_push (ab : appendBuffer) (e : editorState) :
  0 <= screencols e ->
  appended ab
    (push ab (fst (snprintf 80 (status_text e)))
       (if snd (snprintf 80 (status_text e)) >? screencols e
        then screencols e else snd (snprintf 80 (status_text e))))
    (status_shown e).
Proof.
  intros Hc0. pose proof (status_text_length e) as Hlen.
  destruct (snprintf_fits 80 (status_text e)) as (Htake & Hsnd & Hle); [lia | ].
  rewrite Hsnd.
  set (L := Z.of_nat (length (status_text e))).
  replace (if L >? screencols e then screencols e else L) with (Z.min L (screencols e))
    by (destruct (Z.gtb_spec L (screencols e)); lia).
  assert (Hshown : status_shown e =
                   take (Z.to_nat (Z.min L (screencols e))) (fst (snprintf 80 (status_text e)))).
  { unfold status_shown, snprintf. cbn [fst].
    rewrite (take_ge (status_text e) (Nat.pred 80)) by (cbn [Nat.pred]; lia).
    rewrite take_app_le by (subst L; lia).
    destruct (Z.le_ge_cases L (screencols e)).
    - rewrite Z.min_l by lia. subst L. rewrite !take_ge by lia. reflexivity.
    - rewrite Z.min_r by lia. reflexivity. }
  rewrite Hshown. apply appended_push. subst L. lia.
Qed.

Lemma cursor_text_push (ab : appendBuffer) (e : editorState) :
  appended ab
    (push ab (fst (snprintf 32 (cursor_text e))) (strlen (fst (snprintf 32 (cursor_text e)))))
    (cursor_text e).
Proof.
  pose proof (cursor_text_length e) as Hlen.
  destruct (snprintf_fits 32 (cursor_text e)) as (Htake & Hsnd & Hle); [lia | ].
  assert (Hs : strlen (fst (snprintf 32 (cursor_text e))) = Z.of_nat (length (cursor_text e))).
  { unfold snprintf. cbn [fst].
    rewrite (take_ge (cursor_text e) (Nat.pred 32)) by (cbn [Nat.pred]; lia).
    apply strlen_cstring, cursor_text_not_nul. }
  rewrite Hs. rewrite <- Htake at 3.
  replace (length (cursor_text e)) with (Z.to_nat (Z.of_nat (length (cursor_text e)))) at 2 by lia.
  apply appended_push. lia.
Qed.

Lemma frame_appended (w : world) (ab : appendBuffer) (status buf : list ascii) (statuslen : Z) :
  appended (push (push AB_INIT (esc "[?25l") 6) (esc "[H") 3) ab
      (rows_bytes (E w) (Z.to_nat (screenrows (E w))) 0) ->
  (forall ab0 : appendBuffer,
      appended ab0
        (push ab0 status
           (if statuslen >? screencols (E w)
            then screencols (E w)
            else statuslen))
        (status_shown (E w))) ->
  (forall ab0 : appendBuffer,
      appended ab0 (push ab0 buf (strlen buf)) (cursor_text (E w))) ->
  appended AB_INIT
    (push
       (push
          (push
             (push
                (push (push (push ab (esc "[999C") 6) (esc "[1A") 4)
                   (esc "[7m") 4)
                status
                (if statuslen >? screencols (E w)
                 then screencols (E w)
                 else statuslen))
             (esc "[m") 3)
          buf (strlen buf))
       (esc "[?25h") 6) (frame (E w)).
Proof.
  intros Hrows Hstatus Hcursor.
   unfold frame.
    eapply appended_app; [apply appended_push_all; reflexivity | ].
    eapply appended_app; [apply appended_push_all; reflexivity | ].
    eapply appended_app; [exact Hrows | ].
    eapply appended_app; [apply appended_push_all; reflexivity | ].
    eapply appended_app; [apply appended_push_all; reflexivity | ].
    eapply appended_app; [apply appended_push_all; reflexivity | ].
    eapply appended_app; [apply Hstatus | ].
    eapply appended_app; [apply appended_push_all; reflexivity | ].
    eapply appended_app; [apply Hcursor | ].
    apply appended_push_all; reflexivity.
Qed.

Lemma appended_init (ab ab0 : appendBuffer) (s : list ascii) (n : Z) (bytes : list ascii) :
  appended AB_INIT ab bytes ->
  ab = push ab0 s n ->
  Z.of_nat (length bytes) < 2 ^ 31 ->
  b ab = bytes /\ len ab = Z.of_nat (length bytes).
Proof.
  intros [Hb Hl] -> Hfit. split; [exact Hb | ].
  cbn [push len AB_INIT] in Hl |- *. rewrite wrap32_idem, Z.add_0_l in Hl. rewrite Hl.
  apply wrap32_small. unfold int_range. lia.
Qed.

Lemma write_all (ab : appendBuffer) (bytes : list ascii) (w : world) :
  write_faults w = [] ->
  b ab = bytes -> len ab = Z.of_nat (length bytes) ->
  (write (b ab) (len ab) ;; abFree ab) w = Ret tt (set_stdout (stdout w ++ bytes) w).
Proof.
  intros Hw Hb Hl. unfold bind, write, abFree, ret. rewrite Hw. cbn [next_fault].
  rewrite Hl, Hb, Nat2Z.id, firstn_all, (set_write_faults_nil w Hw). reflexivity.
Qed.

Lemma refreshScreen_ok (w : world) :
  heap_faults w = [] -> write_faults w = [] ->
  0 <= screenrows (E w) -> int_range (screenrows (E w)) ->
  0 <= screencols (E w) -> int_range (screencols (E w)) ->
  Z.of_nat (length (frame (E w))) < 2 ^ 31 ->
  refreshScreen w = Ret tt (set_stdout (stdout w ++ frame (E w)) w).
Proof.
  intros Hh Hw Hr0 Hr Hc0 Hc Hfit.
  unfold refreshScreen.
  rewrite !bind_abAppend by exact Hh.
  unfold bind at 1. cbn [get].
  destruct (draw_rows_ok (Z.to_nat (screenrows (E w))) 0
              (push (push AB_INIT (esc "[?25l") 6) (esc "[H") 3) w Hh Hc0 Hc Hr)
    as (ab & Hrun & Hrows); [lia | lia | ].
  unfold bind at 1. rewrite Hrun.
  pose proof (fun ab0 => status_shown_push ab0 (E w) Hc0) as Hstatus.
  destruct (snprintf 80 (status_text (E w))) as [status statuslen].
  cbn [fst snd] in Hstatus.
  rewrite !bind_abAppend by exact Hh.
  pose proof (fun ab0 => cursor_text_push ab0 (E w)) as Hcursor.
  destruct (snprintf 32 (cursor_text (E w))) as [buf n].
  cbn [fst] in Hcursor.
  rewrite !bind_abAppend by exact Hh.
  destruct (appended_init _ _ _ _ _ (frame_appended w ab status buf statuslen Hrows Hstatus Hcursor) eq_refl Hfit)
    as [Hb Hl].
  apply write_all; [exact Hw | exact Hb | exact Hl].
Qed.

(** The last row is not followed by a line break: the rows end with the
    clear-to-end-of-line of the last one. *)
Lemma rows_bytes_last (e : editorState) (n : nat) (y : Z) :
  y + Z.of_nat (S n) = screenrows e ->
  exists body : list ascii, rows_bytes e (S n) y = body ++ esc "[K".
Proof.
  revert y. induction n as [ | n IH]; intros y Hy.
  - cbn [rows_bytes]. unfold row_bytes.
    replace (y <? screenrows e - 1) with false by (symmetry; apply Z.ltb_ge; lia).
    eexists. rewrite !app_nil_r, !app_assoc. reflexivity.
  - destruct (IH (y + 1)) as (body & Hbody); [lia | ].
    change (rows_bytes e (S (S n)) y) with (row_bytes e y ++ rows_bytes e (S n) (y + 1)).
    rewrite Hbody. eexists. rewrite app_assoc. reflexivity.
Qed.

(** C3, as the code has it.  With the cursor on the screen, no failing
    [realloc] or [write], and a frame that fits an [int], the frame
    [refreshScreen] writes is: hide cursor, home, the rows (the last one
    ends with clear-to-end-of-line, no line break follows), then
    [ESC[999C], [ESC[1A], [ESC[7m], the status text clipped to the first
    [cols] bytes, [ESC[m], the cursor placement and show cursor.  The
    status text is [[Cursor: r,c] [Size: cols x rows]] with the 1-indexed
    cursor row and column; it is shown whole exactly when the screen is
    at least as wide as the text is long. *)
Theorem refreshScreen_status_line (w : world) :
  heap_faults w = [] -> write_faults w = [] ->
  int_range (screenrows (E w)) -> int_range (screencols (E w)) ->
  in_bounds (E w) ->
  Z.of_nat (length (frame (E w))) < 2 ^ 31 ->
  exists rows_part shown : list ascii,
    refreshScreen w =
      Ret tt (set_stdout
                (stdout w
                   ++ (esc "[?25l" ++ esc "[H" ++ rows_part
                         ++ esc "[999C" ++ esc "[1A"
                         ++ esc "[7m" ++ shown ++ esc "[m"
                         ++ cursor_text (E w) ++ esc "[?25h")) w)
    /\ rows_part = rows_bytes (E w) (Z.to_nat (screenrows (E w))) 0
    /\ (exists body : list ascii, rows_part = body ++ esc "[K")
    /\ shown =
         take (Z.to_nat (screencols (E w)))
           (str "[Cursor: " ++ dec (cursor_y (E w) + 1) ++ str ","
              ++ dec (cursor_x (E w) + 1) ++ str "] [Size: "
              ++ dec (screencols (E w)) ++ str "×" ++ dec (screenrows (E w)) ++ str "]")
    /\ (shown = status_text (E w) <->
          Z.of_nat (length (status_text (E w))) <= screencols (E w)).
Proof.
  intros Hh Hw Hr Hc [Hy Hx] Hfit. unfold int_range in Hr, Hc.
  exists (rows_bytes (E w) (Z.to_nat (screenrows (E w))) 0), (status_shown (E w)).
  split; [apply refreshScreen_ok; unfold int_range; try assumption; lia | ].
  split; [reflexivity | ].
  split.
  { destruct (Z.to_nat (screenrows (E w))) as [ | n] eqn:Hn; [lia | ].
    apply rows_bytes_last. lia. }
  split.
  { unfold status_shown, status_text.
    rewrite !wrap32_small by (unfold int_range; lia). reflexivity. }
  unfold status_shown. split.
  - intros Heq. apply (f_equal (@length ascii)) in Heq.
    rewrite length_take in Heq. lia.
  - intros Hle. apply take_ge. lia.
Qed.

End FrameFacts.

(** On a 24 x 80 screen the frame ends with the whole status line. *)
Lemma refreshScreen_status_line_witness :
  exists rows_part : list ascii,
    refreshScreen (at_loop (P := linux_x86_64) 24 80 []) =
      Ret tt (set_stdout
                (esc "[?25l" ++ esc "[H" ++ rows_part
                   ++ esc "[999C" ++ esc "[1A"
                   ++ esc "[7m" ++ str "[Cursor: 1,1] [Size: 80×24]" ++ esc "[m"
                   ++ esc "[1;1H" ++ esc "[?25h")
                (at_loop (P := linux_x86_64) 24 80 [])).
Proof.
  destruct (refreshScreen_status_line
              (at_loop (P := linux_x86_64) 24 80 []))
    as (rows_part & shown & Hrun & _ & _ & Hshown & _).
  - reflexivity.
  - reflexivity.
  - unfold int_range. cbn. lia.
  - unfold int_range. cbn. lia.
  - unfold in_bounds. cbn. lia.
  - vm_compute. reflexivity.
  - exists rows_part. rewrite Hrun. rewrite Hshown. reflexivity.
Defined.

(** On a screen of 10 columns the status line is cut after ten bytes:
    the frame shows neither the cursor column nor the extent, and holds
    the status text nowhere. *)
Lemma refreshScreen_status_line_counterexample :
  refreshScreen (at_loop (P := linux_x86_64) 24 10 []) =
    Ret tt (set_stdout (frame (E (at_loop (P := linux_x86_64) 24 10 [])))
              (at_loop (P := linux_x86_64) 24 10 []))
  /\ status_text (E (at_loop (P := linux_x86_64) 24 10 [])) = str "[Cursor: 1,1] [Size: 10×24]"
  /\ status_shown (E (at_loop (P := linux_x86_64) 24 10 [])) = str "[Cursor: 1"
  /\ ~ (exists pre post : list ascii,
         frame (E (at_loop (P := linux_x86_64) 24 10 [])) =
           pre ++ status_text (E (at_loop (P := linux_x86_64) 24 10 [])) ++ post).
Proof.
  split; [vm_compute; reflexivity | ].
  split; [vm_compute; reflexivity | ].
  split; [vm_compute; reflexivity | ].
  intros (pre & post & Heq).
  apply (f_equal (existsb (Ascii.eqb "S"))) in Heq.
  rewrite !existsb_app in Heq.
  replace (existsb (Ascii.eqb "S") (frame (E (at_loop (P := linux_x86_64) 24 10 []))))
    with false in Heq by (vm_compute; reflexivity).
  replace (existsb (Ascii.eqb "S")
             (status_text (E (at_loop (P := linux_x86_64) 24 10 []))))
    with true in Heq by (vm_compute; reflexivity).
  destruct (existsb (Ascii.eqb "S") pre); discriminate Heq.
Qed.

(** ** The size of a frame *)

Lemma welcome_bytes_length (text : list ascii) (cols : Z) :
  0 <= cols -> Z.of_nat (length (welcome_bytes text cols)) <= cols.
Proof.
  intros Hc. unfold welcome_bytes.
  set (wl := Z.min (Z.of_nat (length text)) cols).
  assert (Hwl : 0 <= wl <= cols) by (subst wl; lia).
  assert (Hp : 0 <= (cols - wl) / 2 <= cols - wl).
  { split; [apply Z.div_pos; lia | apply Z.div_le_upper_bound; lia]. }
  rewrite length_app, Nat2Z.inj_add, margin_length by lia.
  rewrite length_take. lia.
Qed.

Lemma row_bytes_length (e : editorState) (y : Z) :
  0 <= screencols e ->
  Z.of_nat (length (row_bytes e y)) <= 18 + (if y =? 0 then screencols e else 0).
Proof.
  intros Hc. unfold row_bytes. rewrite !length_app, !Nat2Z.inj_add.
  pose proof (dec_length (y + 1)).
  change (length (str " ")) with 1%nat. change (length (esc "[K")) with 3%nat.
  assert (Hbreak : (length (if (y <? screenrows e - 1)%Z then [CR; LF] else []) <= 2)%nat)
    by (destruct (y <? screenrows e - 1); cbn; lia).
  destruct (y =? 0).
  - pose proof (welcome_bytes_length welcome_text (screencols e) Hc). lia.
  - change (length (str "~")) with 1%nat. lia.
Qed.

Lemma rows_bytes_length (e : editorState) (n : nat) (y : Z) :
  0 <= screencols e -> 0 <= y ->
  Z.of_nat (length (rows_bytes e n y)) <=
    18 * Z.of_nat n + (if y =? 0 then screencols e else 0).
Proof.
  intros Hc. revert y. induction n as [ | n IH]; intros y Hy; cbn [rows_bytes].
  - cbn [length]. destruct (y =? 0); lia.
  - rewrite length_app, Nat2Z.inj_add.
    pose proof (row_bytes_length e y Hc) as Hrow.
    specialize (IH (y + 1) ltac:(lia)).
    replace (y + 1 =? 0) with false in IH by (symmetry; apply Z.eqb_neq; lia).
    destruct (y =? 0); lia.
Qed.

(** A frame has at most [18 * rows + cols + 124] bytes: every screen a
    terminal can report through [TIOCGWINSZ] fits an [int] with room to
    spare. *)
Lemma frame_length (e : editorState) :
  0 <= screenrows e -> 0 <= screencols e ->
  Z.of_nat (length (frame e)) <= 18 * screenrows e + screencols e + 124.
Proof.
  intros Hr Hc. unfold frame. rewrite !length_app, !Nat2Z.inj_add.
  pose proof (rows_bytes_length e (Z.to_nat (screenrows e)) 0 Hc ltac:(lia)) as Hrows.
  change (0 =? 0) with true in Hrows. cbv iota in Hrows.
  pose proof (status_text_length e) as Hstatus.
  pose proof (cursor_text_length e) as Hcursor.
  assert (Hshown : (length (status_shown e) <= length (status_text e))%nat)
    by (unfold status_shown; rewrite length_take; lia).
  change (length (esc "[?25l")) with 6%nat. change (length (esc "[H")) with 3%nat.
  change (length (esc "[999C")) with 6%nat. change (length (esc "[1A")) with 4%nat.
  change (length (esc "[7m")) with 4%nat. change (length (esc "[m")) with 3%nat.
  change (length (esc "[?25h")) with 6%nat.
  lia.
Qed.

Lemma frame_fits (e : editorState) :
  0 <= screenrows e <= 65535 -> 0 <= screencols e <= 65535 ->
  Z.of_nat (length (frame e)) < 2 ^ 31.
Proof.
  intros Hr Hc. pose proof (frame_length e ltac:(lia) ltac:(lia)). lia.
Qed.

(** ** The main loop *)

Lemma clearScreen_ok (w : world) :
  write_faults w = [] ->
  clearScreen w = Ret tt (set_stdout (stdout w ++ esc "[2J" ++ esc "[H") w).
Proof.
  intros Hw. unfold clearScreen, bind, write, ret. rewrite Hw. cbn [next_fault].
  cbn [write_faults set_stdout set_write_faults next_fault stdout].
  rewrite <- app_assoc. f_equal. destruct w; cbn in *; subst; reflexivity.
Qed.

Section LoopFacts.

Context `{P : platform}.

(** One turn of the loop that reads a quit key. *)
Lemma main_loop_quits (fuel : nat) (pre rest rest' : list read_event) (w : world) :
  (forall w1 : world,
     readKey (feed (pre ++ rest) w1) = Ret KEY_ESC (feed rest' w1)) ->
  main_loop (S fuel) (feed (pre ++ rest) w) =
    (refreshScreen ;; readKey ;; clearScreen) (feed (pre ++ rest) w)
  /\ exists w' : world,
       main_loop (S fuel) (feed (pre ++ rest) w) = Ret tt w'
       /\ E w' = E w
       /\ stdin w' = rest'
       /\ terminal_untouched w w'
       /\ (write_faults w = [] ->
           exists out : list ascii, stdout w' = stdout w ++ out ++ esc "[2J" ++ esc "[H").
Proof.
  intros Hkey. cbn [main_loop].
  destruct (refreshScreen_output (feed (pre ++ rest) w)) as ([] & w1 & Hdraw & Hout).
  destruct Hout as (Hterm1 & _ & Hin1 & _ & HE1 & Hw1 & _ & out1 & Hout1).
  assert (Hw1eq : w1 = feed (pre ++ rest) w1).
  { cbn [feed set_stdin stdin] in Hin1. unfold feed. rewrite <- Hin1.
    symmetry. apply set_stdin_same. }
  destruct (clearScreen_output (feed rest' w1)) as ([] & w2 & Hclear & Hout).
  destruct Hout as (Hterm2 & _ & Hin2 & _ & HE2 & _ & _ & out2 & Hout2).
  assert (Hturn : (refreshScreen ;; readKey ;; clearScreen) (feed (pre ++ rest) w) = Ret tt w2).
  { unfold bind at 1. rewrite Hdraw. unfold bind at 1. rewrite Hw1eq, Hkey. exact Hclear. }
  split.
  - rewrite Hturn. unfold bind at 1. rewrite Hdraw.
    unfold bind at 1. rewrite Hw1eq, Hkey.
    change ((KEY_ESC =? lit "q") || (KEY_ESC =? KEY_ESC)) with true. cbv iota.
    exact Hclear.
  - exists w2. split.
    { unfold bind at 1. rewrite Hdraw.
      unfold bind at 1. rewrite Hw1eq, Hkey.
      change ((KEY_ESC =? lit "q") || (KEY_ESC =? KEY_ESC)) with true. cbv iota.
      exact Hclear. }
    split; [rewrite HE2; cbn [feed set_stdin E]; rewrite HE1; reflexivity | ].
    split; [rewrite Hin2; reflexivity | ].
    split.
    { destruct Hterm1 as (? & ? & ? & ?), Hterm2 as (? & ? & ? & ?).
      cbn [feed set_stdin tty tc_faults orig_termios atexit_disableRawMode] in *.
      repeat split; congruence. }
    intros Hw. cbn [feed set_stdin write_faults] in Hw1. specialize (Hw1 Hw).
    rewrite (clearScreen_ok (feed rest' w1)) in Hclear by exact Hw1.
    injection Hclear as <-.
    cbn [feed set_stdin set_stdout stdout] in *. rewrite Hout1.
    exists out1. rewrite <- !app_assoc. reflexivity.
Qed.

(** C10.  An escape sequence outside the tables is read as the value 27,
    the same value a lone [ESC] is read as; the loop tests only that
    value, so on either input one turn of the loop is "draw, read,
    clear the screen, leave": the editor quits.  [rest'] is what is left
    of the input: at most three reads behind [ESC] are used up.  The
    screen has no negative number of columns: the frame that is drawn
    before the key is read clips lengths to that number and hands them
    to [abAppend], which is given no negative length. *)
Theorem unrecognized_escape_quits (fuel : nat) (pre rest : list read_event) (w : world) :
  0 <= screencols (E w) ->
  Forall retried pre ->
  recognized rest = false ->
  exists rest' : list read_event,
    readKey (feed (pre ++ Byte ESC :: rest) w) = Ret KEY_ESC (feed rest' w)
    /\ readKey (feed (pre ++ [Byte ESC]) w) = Ret KEY_ESC (feed [] w)
    /\ main_loop (S fuel) (feed (pre ++ Byte ESC :: rest) w) =
         (refreshScreen ;; readKey ;; clearScreen) (feed (pre ++ Byte ESC :: rest) w)
    /\ main_loop (S fuel) (feed (pre ++ [Byte ESC]) w) =
         (refreshScreen ;; readKey ;; clearScreen) (feed (pre ++ [Byte ESC]) w)
    /\ exists w' : world,
         main_loop (S fuel) (feed (pre ++ Byte ESC :: rest) w) = Ret tt w'
         /\ E w' = E w
         /\ stdin w' = rest'
         /\ terminal_untouched w w'
         /\ (write_faults w = [] ->
             exists out : list ascii, stdout w' = stdout w ++ out ++ esc "[2J" ++ esc "[H").
Proof.
  intros _ Hpre Hrec.
  assert (Hkey : forall w1, readKey (feed (pre ++ Byte ESC :: rest) w1) =
                            Ret KEY_ESC (feed (snd (escape_key rest)) w1)).
  { intros w1. rewrite (readKey_escape pre rest w1 Hpre).
    rewrite (escape_key_unrecognized rest Hrec). reflexivity. }
  assert (Hbare : forall w1, readKey (feed (pre ++ [Byte ESC]) w1) = Ret KEY_ESC (feed [] w1)).
  { intros w1. rewrite (readKey_escape pre [] w1 Hpre). reflexivity. }
  exists (snd (escape_key rest)).
  split; [apply Hkey | ]. split; [apply Hbare | ].
  destruct (main_loop_quits fuel pre (Byte ESC :: rest) (snd (escape_key rest)) w Hkey)
    as [Hturn Hquit].
  destruct (main_loop_quits fuel pre [Byte ESC] [] w Hbare) as [Hturn' _].
  split; [exact Hturn | ]. split; [exact Hturn' | ]. exact Hquit.
Qed.

End LoopFacts.

(** [ESC O P], what an F1 key sends: the editor clears the screen and
    leaves the loop, with the byte typed after it still unread. *)
Lemma unrecognized_escape_quits_witness :
  exists w' : world,
    main_loop (P := linux_x86_64) 5
      (feed [Byte ESC; Byte "O"; Byte "P"; Byte "x"] (at_loop (P := linux_x86_64) 24 80 [])) =
      Ret tt w'
    /\ stdin w' = [Byte "x"]
    /\ E w' = screen_at 24 80 0 0.
Proof.
  destruct (unrecognized_escape_quits (P := linux_x86_64) 4 []
              [Byte "O"; Byte "P"; Byte "x"] (at_loop (P := linux_x86_64) 24 80 []))
    as (rest' & Hkey & _ & _ & _ & w' & Hrun & HE & Hin & _).
  - cbn. lia.
  - constructor.
  - reflexivity.
  - exists w'. split; [exact Hrun | ].
    assert (Hrest : rest' = [Byte "x"]).
    { revert Hkey. vm_compute. intros Hkey. injection Hkey as Hkey. symmetry. exact Hkey. }
    split; [rewrite Hin; exact Hrest | exact HE].
Defined.

(** ** The fuel of the main loop *)

#[local] Instance stdin_shrinks_preorder : PreOrder stdin_shrinks.
Proof.
  split.
  - intros w. unfold stdin_shrinks. lia.
  - intros w1 w2 w3. unfold stdin_shrinks. lia.
Qed.

Lemma preserves_returned {A : Type} (R : world -> world -> Prop) (m : M A)
    (w w' : world) (a : A) :
  preserves R m -> m w = Ret a w' -> R w w'.
Proof. intros Hm Heq. specialize (Hm w). rewrite Heq in Hm. exact Hm. Qed.

Lemma bind_ext {A B : Type} (m : M A) (k1 k2 : A -> M B) (w : world) :
  (forall a w', m w = Ret a w' -> k1 a w' = k2 a w') ->
  bind m k1 w = bind m k2 w.
Proof.
  intros H. unfold bind. destruct (m w) as [a w' | s w' | w']; [ | reflexivity | reflexivity].
  apply H. reflexivity.
Qed.

Lemma read_shrinks : preserves stdin_shrinks read.
Proof.
  intros w. unfold read, stdin_shrinks.
  destruct (stdin w) as [ | ev rest] eqn:Hin; cbn [world_of set_stdin stdin].
  - rewrite Hin. cbn. lia.
  - cbn [length]. lia.
Qed.

Lemma output_shrinks {A : Type} (m : M A) :
  returns_with only_output m -> preserves stdin_shrinks m.
Proof.
  intros Hm w. destruct (Hm w) as (a & w' & -> & _ & _ & Hin & _).
  unfold stdin_shrinks. cbn [world_of]. rewrite Hin. lia.
Qed.

Lemma assign_shrinks (f : Z -> editorState -> editorState) (v : Z) :
  preserves stdin_shrinks (assign f v).
Proof. intros w. unfold stdin_shrinks. cbn. lia. Qed.

Section Fuel.

Context `{P : platform}.

Lemma read_byte_consumes (n : nat) (w w' : world) (c : ascii) :
  read_byte n w = Ret c w' -> (length (stdin w') < length (stdin w))%nat.
Proof.
  revert w. induction n as [ | n IH]; intros w; cbn [read_byte]; [discriminate | ].
  unfold bind, read.
  destruct (stdin w) as [ | ev rest] eqn:Hin.
  - intros H. apply IH in H. rewrite Hin in H. cbn in H. lia.
  - assert (Hrest : forall w1, stdin w1 = rest ->
                      read_byte n w1 = Ret c w' ->
                      (length (stdin w') < length (ev :: rest))%nat).
    { intros w1 H1 H. apply IH in H. rewrite H1 in H. cbn [length]. lia. }
    destruct ev as [c0 | | e].
    + intros H. injection H as <- <-. cbn. lia.
    + apply Hrest. reflexivity.
    + destruct (negb (e =? EAGAIN)).
      * unfold die, bind, perror, modify, exit. discriminate.
      * apply Hrest. reflexivity.
Qed.

Lemma readKey_consumes (w w' : world) (key : Z) :
  readKey w = Ret key w' -> (length (stdin w') < length (stdin w))%nat.
Proof.
  unfold readKey. unfold bind at 1. cbn [get]. unfold bind at 1.
  destruct (read_byte (length (stdin w)) w) as [c w0 | | ] eqn:Hb; try discriminate.
  apply read_byte_consumes in Hb.
  intros H.
  match type of H with
  | ?m w0 = _ => assert (Hm : preserves stdin_shrinks m)
  end.
  { pose proof read_shrinks. preserves_auto. }
  apply (preserves_returned _ _ _ _ _ Hm) in H. unfold stdin_shrinks in H. lia.
Qed.

Lemma moveCursor_shrinks (key : Z) : preserves stdin_shrinks (moveCursor key).
Proof. pose proof assign_shrinks. unfold moveCursor. preserves_auto. Qed.

(** Fuel above the number of reads left is never used up: the result of
    the loop does not depend on it. *)
Lemma main_loop_fuel (fuel fuel' : nat) (w : world) :
  (length (stdin w) < fuel)%nat -> (length (stdin w) < fuel')%nat ->
  main_loop fuel w = main_loop fuel' w.
Proof.
  revert fuel' w. induction fuel as [ | fuel IH]; intros fuel' w Hf Hf'; [lia | ].
  destruct fuel' as [ | fuel']; [lia | ].
  cbn [main_loop].
  apply bind_ext. intros [] w1 Hdraw.
  pose proof (preserves_returned _ _ _ _ _ (output_shrinks _ refreshScreen_output) Hdraw) as H1.
  apply bind_ext. intros key w2 Hkey.
  apply readKey_consumes in Hkey.
  destruct ((key =? lit "q") || (key =? KEY_ESC)); [reflexivity | ].
  apply bind_ext. intros [] w3 Hmove.
  match type of Hmove with
  | ?m w2 = _ => assert (Hm : preserves stdin_shrinks m)
  end.
  { pose proof moveCursor_shrinks. preserves_auto. }
  apply (preserves_returned _ _ _ _ _ Hm) in Hmove.
  unfold stdin_shrinks in *. apply IH; lia.
Qed.

End Fuel.

(** ** The scenario *)

Section Scenario.

Context `{P : platform}.

(** C9.  The bytes [h], [j], [ESC [ C], [q] on a 24 x 80 screen with
    the cursor at the origin: the loop draws four frames, the first
    three with the cursor at row 0, column 0 ([h] and [j] move nothing)
    and the fourth with the cursor at row 0, column 1 (the right arrow);
    on [q] it writes the two clear-screen sequences and is left, with the
    cursor at (0, 1) and all input read.  The whole program, started on
    any terminal that reports 24 x 80, then prints its last line, ends
    with exit status 0 and leaves the terminal with the attributes it
    had. *)
Theorem scenario_right_arrow_then_quit
    (t orig : termios) (tcf : list bool) (ws : option (Z * Z))
    (err : list string) (registered : bool) (out : list ascii) :
  main_loop (S (length scenario_keys))
    (looping t orig tcf ws err registered out scenario_keys (screen_at 24 80 0 0)) =
    Ret tt
      (looping t orig tcf ws err registered
         (out ++ frame (screen_at 24 80 0 0) ++ frame (screen_at 24 80 0 0)
            ++ frame (screen_at 24 80 0 0) ++ frame (screen_at 24 80 0 1)
            ++ esc "[2J" ++ esc "[H")
         [] (screen_at 24 80 0 1))
  /\ exists w' : world,
       run (boot t (Some (24, 80)) scenario_keys) = Exit 0 w'
       /\ E w' = screen_at 24 80 0 1
       /\ stdin w' = []
       /\ tty w' = t
       /\ stdout w' =
            frame (screen_at 24 80 0 0) ++ frame (screen_at 24 80 0 0)
              ++ frame (screen_at 24 80 0 0) ++ frame (screen_at 24 80 0 1)
              ++ esc "[2J" ++ esc "[H" ++ goodbye.
Proof.
  split.
  - rewrite !app_assoc. vm_compute. reflexivity.
  - eexists. split; [vm_compute; reflexivity | ].
    cbn [E stdin tty stdout].
    repeat split; vm_compute; reflexivity.
Qed.

End Scenario.

(** * The cursor position reply *)

(** ** Scanning numbers *)

Lemma eqb_lit_ne (c k : ascii) : lit c <> lit k -> Ascii.eqb c k = false.
Proof. intros H. rewrite <- lit_eqb. apply Z.eqb_neq. exact H. Qed.

Lemma isdigit_range (c : ascii) : isdigit c = true <-> 48 <= lit c <= 57.
Proof.
  unfold isdigit. change (lit "0") with 48. change (lit "9") with 57.
  rewrite andb_true_iff, !Z.leb_le. reflexivity.
Qed.

Lemma isspace_range (c : ascii) : isspace c = true <-> lit c = 32 \/ 9 <= lit c <= 13.
Proof.
  unfold isspace. rewrite orb_true_iff, andb_true_iff, Z.eqb_eq, !Z.leb_le. reflexivity.
Qed.

Lemma isdigit_not_space (c : ascii) : isdigit c = true -> isspace c = false.
Proof.
  intros H. apply isdigit_range in H.
  destruct (isspace c) eqn:Hs; [ | reflexivity].
  apply isspace_range in Hs. lia.
Qed.

Lemma isspace_not_digit (c : ascii) : isspace c = true -> isdigit c = false.
Proof.
  intros H. destruct (isdigit c) eqn:Hd; [ | reflexivity].
  apply isdigit_not_space in Hd. congruence.
Qed.

Lemma skip_space_spaces (ws rest : list ascii) :
  all_spaces ws ->
  match rest with [] => True | c :: _ => isspace c = false end ->
  skip_space (ws ++ rest) = rest.
Proof.
  intros Hws Hrest. induction Hws as [ | c ws Hc _ IH]; cbn [app skip_space].
  - destruct rest as [ | c rest]; [reflexivity | ]. cbn [skip_space]. rewrite Hrest. reflexivity.
  - rewrite Hc. exact IH.
Qed.

Lemma skip_space_inv (s : list ascii) :
  exists ws : list ascii,
    s = ws ++ skip_space s /\ all_spaces ws
    /\ match skip_space s with [] => True | c :: _ => isspace c = false end.
Proof.
  induction s as [ | c s (ws & Heq & Hws & Hhead)]; cbn [skip_space].
  - exists []. repeat split. constructor.
  - destruct (isspace c) eqn:Hc.
    + exists (c :: ws). split; [cbn [app]; f_equal; exact Heq | ].
      split; [constructor; assumption | exact Hhead].
    + exists []. split; [reflexivity | ]. split; [constructor | exact Hc].
Qed.

Lemma scan_digits_digits (ds rest : list ascii) (acc : Z) :
  Forall (fun c => isdigit c = true) ds ->
  not_digit_head rest ->
  scan_digits (ds ++ rest) acc =
    (fold_left (fun a c => 10 * a + (lit c - lit "0")) ds acc, rest).
Proof.
  intros Hds Hrest. revert acc.
  induction Hds as [ | c ds Hc _ IH]; intros acc; cbn [app scan_digits fold_left].
  - destruct rest as [ | c rest]; [reflexivity | ].
    cbn [scan_digits]. cbn in Hrest. rewrite Hrest. reflexivity.
  - rewrite Hc. apply IH.
Qed.

Lemma scan_digits_inv (s : list ascii) (acc : Z) :
  exists ds : list ascii,
    s = ds ++ snd (scan_digits s acc)
    /\ Forall (fun c => isdigit c = true) ds
    /\ fst (scan_digits s acc) = fold_left (fun a c => 10 * a + (lit c - lit "0")) ds acc
    /\ not_digit_head (snd (scan_digits s acc)).
Proof.
  revert acc. induction s as [ | c s IH]; intros acc; cbn [scan_digits].
  - exists []. repeat split. constructor.
  - destruct (isdigit c) eqn:Hc.
    + destruct (IH (10 * acc + (lit c - lit "0"))) as (ds & Heq & Hds & Hval & Hhead).
      exists (c :: ds). split; [cbn [app]; f_equal; exact Heq | ].
      split; [constructor; assumption | ]. split; [exact Hval | exact Hhead].
    + exists []. split; [reflexivity | ]. split; [constructor | ].
      split; [reflexivity | exact Hc].
Qed.

(** A numeral starts with a sign or a digit: not with white space. *)
Lemma numeral_head (n : list ascii) (v : Z) :
  numeral n v -> exists c rest, n = c :: rest /\ isspace c = false.
Proof.
  intros [ds [Hne Hds] | ds _ | ds _].
  - destruct Hds as [ | c ds Hc _]; [congruence | ].
    exists c, ds. split; [reflexivity | apply isdigit_not_space, Hc].
  - eexists _, _. split; reflexivity.
  - eexists _, _. split; reflexivity.
Qed.

(** [%d] on white space, a numeral, and something that is no digit. *)
Lemma scan_int_numeral (ws n rest : list ascii) (v : Z) :
  all_spaces ws -> numeral n v -> not_digit_head rest ->
  scan_int (ws ++ n ++ rest) = Converted v rest.
Proof.
  intros Hws Hn Hrest. unfold scan_int.
  destruct (numeral_head n v Hn) as (c0 & n0 & Hn0 & Hc0).
  rewrite skip_space_spaces; [ | exact Hws | rewrite Hn0; exact Hc0].
  clear c0 n0 Hn0 Hc0.
  destruct Hn as [ds [Hne Hds] | ds [Hne Hds] | ds [Hne Hds]].
  - destruct ds as [ | d ds]; [congruence | ].
    pose proof (Forall_inv Hds) as Hd. cbn beta in Hd.
    pose proof (proj1 (isdigit_range d) Hd) as Hr.
    cbn [app].
    rewrite (eqb_lit_ne d "-") by (change (lit "-") with 45; lia).
    rewrite (eqb_lit_ne d "+") by (change (lit "+") with 43; lia).
    rewrite Hd.
    change (d :: ds ++ rest) with ((d :: ds) ++ rest).
    rewrite scan_digits_digits by assumption. reflexivity.
  - destruct ds as [ | d ds]; [congruence | ].
    pose proof (Forall_inv Hds) as Hd. cbn beta in Hd.
    cbn [app]. change (Ascii.eqb "+" "-") with false. change (Ascii.eqb "+" "+") with true.
    cbv iota. rewrite Hd.
    change (d :: ds ++ rest) with ((d :: ds) ++ rest).
    rewrite scan_digits_digits by assumption. reflexivity.
  - destruct ds as [ | d ds]; [congruence | ].
    pose proof (Forall_inv Hds) as Hd. cbn beta in Hd.
    cbn [app]. change (Ascii.eqb "-" "-") with true.
    cbv iota. rewrite Hd.
    change (d :: ds ++ rest) with ((d :: ds) ++ rest).
    rewrite scan_digits_digits by assumption. reflexivity.
Qed.

Lemma scan_int_inv (s rest : list ascii) (v : Z) :
  scan_int s = Converted v rest ->
  exists ws n : list ascii,
    s = ws ++ n ++ rest /\ all_spaces ws /\ numeral n v /\ not_digit_head rest.
Proof.
  unfold scan_int. intros H.
  destruct (skip_space_inv s) as (ws & Heq & Hws & _).
  destruct (skip_space s) as [ | c body] eqn:Hskip; [discriminate H | ].
  exists ws.
  assert (Hbody : forall (b : list ascii) (neg : bool),
             match b with
             | [] => MatchFailure
             | d :: _ =>
                 if isdigit d
                 then let '(v0, rest') := scan_digits b 0 in
                      Converted (if neg then - v0 else v0) rest'
                 else MatchFailure
             end = Converted v rest ->
             exists ds, b = ds ++ rest /\ all_digits ds
                        /\ v = (if neg then - digits_value ds else digits_value ds)
                        /\ not_digit_head rest).
  { intros b0 neg Hb. destruct b0 as [ | d b0]; [discriminate Hb | ].
    destruct (isdigit d) eqn:Hd; [ | discriminate Hb].
    destruct (scan_digits_inv (d :: b0) 0) as (ds & Hsplit & Hds & Hval & Hhead).
    destruct (scan_digits (d :: b0) 0) as [v0 rest'].
    cbn [fst snd] in *. injection Hb as <- <-.
    exists ds. split; [exact Hsplit | ].
    split; [ | split; [rewrite Hval; reflexivity | exact Hhead]].
    split; [ | exact Hds].
    intros ->. cbn [app] in Hsplit. subst rest'. cbn in Hhead. congruence. }
  destruct (Ascii.eqb_spec c "-") as [-> | Hminus].
  - destruct (Hbody body true H) as (ds & -> & Hds & -> & Hhead).
    exists ("-"%char :: ds). split; [exact Heq | ].
    split; [exact Hws | ]. split; [constructor; exact Hds | exact Hhead].
  - destruct (Ascii.eqb_spec c "+") as [-> | Hplus].
    + destruct (Hbody body false H) as (ds & -> & Hds & -> & Hhead).
      exists ("+"%char :: ds). split; [exact Heq | ].
      split; [exact Hws | ]. split; [constructor; exact Hds | exact Hhead].
    + destruct (Hbody (c :: body) false H) as (ds & Hcb & Hds & -> & Hhead).
      exists ds. split; [rewrite Heq, Hcb; reflexivity | ].
      split; [exact Hws | ]. split; [constructor; exact Hds | exact Hhead].
Qed.

(** ** C strings *)

Lemma cstring_nul (x y : list ascii) : cstring (x ++ NUL :: y) = cstring x.
Proof.
  induction x as [ | c x IH]; cbn [app cstring].
  - reflexivity.
  - destruct (Ascii.eqb c NUL); [reflexivity | ]. rewrite IH. reflexivity.
Qed.

Lemma cstring_clean (p t : list ascii) :
  Forall (fun c => c <> NUL) p -> cstring (p ++ t) = p ++ cstring t.
Proof.
  intros Hp. induction Hp as [ | c p Hc _ IH]; cbn [app cstring].
  - reflexivity.
  - destruct (Ascii.eqb_spec c NUL) as [-> | _]; [congruence | ].
    rewrite IH. reflexivity.
Qed.

Lemma cstring_inv (x : list ascii) :
  exists junk : list ascii, x = cstring x ++ junk /\ not_digit_head junk.
Proof.
  induction x as [ | c x (junk & Heq & Hjunk)]; cbn [cstring].
  - exists []. split; [reflexivity | exact I].
  - destruct (Ascii.eqb_spec c NUL) as [-> | _].
    + exists (NUL :: x). split; [reflexivity | reflexivity].
    + exists junk. split; [cbn [app]; f_equal; exact Heq | exact Hjunk].
Qed.

Lemma not_digit_head_cstring (t : list ascii) :
  not_digit_head t -> not_digit_head (cstring t).
Proof.
  destruct t as [ | c t]; cbn [cstring not_digit_head]; [trivial | ].
  intros Hc. destruct (Ascii.eqb c NUL); [exact I | exact Hc].
Qed.

Lemma not_digit_head_app (rest junk : list ascii) :
  not_digit_head rest -> not_digit_head junk -> not_digit_head (rest ++ junk).
Proof. destruct rest; cbn; trivial. Qed.

Lemma spaces_clean (ws : list ascii) : all_spaces ws -> Forall (fun c => c <> NUL) ws.
Proof.
  intros H. eapply Forall_impl; [exact H | ].
  intros c Hc ->. discriminate Hc.
Qed.

Lemma digits_clean (ds : list ascii) :
  Forall (fun c => isdigit c = true) ds -> Forall (fun c => c <> NUL) ds.
Proof.
  intros H. eapply Forall_impl; [exact H | ].
  intros c Hc ->. discriminate Hc.
Qed.

Lemma numeral_clean (n : list ascii) (v : Z) : numeral n v -> Forall (fun c => c <> NUL) n.
Proof.
  intros [ds [_ Hds] | ds [_ Hds] | ds [_ Hds]].
  - apply digits_clean, Hds.
  - constructor; [discriminate | apply digits_clean, Hds].
  - constructor; [discriminate | apply digits_clean, Hds].
Qed.

(** ** [sscanf] and the lenient pattern *)

Lemma sscanf_lenient (ws1 n1 ws2 n2 tail : list ascii) (r c rows cols : Z) :
  all_spaces ws1 -> numeral n1 r -> all_spaces ws2 -> numeral n2 c ->
  not_digit_head tail ->
  sscanf_d_d ((ws1 ++ n1 ++ ";"%char :: ws2 ++ n2 ++ tail) ++ [NUL]) rows cols =
    (2, (int_of_long r, int_of_long c)).
Proof.
  intros Hws1 Hn1 Hws2 Hn2 Htail. unfold sscanf_d_d.
  rewrite (cstring_nul _ []).
  rewrite (cstring_clean ws1) by (apply spaces_clean, Hws1).
  rewrite (cstring_clean n1) by (apply (numeral_clean n1 r), Hn1).
  cbn [cstring]. change (Ascii.eqb ";" NUL) with false. cbv iota.
  rewrite (cstring_clean ws2) by (apply spaces_clean, Hws2).
  rewrite (cstring_clean n2) by (apply (numeral_clean n2 c), Hn2).
  rewrite (scan_int_numeral ws1 n1 _ r Hws1 Hn1) by reflexivity.
  change (Ascii.eqb ";" ";") with true. cbv iota.
  rewrite (scan_int_numeral ws2 n2 _ c Hws2 Hn2)
    by (apply not_digit_head_cstring, Htail).
  reflexivity.
Qed.

Lemma sscanf_two_inv (x : list ascii) (rows cols : Z) (out : Z * Z) :
  sscanf_d_d (x ++ [NUL]) rows cols = (2, out) ->
  exists (ws1 n1 ws2 n2 tail : list ascii) (r c : Z),
    x = ws1 ++ n1 ++ ";"%char :: ws2 ++ n2 ++ tail
    /\ all_spaces ws1 /\ numeral n1 r /\ all_spaces ws2 /\ numeral n2 c
    /\ not_digit_head tail
    /\ out = (int_of_long r, int_of_long c).
Proof.
  unfold sscanf_d_d. rewrite (cstring_nul _ []). intros H.
  destruct (scan_int (cstring x)) as [r rest | | ] eqn:Hfirst; try discriminate H.
  destruct rest as [ | sep rest]; [discriminate H | ].
  destruct (Ascii.eqb_spec sep ";") as [-> | _]; [ | discriminate H].
  destruct (scan_int rest) as [c rest' | | ] eqn:Hsecond; try discriminate H.
  injection H as <-.
  destruct (scan_int_inv _ _ _ Hfirst) as (ws1 & n1 & Hx & Hws1 & Hn1 & _).
  destruct (scan_int_inv _ _ _ Hsecond) as (ws2 & n2 & Hrest & Hws2 & Hn2 & Hhead).
  destruct (cstring_inv x) as (junk & Hsplit & Hjunk).
  exists ws1, n1, ws2, n2, (rest' ++ junk), r, c.
  split.
  { rewrite Hsplit, Hx, Hrest. rewrite <- !app_assoc. cbn [app].
    rewrite <- !app_assoc. reflexivity. }
  repeat (split; [assumption | ]).
  split; [apply not_digit_head_app; assumption | reflexivity].
Qed.

(** Short of two conversions, [cols] is not written. *)
Lemma sscanf_count (buf : list ascii) (rows cols : Z) :
  let '(n, (_, cols')) := sscanf_d_d buf rows cols in
  n = 2 \/ (n <> 2 /\ cols' = cols).
Proof.
  unfold sscanf_d_d.
  destruct (scan_int (cstring buf)) as [r rest | | ]; try (right; split; [lia | reflexivity]).
  destruct rest as [ | sep rest]; [right; split; [lia | reflexivity] | ].
  destruct (Ascii.eqb sep ";"); [ | right; split; [lia | reflexivity]].
  destruct (scan_int rest); [left; reflexivity | | ]; right; split; (lia || reflexivity).
Qed.

(** ** What [getCursorPosition] accepts *)

Lemma parse_reply_lenient (got : list ascii) (rows cols r c : Z) :
  lenient_reply got r c ->
  parse_reply got rows cols = (0, (int_of_long r, int_of_long c)).
Proof.
  intros (ws1 & n1 & ws2 & n2 & tail & -> & Hws1 & Hn1 & Hws2 & Hn2 & Htail).
  unfold parse_reply. cbn [app nth drop].
  change (Ascii.eqb ESC ESC) with true. change (Ascii.eqb "[" "[") with true.
  cbn [negb orb]. rewrite drop_0.
  rewrite (sscanf_lenient ws1 n1 ws2 n2 tail r c rows cols) by assumption.
  reflexivity.
Qed.

Lemma parse_reply_inv (got : list ascii) (rows cols : Z) (out : Z * Z) :
  parse_reply got rows cols = (0, out) ->
  exists r c : Z, lenient_reply got r c /\ out = (int_of_long r, int_of_long c).
Proof.
  unfold parse_reply. intros H.
  destruct got as [ | c0 got]; [discriminate H | ].
  destruct got as [ | c1 got].
  { cbn [app nth] in H. change (Ascii.eqb NUL "[") with false in H.
    rewrite orb_true_r in H. discriminate H. }
  cbn [app nth drop] in H.
  destruct (Ascii.eqb_spec c0 ESC) as [-> | _]; [ | discriminate H].
  destruct (Ascii.eqb_spec c1 "[") as [-> | _]; [ | discriminate H].
  cbn [negb orb] in H. rewrite drop_0 in H.
  destruct (sscanf_d_d (got ++ [NUL]) rows cols) as [n out'] eqn:Hscan.
  destruct (Z.eqb_spec n 2) as [-> | _]; [ | discriminate H].
  cbn [negb] in H. injection H as <-.
  destruct (sscanf_two_inv got rows cols out' Hscan)
    as (ws1 & n1 & ws2 & n2 & tail & r & c & -> & Hws1 & Hn1 & Hws2 & Hn2 & Htail & ->).
  exists r, c. split; [ | reflexivity].
  exists ws1, n1, ws2, n2, tail. repeat (split; [assumption || reflexivity | ]). exact Htail.
Qed.

(** A reply that is not accepted is an error, and [cols] is untouched. *)
Lemma parse_reply_error (got : list ascii) (rows cols : Z) :
  fst (parse_reply got rows cols) = 0
  \/ (fst (parse_reply got rows cols) = -1 /\ snd (snd (parse_reply got rows cols)) = cols).
Proof.
  unfold parse_reply.
  destruct (negb (Ascii.eqb (nth 0 (got ++ [NUL]) NUL) ESC)
            || negb (Ascii.eqb (nth 1 (got ++ [NUL]) NUL) "[")).
  - right. split; reflexivity.
  - pose proof (sscanf_count (drop 2 (got ++ [NUL])) rows cols) as Hc.
    destruct (sscanf_d_d (drop 2 (got ++ [NUL])) rows cols) as [n [rows' cols']].
    destruct Hc as [-> | [Hn ->]].
    + left. reflexivity.
    + right. replace (n =? 2) with false by (symmetry; apply Z.eqb_neq; exact Hn).
      split; reflexivity.
Qed.

Lemma digits_value_nonneg (ds : list ascii) :
  Forall (fun c => isdigit c = true) ds -> 0 <= digits_value ds.
Proof.
  unfold digits_value. intros Hds.
  assert (H : forall acc, 0 <= acc ->
              0 <= fold_left (fun a c => 10 * a + (lit c - lit "0")) ds acc).
  { induction Hds as [ | c ds Hc _ IH]; intros acc Hacc; cbn [fold_left].
    - exact Hacc.
    - apply IH. apply isdigit_range in Hc. change (lit "0") with 48. lia. }
  apply H. lia.
Qed.

Lemma int_of_long_small (v : Z) : 0 <= v < 2 ^ 31 -> int_of_long v = v.
Proof.
  intros Hv. unfold int_of_long.
  rewrite Z.min_r, Z.max_r by lia.
  apply wrap32_small. unfold int_range. lia.
Qed.

(** The stored bytes of a reply that ends with [R] and fits the room. *)
Lemma reply_bytes_terminated (p : list ascii) (rest : list read_event) (room : nat) :
  Forall (fun c => c <> "R"%char) p ->
  (length p < room)%nat ->
  reply_bytes room (keys (p ++ ["R"%char]) ++ rest) = p
  /\ reply_rest room (keys (p ++ ["R"%char]) ++ rest) = rest.
Proof.
  intros Hp. revert room. induction Hp as [ | c p Hc _ IH]; intros room Hroom.
  - destruct room as [ | room]; [cbn in Hroom; lia | ]. split; reflexivity.
  - destruct room as [ | room]; [cbn in Hroom; lia | ].
    cbn [app keys map reply_bytes reply_rest].
    destruct (Ascii.eqb_spec c "R") as [-> | _]; [congruence | ].
    destruct (IH room) as [Hb Hr]; [cbn [length] in Hroom; lia | ].
    unfold keys in Hb, Hr. rewrite Hb, Hr. split; reflexivity.
Qed.

Lemma digits_not_R (ds : list ascii) :
  Forall (fun c => isdigit c = true) ds -> Forall (fun c => c <> "R"%char) ds.
Proof.
  intros H. eapply Forall_impl; [exact H | ].
  intros c Hc ->. discriminate Hc.
Qed.

(** A reply of the strict form is accepted as it stands. *)
Lemma strict_is_lenient (bytes : list ascii) (rest : list read_event) (r c : Z) :
  strict_reply bytes r c ->
  (length bytes <= 31)%nat ->
  lenient_reply (reply_bytes 31 (keys bytes ++ rest)) r c
  /\ reply_rest 31 (keys bytes ++ rest) = rest
  /\ 0 <= r /\ 0 <= c.
Proof.
  intros (ds1 & ds2 & -> & [Hne1 Hds1] & [Hne2 Hds2] & -> & ->) Hlen.
  destruct (reply_bytes_terminated (ESC :: "["%char :: ds1 ++ ";"%char :: ds2) rest 31)
    as [Hb Hr].
  { constructor; [discriminate | ]. constructor; [discriminate | ].
    apply Forall_app. split; [apply digits_not_R, Hds1 | ].
    constructor; [discriminate | apply digits_not_R, Hds2]. }
  { cbn [length] in Hlen |- *. rewrite length_app in Hlen |- *. cbn [length] in Hlen |- *.
    rewrite length_app in Hlen. cbn [length] in Hlen. lia. }
  assert (Hshape : ESC :: "["%char :: ds1 ++ ";"%char :: ds2 ++ ["R"%char]
                   = (ESC :: "["%char :: ds1 ++ ";"%char :: ds2) ++ ["R"%char]).
  { cbn [app]. rewrite <- app_assoc. reflexivity. }
  rewrite Hshape, Hb, Hr.
  split; [ | split; [reflexivity | split; apply digits_value_nonneg; assumption]].
  exists [], ds1, [], ds2, [].
  split; [cbn [app]; rewrite app_nil_r; reflexivity | ].
  split; [constructor | ]. split; [constructor; split; assumption | ].
  split; [constructor | ]. split; [constructor; split; assumption | exact I].
Qed.

Section Replies.

Context `{P : platform}.

Lemma read_reply_spec (room : nat) (buf : list ascii) (evs : list read_event) (w : world) :
  read_reply room buf (feed evs w) =
    Ret (buf ++ reply_bytes room evs) (feed (reply_rest room evs) w).
Proof.
  revert buf evs. induction room as [ | room IH]; intros buf evs.
  - cbn. rewrite app_nil_r. reflexivity.
  - destruct evs as [ | [c | | e] evs]; cbn [read_reply reply_bytes reply_rest];
      unfold bind at 1; cbn [read feed set_stdin stdin].
    + cbn [ret]. rewrite app_nil_r. reflexivity.
    + rewrite int_of_char_eqb by (vm_compute; reflexivity).
      destruct (Ascii.eqb c "R").
      * cbn [ret]. rewrite app_nil_r. reflexivity.
      * change (set_stdin evs (feed (Byte c :: evs) w)) with (feed evs w).
        rewrite IH, <- app_assoc. reflexivity.
    + cbn [ret]. rewrite app_nil_r. reflexivity.
    + cbn [ret]. rewrite app_nil_r. reflexivity.
Qed.

(** [getCursorPosition] when the request can be written. *)
Lemma getCursorPosition_run (rows cols : Z) (evs : list read_event) (w : world) :
  write_faults w = [] ->
  getCursorPosition rows cols (feed evs w) =
    Ret (parse_reply (reply_bytes 31 evs) rows cols)
        (feed (reply_rest 31 evs) (set_stdout (stdout w ++ esc "[6n") w)).
Proof.
  intros Hw. unfold getCursorPosition.
  unfold bind at 1. unfold write. cbn [feed set_stdin write_faults stdout].
  rewrite Hw. cbn [next_fault].
  change (negb (4 =? 4)) with false. cbv iota.
  assert (Hworld : set_stdout (stdout w ++ take (Z.to_nat 4) (esc "[6n"))
                     (set_write_faults [] (feed evs w))
                   = feed evs (set_stdout (stdout w ++ esc "[6n") w)).
  { rewrite <- Hw. destruct w; reflexivity. }
  rewrite Hworld. unfold bind at 1. rewrite read_reply_spec. cbn [app].
  rewrite !int_of_char_eqb by (vm_compute; reflexivity).
  unfold parse_reply.
  destruct (negb (Ascii.eqb (nth 0 (reply_bytes 31 evs ++ [NUL]) NUL) ESC)
            || negb (Ascii.eqb (nth 1 (reply_bytes 31 evs ++ [NUL]) NUL) "[")).
  - reflexivity.
  - destruct (sscanf_d_d (drop 2 (reply_bytes 31 evs ++ [NUL])) rows cols) as [n out].
    destruct (negb (n =? 2)); reflexivity.
Qed.

(** C5, as the code has it.  When the request can be written,
    [getCursorPosition] reads the reply and returns 0 or -1.  It returns
    0 exactly when the bytes stored before the terminator (an [R], a
    failed read, or the 31st byte) are [ESC [], optional white space, an
    optionally signed decimal number, [;], optional white space, an
    optionally signed decimal number, and then anything that does not go
    on with a digit; [rows] and [cols] are then the two numbers.  The
    terminator [R] is not required, and what follows the second number
    is ignored.  A reply of the strict form [ESC [ rows ; cols R] of at
    most 31 bytes is accepted with exactly its numbers.  Any other reply
    gives -1 and leaves [cols] as it was: no extent is made up. *)
Theorem getCursorPosition_accepts (rows cols : Z) (evs : list read_event) (w : world) :
  write_faults w = [] ->
  exists (status : Z) (out : Z * Z),
    getCursorPosition rows cols (feed evs w) =
      Ret (status, out)
          (feed (reply_rest 31 evs) (set_stdout (stdout w ++ esc "[6n") w))
    /\ (status = 0 \/ status = -1)
    /\ (status = 0 <-> exists r c : Z, lenient_reply (reply_bytes 31 evs) r c)
    /\ (forall r c : Z,
          lenient_reply (reply_bytes 31 evs) r c ->
          out = (int_of_long r, int_of_long c))
    /\ (status = -1 -> snd out = cols)
    /\ (forall (bytes : list ascii) (rest : list read_event) (r c : Z),
          evs = keys bytes ++ rest ->
          strict_reply bytes r c ->
          (length bytes <= 31)%nat ->
          r < 2 ^ 31 -> c < 2 ^ 31 ->
          status = 0 /\ out = (r, c) /\ reply_rest 31 evs = rest).
Proof.
  intros Hw. rewrite (getCursorPosition_run rows cols evs w Hw).
  pose proof (parse_reply_error (reply_bytes 31 evs) rows cols) as Herr.
  pose proof (parse_reply_inv (reply_bytes 31 evs) rows cols) as Hinv.
  pose proof (fun r c => parse_reply_lenient (reply_bytes 31 evs) rows cols r c) as Hlen.
  destruct (parse_reply (reply_bytes 31 evs) rows cols) as [status out].
  cbn [fst snd] in Herr.
  exists status, out. split; [reflexivity | ].
  split; [destruct Herr as [-> | [-> _]]; [left | right]; reflexivity | ].
  split.
  { split.
    - intros ->. destruct (Hinv out eq_refl) as (r & c & Hl & _). exists r, c. exact Hl.
    - intros (r & c & Hl). specialize (Hlen r c Hl). congruence. }
  split; [intros r c Hl; specialize (Hlen r c Hl); congruence | ].
  split; [intros ->; destruct Herr as [Hz | [_ Hc]]; [discriminate Hz | exact Hc] | ].
  intros bytes rest r c -> Hstrict Hfit Hr Hc.
  destruct (strict_is_lenient bytes rest r c Hstrict Hfit) as (Hl & Hrest & Hr0 & Hc0).
  specialize (Hlen r c Hl).
  rewrite !int_of_long_small in Hlen by lia.
  split; [congruence | ]. split; [congruence | exact Hrest].
Qed.

End Replies.

(** The reply [ESC [ 24 ; 80 R]: 24 rows, 80 columns, and the byte typed
    behind it is still unread. *)
Lemma getCursorPosition_accepts_witness :
  getCursorPosition (P := linux_x86_64) 0 0
    (feed (keys (ESC :: str "[24;80R") ++ [Byte "q"]) (boot (P := linux_x86_64) cooked None [])) =
    Ret (0, (24, 80))
        (feed [Byte "q"] (set_stdout (esc "[6n") (boot (P := linux_x86_64) cooked None []))).
Proof.
  destruct (getCursorPosition_accepts (P := linux_x86_64) 0 0
              (keys (ESC :: str "[24;80R") ++ [Byte "q"])
              (boot (P := linux_x86_64) cooked None []) eq_refl)
    as (status & out & Hrun & _ & _ & _ & _ & Hstrict).
  destruct (Hstrict (ESC :: str "[24;80R") [Byte "q"] 24 80 eq_refl)
    as (-> & -> & Hrest).
  - exists (str "24"), (str "80").
    split; [reflexivity | ].
    split; [split; [discriminate | repeat constructor] | ].
    split; [split; [discriminate | repeat constructor] | ].
    split; reflexivity.
  - cbn. lia.
  - lia.
  - lia.
  - rewrite Hrun, Hrest. reflexivity.
Defined.

(** The reply [ESC [ 24 ; 80] with no [R] behind it (the next read times
    out): not of the strict form, and accepted all the same. *)
Lemma getCursorPosition_accepts_counterexample :
  getCursorPosition (P := linux_x86_64) 0 0
    (feed (keys (ESC :: str "[24;80") ++ [Timeout]) (boot (P := linux_x86_64) cooked None [])) =
    Ret (0, (24, 80))
        (feed [] (set_stdout (esc "[6n") (boot (P := linux_x86_64) cooked None [])))
  /\ ~ (exists r c : Z, strict_reply (ESC :: str "[24;80") r c).
Proof.
  split; [vm_compute; reflexivity | ].
  intros (r & c & ds1 & ds2 & Heq & _).
  apply (f_equal (@last ascii)) in Heq.
  replace (ESC :: "["%char :: ds1 ++ ";"%char :: ds2 ++ ["R"%char])
    with ((ESC :: "["%char :: ds1 ++ ";"%char :: ds2) ++ ["R"%char]) in Heq
    by (cbn [app]; rewrite <- app_assoc; reflexivity).
  rewrite last_snoc in Heq. discriminate Heq.
Qed.

(** * Further properties of the two programs *)

(** ** Reading keys *)

Section Reading.

Context `{P : platform}.

(** X1.  [readKey] returns only with input it has read: whenever it
    returns, at least one answer of [stdin] is used up. *)
Theorem readKey_takes_input (w w' : world) (key : Z) :
  readKey w = Ret key w' -> (length (stdin w') < length (stdin w))%nat.
Proof. apply readKey_consumes. Qed.

Lemma read_byte_waits (w : world) :
  Forall retried (stdin w) ->
  exists w' : world, read_byte (length (stdin w)) w = Hang w' /\ stdin w' = [].
Proof.
  remember (stdin w) as evs eqn:Hin. intros Hall. revert w Hin.
  induction Hall as [ | ev evs Hev _ IH]; intros w Hin.
  - exists w. split; [reflexivity | symmetry; exact Hin].
  - cbn [length read_byte]. unfold bind, read. rewrite <- Hin.
    assert (Hnext : exists w' : world,
               read_byte (length evs) (set_stdin evs w) = Hang w' /\ stdin w' = [])
      by (apply IH; reflexivity).
    destruct Hev as [-> | ->].
    + exact Hnext.
    + rewrite Z.eqb_refl. cbn [negb]. exact Hnext.
Qed.

(** A read that fails with an error other than [EAGAIN] ends
    [readKey] through [die]: the message is [read], the status 1. *)
Lemma readKey_dies (pre rest : list read_event) (errno : Z) (w : world) :
  Forall retried pre -> errno <> EAGAIN ->
  readKey (feed (pre ++ Error errno :: rest) w) =
    Exit 1 (set_stderr (stderr w ++ ["read"%string]) (feed rest w)).
Proof.
  intros Hpre Herr. unfold readKey. unfold bind at 1. cbn [get feed set_stdin stdin].
  unfold bind at 1.
  assert (Hloop : read_byte (length (pre ++ Error errno :: rest))
                    (set_stdin (pre ++ Error errno :: rest) w) =
                  Exit 1 (set_stderr (stderr w ++ ["read"%string]) (set_stdin rest w))).
  { induction Hpre as [ | ev pre Hev _ IH].
    - cbn [app length read_byte]. unfold bind at 1. cbn [read set_stdin stdin].
      apply Z.eqb_neq in Herr. rewrite Herr. reflexivity.
    - cbn [app length read_byte]. unfold bind at 1. cbn [read set_stdin stdin].
      destruct Hev as [-> | ->].
      + exact IH.
      + rewrite Z.eqb_refl. cbn [negb]. exact IH. }
  unfold feed. rewrite Hloop. reflexivity.
Qed.

End Reading.

(** The key [q] on a 24 x 80 screen: [readKey] returns it and the input
    is used up. *)
Lemma readKey_takes_input_witness :
  exists (key : Z) (w' : world),
    readKey (P := linux_x86_64) (at_loop (P := linux_x86_64) 24 80 [Byte "q"]) = Ret key w'
    /\ key = lit "q" /\ (length (stdin w') < 1)%nat.
Proof.
  eexists _, _. split; [reflexivity | ]. split; [reflexivity | ].
  exact (readKey_takes_input (P := linux_x86_64)
           (at_loop (P := linux_x86_64) 24 80 [Byte "q"]) _ _ eq_refl).
Defined.

(** ** The cursor never leaves the screen *)

#[local] Instance state_kept_preorder : PreOrder state_kept.
Proof.
  split.
  - intros w. reflexivity.
  - intros w1 w2 w3 H1 H2. unfold state_kept in *. congruence.
Qed.

#[local] Instance stays_on_screen_preorder : PreOrder stays_on_screen.
Proof.
  split.
  - intros w. split; [reflexivity | ]. split; [reflexivity | ]. intros _ _ H. exact H.
  - intros w1 w2 w3 (Hr1 & Hc1 & H1) (Hr2 & Hc2 & H2).
    split; [congruence | ]. split; [congruence | ].
    intros Hr Hc Hb. apply H2; [rewrite Hr1 | rewrite Hc1 | apply H1]; assumption.
Qed.

Lemma preserves_weaken {A : Type} (R R' : world -> world -> Prop) (m : M A) :
  (forall w w', R w w' -> R' w w') -> preserves R m -> preserves R' m.
Proof. intros HR Hm w. apply HR, Hm. Qed.

Lemma state_kept_on_screen (w w' : world) : state_kept w w' -> stays_on_screen w w'.
Proof. unfold state_kept. intros H. unfold stays_on_screen. rewrite H. auto. Qed.

Lemma output_state_kept {A : Type} (m : M A) :
  returns_with only_output m -> preserves state_kept m.
Proof.
  intros Hm w. destruct (Hm w) as (a & w' & -> & _ & _ & _ & _ & HE & _).
  exact HE.
Qed.

Lemma read_state_kept : preserves state_kept read.
Proof. intros w. unfold read. destruct (stdin w); reflexivity. Qed.

Lemma perror_state_kept (s : string) : preserves state_kept (perror s).
Proof. intros w. reflexivity. Qed.

Section OnScreen.

Context `{P : platform}.

Lemma die_state_kept {A : Type} (s : string) : preserves state_kept (die (A := A) s).
Proof. pose proof perror_state_kept. unfold die. preserves_auto. Qed.

Lemma read_byte_state_kept (fuel : nat) : preserves state_kept (read_byte fuel).
Proof.
  pose proof read_state_kept. pose proof (@die_state_kept ascii).
  induction fuel as [ | fuel IH]; cbn [read_byte]; preserves_auto.
Qed.

Lemma readKey_state_kept : preserves state_kept readKey.
Proof.
  pose proof read_state_kept. pose proof read_byte_state_kept.
  unfold readKey. preserves_auto.
Qed.

Lemma moveCursor_on_screen (key : Z) : preserves stays_on_screen (moveCursor key).
Proof.
  intros w.
  assert (Hext : screenrows (E (world_of (moveCursor key w))) = screenrows (E w)
                 /\ screencols (E (world_of (moveCursor key w))) = screencols (E w)).
  { unfold moveCursor, bind, get, assign, modify, ret.
    repeat match goal with
           | |- context [if ?c then _ else _] => destruct c
           end; split; reflexivity. }
  destruct Hext as [Hr Hc]. split; [exact Hr | ]. split; [exact Hc | ].
  intros Hrows Hcols Hb.
  rewrite (moveCursor_moved key w Hrows Hcols Hb). cbn [world_of set_E E].
  pose proof (moved_in_bounds key (E w) Hb) as [Hy Hx].
  split; assumption.
Qed.

Lemma main_loop_on_screen (fuel : nat) : preserves stays_on_screen (main_loop fuel).
Proof.
  pose proof moveCursor_on_screen as Hmove.
  pose proof (preserves_weaken _ _ _ state_kept_on_screen readKey_state_kept) as Hkey.
  pose proof (preserves_weaken _ _ _ state_kept_on_screen
                (output_state_kept _ refreshScreen_output)) as Hdraw.
  pose proof (preserves_weaken _ _ _ state_kept_on_screen
                (output_state_kept _ clearScreen_output)) as Hclear.
  induction fuel as [ | fuel IH]; cbn [main_loop]; preserves_auto.
Qed.

(** X4.  However the main loop ends, and whatever the input and the
    failures of [write] and [realloc]: the extent is the one it started
    with, and a cursor that was on the screen is on the screen. *)
Theorem main_loop_keeps_cursor_on_screen (fuel : nat) (w : world) :
  int_range (screenrows (E w)) -> int_range (screencols (E w)) ->
  in_bounds (E w) ->
  screenrows (E (world_of (main_loop fuel w))) = screenrows (E w)
  /\ screencols (E (world_of (main_loop fuel w))) = screencols (E w)
  /\ in_bounds (E (world_of (main_loop fuel w))).
Proof.
  intros Hr Hc Hb. destruct (main_loop_on_screen fuel w) as (Hrows & Hcols & Hin).
  split; [exact Hrows | ]. split; [exact Hcols | ]. apply Hin; assumption.
Qed.

End OnScreen.

(** Page Down, End, then Right and Down against the border. *)
Lemma main_loop_keeps_cursor_on_screen_witness :
  in_bounds
    (E (world_of
          (main_loop (P := linux_x86_64) 20
             (at_loop (P := linux_x86_64) 24 80
                (keys (esc "[6~" ++ esc "[F" ++ esc "[C" ++ esc "[B")))))).
Proof.
  apply (main_loop_keeps_cursor_on_screen (P := linux_x86_64) 20
           (at_loop (P := linux_x86_64) 24 80
              (keys (esc "[6~" ++ esc "[F" ++ esc "[C" ++ esc "[B")))).
  - unfold int_range. cbn. lia.
  - unfold int_range. cbn. lia.
  - unfold in_bounds. cbn. lia.
Defined.

(** ** Moves that undo each other *)

Section Moves.

Context `{P : platform}.

Lemma after_key_in_bounds (key : Z) (e : editorState) :
  in_bounds e -> in_bounds (after_key key e).
Proof.
  intros Hb. pose proof (moved_in_bounds key e Hb) as [Hy Hx].
  split; assumption.
Qed.

Lemma moveCursor_twice (key1 key2 : Z) (w : world) :
  int_range (screenrows (E w)) -> int_range (screencols (E w)) ->
  in_bounds (E w) ->
  (moveCursor key1 ;; moveCursor key2) w =
    Ret tt (set_E (after_key key2 (after_key key1 (E w))) w).
Proof.
  intros Hr Hc Hb. unfold bind.
  rewrite (moveCursor_moved key1 w Hr Hc Hb).
  fold (after_key key1 (E w)).
  rewrite (moveCursor_moved key2 (set_E (after_key key1 (E w)) w));
    [ | exact Hr | exact Hc | apply after_key_in_bounds; exact Hb].
  cbn [E set_E]. fold (after_key key2 (after_key key1 (E w))).
  destruct w; reflexivity.
Qed.

End Moves.

(** ** Turns of the main loop *)

Section Turns.

Context `{P : platform}.

Lemma int_of_char_range (c : ascii) : -128 <= int_of_char c <= 255.
Proof.
  unfold int_of_char. cbv zeta. pose proof (lit_bounds c).
  destruct (Z.leb_spec 128 (lit c)); cbn [andb]; [ | lia].
  destruct char_signed; lia.
Qed.

(** [readKey] on a byte other than [ESC]. *)
Lemma readKey_byte (pre rest : list read_event) (c : ascii) (w : world) :
  Forall retried pre -> c <> ESC ->
  readKey (feed (pre ++ Byte c :: rest) w) = Ret (int_of_char c) (feed rest w).
Proof.
  intros Hpre Hc. unfold readKey. unfold bind at 1. cbn [get feed set_stdin stdin].
  unfold bind at 1.
  change (set_stdin (pre ++ Byte c :: rest) w) with (feed (pre ++ Byte c :: rest) w).
  rewrite read_byte_skips by exact Hpre.
  rewrite int_of_char_eqb by (vm_compute; reflexivity).
  apply Ascii.eqb_neq in Hc. rewrite Hc. reflexivity.
Qed.

Lemma refreshScreen_reportable (evs : list read_event) (w : world) :
  heap_faults w = [] -> write_faults w = [] -> reportable (E w) ->
  refreshScreen (feed evs w) =
    Ret tt (feed evs (set_stdout (stdout w ++ frame (E w)) w)).
Proof.
  intros Hh Hw [Hr Hc].
  rewrite refreshScreen_ok; cbn [feed set_stdin heap_faults write_faults E stdout];
    try assumption; try (unfold int_range; lia).
  - reflexivity.
  - apply frame_fits; assumption.
Qed.

(** One turn of the loop on a byte that is neither [q] nor [ESC]: a
    frame is drawn, the byte is read, and nothing else happens. *)
Lemma main_loop_plain_key (fuel : nat) (pre rest : list read_event) (c : ascii)
    (w : world) :
  heap_faults w = [] -> write_faults w = [] -> reportable (E w) ->
  Forall retried pre -> c <> "q"%char -> c <> ESC ->
  main_loop (S fuel) (feed (pre ++ Byte c :: rest) w) =
    main_loop fuel (feed rest (set_stdout (stdout w ++ frame (E w)) w)).
Proof.
  intros Hh Hw He Hpre Hq Hesc. cbn [main_loop].
  unfold bind at 1. rewrite refreshScreen_reportable by assumption.
  unfold bind at 1. rewrite readKey_byte by assumption.
  pose proof (int_of_char_range c) as Hrange.
  assert (Hnq : (int_of_char c =? lit "q") = false).
  { rewrite int_of_char_eqb by (vm_compute; reflexivity).
    apply Ascii.eqb_neq. exact Hq. }
  assert (Hne : (int_of_char c =? KEY_ESC) = false).
  { change KEY_ESC with (lit ESC).
    rewrite int_of_char_eqb by (vm_compute; reflexivity).
    apply Ascii.eqb_neq. exact Hesc. }
  rewrite Hnq, Hne. cbn [orb].
  unfold KEY_UP, KEY_DOWN, KEY_LEFT, KEY_RIGHT, KEY_HOME, KEY_END, KEY_PAGE_UP,
    KEY_PAGE_DOWN.
  repeat match goal with
         | |- context [int_of_char c =? ?k] =>
             replace (int_of_char c =? k) with false by (symmetry; apply Z.eqb_neq; lia)
         end.
  cbn [orb]. reflexivity.
Qed.

(** One turn of the loop on the byte [q]. *)
Lemma main_loop_q (fuel : nat) (pre rest : list read_event) (w : world) :
  heap_faults w = [] -> write_faults w = [] -> reportable (E w) ->
  Forall retried pre ->
  main_loop (S fuel) (feed (pre ++ Byte "q" :: rest) w) =
    Ret tt (feed rest (set_stdout (stdout w ++ frame (E w) ++ esc "[2J" ++ esc "[H") w)).
Proof.
  intros Hh Hw He Hpre. cbn [main_loop].
  unfold bind at 1. rewrite refreshScreen_reportable by assumption.
  unfold bind at 1. rewrite readKey_byte by (try assumption; discriminate).
  rewrite int_of_char_eqb by (vm_compute; reflexivity).
  change (Ascii.eqb "q" "q") with true. cbn [orb].
  rewrite clearScreen_ok by exact Hw.
  cbn [feed set_stdin set_stdout stdout]. rewrite <- !app_assoc. reflexivity.
Qed.

End Turns.

(** ** One write for a frame *)

#[local] Instance buffering_preorder : PreOrder buffering.
Proof.
  split.
  - intros w. split; reflexivity.
  - intros w1 w2 w3 [H1 H1'] [H2 H2']. split; congruence.
Qed.

Lemma realloc_buffering : returns_with buffering realloc.
Proof.
  intros w. unfold realloc. destruct (next_fault (heap_faults w)) as [fault fs].
  eexists _, _. split; [reflexivity | ]. split; reflexivity.
Qed.

Lemma abAppend_buffering (ab : appendBuffer) (s : list ascii) (n : Z) :
  returns_with buffering (abAppend ab s n).
Proof. pose proof realloc_buffering. unfold abAppend. returns_auto. Qed.

Lemma pad_loop_buffering (fuel : nat) (padding : Z) (ab : appendBuffer) :
  returns_with buffering (pad_loop fuel padding ab).
Proof.
  pose proof abAppend_buffering.
  revert padding ab. induction fuel as [ | fuel IH]; intros padding ab; cbn [pad_loop];
    returns_auto.
Qed.

Section SingleWrite.

Context `{P : platform}.

Lemma drawWelcome_of_buffering (text : list ascii) (ab : appendBuffer) :
  returns_with buffering (drawWelcome_of text ab).
Proof.
  pose proof abAppend_buffering. pose proof pad_loop_buffering.
  unfold drawWelcome_of. returns_auto.
Qed.

Lemma draw_row_buffering (y : Z) (ab : appendBuffer) :
  returns_with buffering (draw_row y ab).
Proof.
  pose proof abAppend_buffering. pose proof drawWelcome_of_buffering.
  unfold draw_row, drawWelcome. returns_auto.
Qed.

Lemma draw_rows_buffering (fuel : nat) (y : Z) (ab : appendBuffer) :
  returns_with buffering (draw_rows fuel y ab).
Proof.
  pose proof draw_row_buffering.
  revert y ab. induction fuel as [ | fuel IH]; intros y ab; cbn [draw_rows];
    returns_auto.
Qed.

Lemma write_once (s : list ascii) (n : Z) (ab : appendBuffer) :
  returns_with (wrote_once (take (Z.to_nat n) s)) (write s n ;; abFree ab).
Proof.
  intros w. unfold bind, write, abFree, ret, wrote_once.
  destruct (write_faults w) as [ | [ | ] fs] eqn:Hw; cbn [next_fault fst drop];
    eexists _, _; (split; [reflexivity | ]); cbn; rewrite ?app_nil_r; split; reflexivity.
Qed.

End SingleWrite.

(** ** The fixed buffers are large enough *)

(** X7.  None of the four [snprintf] calls of the drawing code cuts its
    output: the line number fits [line[32]], the banner [welcome[80]], the
    status text [status[80]] and the cursor address [buf[32]], each with
    its terminating [NUL]; so the lengths returned are the lengths stored,
    and [strlen(buf)] is the length of the cursor address. *)
Theorem drawing_buffers_suffice (e : editorState) (y : Z) :
  snprintf 32 (dec (wrap32 (y + 1)) ++ str " ") =
    ((dec (wrap32 (y + 1)) ++ str " ") ++ [NUL],
     Z.of_nat (length (dec (wrap32 (y + 1)) ++ str " ")))
  /\ snprintf 80 welcome_text = (welcome_text ++ [NUL], 28)
  /\ snprintf 80 (status_text e) =
       (status_text e ++ [NUL], Z.of_nat (length (status_text e)))
  /\ snprintf 32 (cursor_text e) =
       (cursor_text e ++ [NUL], Z.of_nat (length (cursor_text e)))
  /\ strlen (fst (snprintf 32 (cursor_text e))) = Z.of_nat (length (cursor_text e)).
Proof.
  pose proof (dec_length (wrap32 (y + 1))) as Hline.
  pose proof (status_text_length e) as Hstatus.
  pose proof (cursor_text_length e) as Hcursor.
  unfold snprintf. cbn [Nat.pred fst].
  repeat match goal with |- _ /\ _ => split end.
  - rewrite take_ge; [reflexivity | ]. rewrite length_app. cbn [length str]. cbn. lia.
  - reflexivity.
  - rewrite take_ge by lia. reflexivity.
  - rewrite take_ge by lia. reflexivity.
  - rewrite take_ge by lia. apply strlen_cstring, cursor_text_not_nul.
Qed.

(** ** Decimal output read back *)

Lemma digit_char_lit (d : Z) : 0 <= d < 10 -> lit (digit_char d) = 48 + d.
Proof.
  intros Hd.
  assert (Hcases : d = 0 \/ d = 1 \/ d = 2 \/ d = 3 \/ d = 4 \/ d = 5 \/ d = 6
                   \/ d = 7 \/ d = 8 \/ d = 9) by lia.
  repeat destruct Hcases as [-> | Hcases]; try reflexivity.
  subst d. reflexivity.
Qed.

Lemma digits_value_snoc (ds : list ascii) (c : ascii) :
  digits_value (ds ++ [c]) = 10 * digits_value ds + (lit c - lit "0").
Proof. unfold digits_value. rewrite fold_left_app. reflexivity. Qed.

(** [digits] writes the decimal digits of [n] in front of [acc]. *)
Lemma digits_spec (fuel : nat) (n : Z) (acc : list ascii) :
  (0 < fuel)%nat -> 0 <= n < 10 ^ Z.of_nat fuel ->
  exists ds : list ascii,
    digits fuel n acc = ds ++ acc
    /\ ds <> []
    /\ Forall (fun c => isdigit c = true) ds
    /\ digits_value ds = n
    /\ (length ds <= fuel)%nat.
Proof.
  revert n acc. induction fuel as [ | fuel IH]; intros n acc Hfuel Hn; [lia | ].
  cbn [digits].
  assert (Hmod : 0 <= n mod 10 < 10) by (apply Z.mod_pos_bound; lia).
  assert (Hd : isdigit (digit_char (n mod 10)) = true).
  { apply isdigit_range. rewrite digit_char_lit by exact Hmod. lia. }
  destruct (Z.eqb_spec (n / 10) 0) as [Hz | Hnz].
  - exists [digit_char (n mod 10)].
    split; [reflexivity | ]. split; [discriminate | ].
    split; [repeat constructor; exact Hd | ].
    split; [ | cbn; lia].
    unfold digits_value. cbn [fold_left]. rewrite digit_char_lit by exact Hmod.
    change (lit "0") with 48. pose proof (Z.div_mod n 10). lia.
  - assert (Hdiv : 0 <= n / 10 < 10 ^ Z.of_nat fuel).
    { split; [apply Z.div_pos; lia | ].
      apply Z.div_lt_upper_bound; [lia | ].
      rewrite Nat2Z.inj_succ, Z.pow_succ_r in Hn by lia. lia. }
    assert (Hpos : (0 < fuel)%nat).
    { destruct fuel; [cbn in Hdiv; lia | lia]. }
    destruct (IH (n / 10) (digit_char (n mod 10) :: acc) Hpos Hdiv)
      as (ds & Heq & Hne & Hds & Hval & Hlen).
    exists (ds ++ [digit_char (n mod 10)]).
    split; [rewrite Heq, <- app_assoc; reflexivity | ].
    split; [destruct ds; discriminate | ].
    split; [apply Forall_app; split; [exact Hds | repeat constructor; exact Hd] | ].
    split.
    + rewrite digits_value_snoc, Hval, digit_char_lit by exact Hmod.
      change (lit "0") with 48. pose proof (Z.div_mod n 10). lia.
    + rewrite length_app. cbn [length]. lia.
Qed.

(** What [%d] prints for an [int] is a numeral of that value. *)
Lemma dec_numeral (z : Z) : int_range z -> numeral (dec z) z.
Proof.
  unfold int_range. intros Hz. unfold dec.
  destruct (Z.ltb_spec z 0).
  - destruct (digits_spec 10 (- z) []) as (ds & Heq & Hne & Hds & Hval & _);
      [lia | change (10 ^ Z.of_nat 10) with 10000000000; lia | ].
    rewrite Heq, app_nil_r.
    assert (Hneg : z = - digits_value ds) by lia. rewrite Hneg.
    apply numeral_minus. split; assumption.
  - destruct (digits_spec 10 z []) as (ds & Heq & Hne & Hds & Hval & _);
      [lia | change (10 ^ Z.of_nat 10) with 10000000000; lia | ].
    rewrite Heq, app_nil_r. rewrite <- Hval.
    apply numeral_plain. split; assumption.
Qed.

Lemma numeral_not_R (n : list ascii) (v : Z) :
  numeral n v -> Forall (fun c => c <> "R"%char) n.
Proof.
  intros [ds [_ Hds] | ds [_ Hds] | ds [_ Hds]].
  - apply digits_not_R, Hds.
  - constructor; [discriminate | apply digits_not_R, Hds].
  - constructor; [discriminate | apply digits_not_R, Hds].
Qed.

Lemma int_of_long_int (v : Z) : int_range v -> int_of_long v = v.
Proof.
  unfold int_range. intros Hv. unfold int_of_long.
  rewrite Z.min_r, Z.max_r by lia.
  apply wrap32_small. exact Hv.
Qed.

(** [sscanf] reads back what [%d;%d] prints, whatever follows that is
    not a digit. *)
Lemma parse_reply_report (r c rows cols : Z) :
  int_range r -> int_range c ->
  parse_reply (esc "[" ++ dec r ++ str ";" ++ dec c) rows cols = (0, (r, c)).
Proof.
  intros Hr Hc.
  rewrite (parse_reply_lenient _ rows cols r c).
  - rewrite !int_of_long_int by assumption. reflexivity.
  - exists [], (dec r), [], (dec c), [].
    split; [cbn [esc str list_ascii_of_string app]; rewrite app_nil_r; reflexivity | ].
    split; [constructor | ]. split; [apply dec_numeral; exact Hr | ].
    split; [constructor | ]. split; [apply dec_numeral; exact Hc | exact I].
Qed.

Lemma cursor_report_read (r c : Z) (rest : list read_event) :
  int_range r -> int_range c ->
  reply_bytes 31 (keys (cursor_report r c) ++ rest) = esc "[" ++ dec r ++ str ";" ++ dec c
  /\ reply_rest 31 (keys (cursor_report r c) ++ rest) = rest.
Proof.
  intros Hr Hc.
  assert (Heq : cursor_report r c = (esc "[" ++ dec r ++ str ";" ++ dec c) ++ ["R"%char]).
  { unfold cursor_report. rewrite <- !app_assoc. reflexivity. }
  rewrite Heq. apply reply_bytes_terminated.
  - cbn [esc str list_ascii_of_string app].
    constructor; [discriminate | ]. constructor; [discriminate | ].
    apply Forall_app. split; [apply (numeral_not_R _ r), dec_numeral, Hr | ].
    constructor; [discriminate | ]. apply (numeral_not_R _ c), dec_numeral, Hc.
  - pose proof (dec_length r). pose proof (dec_length c).
    cbn [esc str list_ascii_of_string app length]. rewrite length_app. cbn [length].
    lia.
Qed.

(** ** Starting the editor *)

Lemma reply_rest_length (room : nat) (evs : list read_event) :
  (length evs <= length (reply_rest room evs) + room)%nat.
Proof.
  revert evs. induction room as [ | room IH]; intros evs.
  - destruct evs; cbn; lia.
  - destruct evs as [ | [c | | e] evs]; cbn [reply_rest length]; try lia.
    destruct (Ascii.eqb c "R"); [lia | ]. specialize (IH evs). lia.
Qed.

Section Starting.

Context `{P : platform}.

(** [getCursorPosition] always returns, after at most 31 reads. *)
Lemma getCursorPosition_returns (rows cols : Z) (w : world) :
  exists (status : Z) (out : Z * Z) (w' : world),
    getCursorPosition rows cols w = Ret (status, out) w'
    /\ E w' = E w /\ stderr w' = stderr w /\ tty w' = tty w
    /\ (length (stdin w) <= length (stdin w') + 31)%nat.
Proof.
  unfold getCursorPosition. unfold bind at 1. unfold write.
  destruct (next_fault (write_faults w)) as [[ | ] fs].
  - change (negb (-1 =? 4)) with true. cbv iota.
    eexists _, _, _. split; [reflexivity | ]. cbn. repeat split; lia.
  - change (negb (4 =? 4)) with false. cbv iota.
    set (w1 := set_stdout _ _).
    pose proof (read_reply_spec 31 [] (stdin w1) w1) as Hread.
    unfold feed in Hread at 1. rewrite set_stdin_same in Hread.
    unfold bind at 1. rewrite Hread.
    pose proof (reply_rest_length 31 (stdin w1)) as Hlen.
    assert (Hw1 : E (feed (reply_rest 31 (stdin w1)) w1) = E w
                  /\ stderr (feed (reply_rest 31 (stdin w1)) w1) = stderr w
                  /\ tty (feed (reply_rest 31 (stdin w1)) w1) = tty w
                  /\ (length (stdin w) <=
                      length (stdin (feed (reply_rest 31 (stdin w1)) w1)) + 31)%nat).
    { repeat split; try reflexivity. exact Hlen. }
    destruct (negb _ || negb _).
    + eexists _, _, _. split; [reflexivity | exact Hw1].
    + destruct (sscanf_d_d _ rows cols) as [n out].
      destruct (negb (n =? 2)); eexists _, _, _; (split; [reflexivity | exact Hw1]).
Qed.

(** So does [getWindowSize]. *)
Lemma getWindowSize_returns (rows cols : Z) (w : world) :
  exists (status : Z) (out : Z * Z) (w' : world),
    getWindowSize rows cols w = Ret (status, out) w'
    /\ E w' = E w /\ stderr w' = stderr w /\ tty w' = tty w
    /\ (length (stdin w) <= length (stdin w') + 31)%nat.
Proof.
  assert (Hprobe : exists (status : Z) (out : Z * Z) (w' : world),
             (n <- write (esc "[999C" ++ esc "[999B") 12 ;;
              if negb (n =? 12) then ret (-1, (rows, cols))
              else getCursorPosition rows cols) w = Ret (status, out) w'
             /\ E w' = E w /\ stderr w' = stderr w /\ tty w' = tty w
             /\ (length (stdin w) <= length (stdin w') + 31)%nat).
  { unfold bind at 1. unfold write.
    destruct (next_fault (write_faults w)) as [[ | ] fs].
    - change (negb (-1 =? 12)) with true. cbv iota.
      eexists _, _, _. split; [reflexivity | ]. cbn. repeat split; lia.
    - change (negb (12 =? 12)) with false. cbv iota.
      set (w1 := set_stdout _ _).
      destruct (getCursorPosition_returns rows cols w1)
        as (status & out & w' & Hrun & HE & Herr & Htty & Hlen).
      exists status, out, w'. split; [exact Hrun | ].
      repeat split; assumption. }
  unfold getWindowSize. unfold bind at 1. cbn [get].
  destruct (winsize w) as [[ws_row ws_col] | ]; [ | exact Hprobe].
  destruct (ws_col =? 0); [exact Hprobe | ].
  eexists _, _, _. split; [reflexivity | ]. repeat split; lia.
Qed.

(** X8.  [initEditor] never waits for input: it returns or dies after at
    most 31 reads, none of which is retried. The cursor is at the origin
    either way, the terminal attributes are as they were, and the only
    message is the one of [die]. *)
Theorem initEditor_never_waits (w : world) :
  exists w' : world,
    (initEditor w = Ret tt w' /\ stderr w' = stderr w
     \/ initEditor w = Exit 1 w' /\ stderr w' = stderr w ++ ["getWindowSize"%string])
    /\ cursor_x (E w') = 0 /\ cursor_y (E w') = 0
    /\ tty w' = tty w
    /\ (length (stdin w) <= length (stdin w') + 31)%nat.
Proof.
  unfold initEditor, bind, assign, modify, get.
  match goal with
  | |- context [getWindowSize ?rows ?cols ?w0] =>
      destruct (getWindowSize_returns rows cols w0)
        as (status & [rows' cols'] & w1 & Hrun & HE & Herr & Htty & Hlen);
      rewrite Hrun
  end.
  cbn [E set_E stderr tty stdin] in HE, Herr, Htty, Hlen.
  destruct (negb (status =? 0)); unfold die, bind, perror, modify, exit, ret.
  - eexists. split; [right; split; [reflexivity | ] | ].
    + cbn. rewrite Herr. reflexivity.
    + cbn. rewrite HE, Htty. repeat split; try reflexivity. exact Hlen.
  - eexists. split; [left; split; [reflexivity | ] | ].
    + cbn. rewrite Herr. reflexivity.
    + cbn. rewrite HE, Htty. repeat split; try reflexivity. exact Hlen.
Qed.

Lemma initEditor_ioctl (ws_row ws_col : Z) (w : world) :
  winsize w = Some (ws_row, ws_col) -> ws_col <> 0 ->
  initEditor w = Ret tt (set_E (screen_at ws_row ws_col 0 0) w).
Proof.
  intros Hws Hcol. apply Z.eqb_neq in Hcol.
  unfold initEditor, getWindowSize, bind, assign, modify, get, ret.
  cbn [winsize set_E E]. rewrite Hws, Hcol.
  change (negb (0 =? 0)) with false. cbv iota. reflexivity.
Qed.

(** X9.  When [ioctl] reports a window with columns, [initEditor] takes
    its rows and columns as they are (the rows are not looked at: a window
    of no rows is accepted), puts the cursor at the origin, and neither
    writes nor reads; whatever the state was before is overwritten. *)
Theorem initEditor_from_ioctl (ws_row ws_col : Z) (w : world) :
  winsize w = Some (ws_row, ws_col) -> ws_col <> 0 ->
  exists w' : world,
    initEditor w = Ret tt w'
    /\ E w' = screen_at ws_row ws_col 0 0
    /\ stdout w' = stdout w /\ stdin w' = stdin w
    /\ write_faults w' = write_faults w.
Proof.
  intros Hws Hcol. eexists. split; [apply initEditor_ioctl; eassumption | ].
  repeat split.
Qed.

(** X10.  Without a window size from [ioctl], [initEditor] sends the
    cursor to the far corner, asks where it is, and takes the extent from
    the report: exactly the two numbers, for every pair of [int]s. Nothing
    is checked: a report of zero or negative numbers is taken too. *)
Theorem initEditor_from_report (r c : Z) (rest : list read_event) (w : world) :
  no_winsize w -> write_faults w = [] ->
  int_range r -> int_range c ->
  initEditor (feed (keys (cursor_report r c) ++ rest) w) =
    Ret tt (set_E (screen_at r c 0 0)
              (set_stdout (stdout w ++ esc "[999C" ++ esc "[999B" ++ esc "[6n")
                 (feed rest w))).
Proof.
  intros Hws Hw Hr Hc.
  destruct (cursor_report_read r c rest Hr Hc) as [Hbytes Hrest].
  set (evs := keys (cursor_report r c) ++ rest) in *.
  unfold initEditor. unfold bind at 1. unfold assign at 1, modify at 1.
  unfold bind at 1. unfold assign at 1, modify at 1.
  unfold bind at 1. cbn [get].
  set (e0 := with_cursor_y 0 (with_cursor_x 0 (E (feed evs w)))).
  assert (Hsize : forall w0 : world,
             winsize w0 = winsize w -> write_faults w0 = [] ->
             getWindowSize (screenrows e0) (screencols e0) (feed evs w0) =
               Ret (0, (r, c))
                 (feed rest
                    (set_stdout (stdout w0 ++ esc "[999C" ++ esc "[999B" ++ esc "[6n") w0))).
  { intros w0 Hws0 Hw0.
    assert (Hprobe :
              (n <- write (esc "[999C" ++ esc "[999B") 12 ;;
               if negb (n =? 12) then ret (-1, (screenrows e0, screencols e0))
               else getCursorPosition (screenrows e0) (screencols e0)) (feed evs w0) =
              Ret (0, (r, c))
                (feed rest
                   (set_stdout (stdout w0 ++ esc "[999C" ++ esc "[999B" ++ esc "[6n") w0))).
    { unfold bind at 1. unfold write. cbn [feed set_stdin write_faults stdout].
      rewrite Hw0. cbn [next_fault]. change (negb (12 =? 12)) with false. cbv iota.
      change (take (Z.to_nat 12) (esc "[999C" ++ esc "[999B"))
        with (esc "[999C" ++ esc "[999B").
      assert (Hworld : set_stdout (stdout w0 ++ esc "[999C" ++ esc "[999B")
                         (set_write_faults [] (feed evs w0)) =
                       feed evs (set_stdout (stdout w0 ++ esc "[999C" ++ esc "[999B") w0)).
      { rewrite <- Hw0. destruct w0; reflexivity. }
      rewrite Hworld. rewrite getCursorPosition_run by exact Hw0.
      rewrite Hbytes, Hrest, parse_reply_report by assumption.
      cbn [set_stdout stdout]. unfold feed. cbn [set_stdin set_stdout].
      rewrite <- !app_assoc. reflexivity. }
    unfold getWindowSize. unfold bind at 1. cbn [get feed set_stdin winsize].
    rewrite Hws0. destruct Hws as [-> | [ws_row ->]]; exact Hprobe. }
  unfold bind at 1.
  pose proof (Hsize (set_E e0 w) eq_refl Hw) as Hrun.
  match goal with
  | |- context [getWindowSize ?rows ?cols ?w1] =>
      change (getWindowSize rows cols w1)
        with (getWindowSize (screenrows e0) (screencols e0) (feed evs (set_E e0 w)))
  end.
  rewrite Hrun.
  unfold bind, assign, modify, ret. change (negb (0 =? 0)) with false. cbv iota.
  reflexivity.
Qed.

End Starting.

(** A window of no rows and 100 columns. *)
Lemma initEditor_from_ioctl_witness :
  exists w' : world,
    initEditor (P := linux_x86_64) (boot (P := linux_x86_64) cooked (Some (0, 100)) []) =
      Ret tt w'
    /\ E w' = screen_at 0 100 0 0.
Proof.
  destruct (initEditor_from_ioctl (P := linux_x86_64) 0 100
              (boot (P := linux_x86_64) cooked (Some (0, 100)) []))
    as (w' & Hrun & HE & _).
  - reflexivity.
  - discriminate.
  - exists w'. split; [exact Hrun | exact HE].
Defined.

(** The report of a 24 x 80 terminal, with a key typed behind it. *)
Lemma initEditor_from_report_witness :
  initEditor (P := linux_x86_64)
    (boot (P := linux_x86_64) cooked None (keys (esc "[24;80R") ++ [Byte "q"])) =
    Ret tt (set_E (screen_at 24 80 0 0)
              (set_stdout (esc "[999C" ++ esc "[999B" ++ esc "[6n")
                 (boot (P := linux_x86_64) cooked None [Byte "q"]))).
Proof.
  apply (initEditor_from_report (P := linux_x86_64) 24 80 [Byte "q"]
           (boot (P := linux_x86_64) cooked None [])).
  - left. reflexivity.
  - reflexivity.
  - unfold int_range. lia.
  - unfold int_range. lia.
Defined.

(** ** Entering raw mode twice *)

Section RawTwice.

Context `{P : platform}.

(** X11.  [raw_of] changes nothing on attributes it has produced: a
    terminal that is in raw mode already is left as it is. *)
Theorem raw_of_idempotent (t : termios) : raw_of (raw_of t) = raw_of t.
Proof.
  unfold raw_of. cbn [c_iflag c_oflag c_cflag c_lflag c_line c_cc c_ispeed c_ospeed].
  f_equal.
  - rewrite <- Z.land_assoc, Z.land_diag. reflexivity.
  - rewrite <- Z.land_assoc, Z.land_diag. reflexivity.
  - rewrite <- Z.lor_assoc, Z.lor_diag. reflexivity.
  - rewrite <- Z.land_assoc, Z.land_diag. reflexivity.
  - destruct (Nat.eq_dec VMIN VTIME) as [Heq | Hne].
    + rewrite Heq. rewrite !list_insert_insert_eq. reflexivity.
    + rewrite (list_insert_insert_ne _ VMIN VTIME) by exact Hne.
      rewrite !list_insert_insert_eq. reflexivity.
Qed.

End RawTwice.

(** ** When raw mode cannot be entered *)

Section Refused.

Context `{P : platform}.

Lemma enableRawMode_exits (w w1 : world) (status : Z) :
  enableRawMode w = Exit status w1 ->
  status = 1 /\ tty w1 = tty w /\ stdout w1 = stdout w /\ stdin w1 = stdin w
  /\ (stderr w1 = stderr w ++ ["tcgetattr"%string]
      /\ atexit_disableRawMode w1 = atexit_disableRawMode w
      /\ orig_termios w1 = orig_termios w
      \/ stderr w1 = stderr w ++ ["tcsetattr"%string]
         /\ atexit_disableRawMode w1 = true
         /\ orig_termios w1 = tty w).
Proof.
  unfold enableRawMode, bind, tcgetattr_orig, tcsetattr, die, perror, modify, get, exit, ret.
  destruct (next_fault (tc_faults w)) as [[ | ] fs]; cbn.
  - intros H. injection H as <- <-. cbn. repeat split. left. repeat split.
  - destruct (next_fault fs) as [[ | ] fs']; cbn; [ | discriminate].
    intros H. injection H as <- <-. cbn. repeat split. right. repeat split.
Qed.

(** X12.  When [enableRawMode] fails, the process is over before anything
    is drawn or printed: status 1, the message of the call that failed,
    and the terminal attributes as they were found. The handler is only
    registered once the snapshot is taken, so a failed [tcgetattr] never
    leads to a restore from an empty snapshot. *)
Theorem raw_mode_refused (w w1 : world) (status : Z) :
  enableRawMode w = Exit status w1 ->
  atexit_disableRawMode w = false ->
  status = 1
  /\ (stderr w1 = stderr w ++ ["tcgetattr"%string] /\ atexit_disableRawMode w1 = false
      \/ stderr w1 = stderr w ++ ["tcsetattr"%string]
         /\ atexit_disableRawMode w1 = true /\ orig_termios w1 = tty w)
  /\ forall program : world -> result unit,
       In program [run; KeyPrinter.run] ->
       exists w' : world,
         program w = Exit 1 w' /\ tty w' = tty w /\ stdout w' = stdout w.
Proof.
  intros Hrun Hfresh.
  destruct (enableRawMode_exits w w1 status Hrun) as (-> & Htty & Hout & _ & Hcase).
  split; [reflexivity | ].
  split.
  { destruct Hcase as [(Herr & Hreg & _) | (Herr & Hreg & Horig)].
    - left. split; [exact Herr | congruence].
    - right. repeat split; assumption. }
  assert (Hprocess : forall rest : M Z,
             exists w' : world,
               process (enableRawMode ;; rest) w = Exit 1 w'
               /\ tty w' = tty w /\ stdout w' = stdout w).
  { intros rest. unfold process. unfold bind at 1. rewrite Hrun.
    unfold run_atexit, bind, get.
    destruct Hcase as [(_ & Hreg & _) | (_ & Hreg & Horig)].
    - rewrite Hreg, Hfresh. cbn [ret]. exists w1. repeat split; assumption.
    - rewrite Hreg. unfold disableRawMode, bind, get, tcsetattr, die, bind, perror,
        modify, exit, ret.
      destruct (next_fault (tc_faults w1)) as [[ | ] fs]; cbn.
      + eexists. split; [reflexivity | ]. cbn. split; assumption.
      + eexists. split; [reflexivity | ]. cbn. split; [congruence | assumption]. }
  intros program [<- | [<- | []]]; apply Hprocess.
Qed.

End Refused.

(** The first attribute call fails. *)
Lemma raw_mode_refused_witness :
  exists w' : world,
    run (P := linux_x86_64)
      (set_tc_faults [true] (boot (P := linux_x86_64) cooked (Some (24, 80)) [Byte "q"])) =
      Exit 1 w'
    /\ tty w' = cooked /\ stdout w' = [].
Proof.
  destruct (raw_mode_refused (P := linux_x86_64)
              (set_tc_faults [true] (boot (P := linux_x86_64) cooked (Some (24, 80)) [Byte "q"]))
              _ _ eq_refl eq_refl) as (_ & _ & Hprogram).
  destruct (Hprogram (run (P := linux_x86_64)) (or_introl eq_refl)) as (w' & Hrun & Htty & Hout).
  exists w'. split; [exact Hrun | ]. split; assumption.
Defined.

(** ** How the programs end *)

Lemma loud_ret {A : Type} (a : A) : dies_loudly (ret a).
Proof. intros w. reflexivity. Qed.

Lemma loud_get {A : Type} (f : world -> A) : dies_loudly (get f).
Proof. intros w. reflexivity. Qed.

Lemma loud_hang {A : Type} : dies_loudly (fun w => Hang (A := A) w).
Proof. intros w. reflexivity. Qed.

Lemma loud_bind {A B : Type} (m : M A) (k : A -> M B) :
  dies_loudly m -> (forall a, dies_loudly (k a)) -> dies_loudly (bind m k).
Proof.
  intros Hm Hk w. unfold bind. specialize (Hm w).
  destruct (m w) as [a w1 | s w1 | w1]; [ | exact Hm | exact Hm].
  specialize (Hk a w1). rewrite <- Hm.
  destruct (k a w1) as [b' w2 | s w2 | w2]; exact Hk.
Qed.

Lemma loud_quiet {A : Type} (m : M A) :
  (forall w, exists a w', m w = Ret a w' /\ stderr w' = stderr w) -> dies_loudly m.
Proof. intros Hm w. destruct (Hm w) as (a & w' & -> & H). exact H. Qed.

Lemma loud_output {A : Type} (m : M A) : returns_with only_output m -> dies_loudly m.
Proof.
  intros Hm. apply loud_quiet. intros w.
  destruct (Hm w) as (a & w' & Hrun & _ & _ & _ & Herr & _).
  exists a, w'. split; assumption.
Qed.

Lemma read_loud : dies_loudly read.
Proof. intros w. unfold read. destruct (stdin w); reflexivity. Qed.

Lemma tcsetattr_loud (t : termios) : dies_loudly (tcsetattr t).
Proof.
  intros w. unfold tcsetattr. destruct (next_fault (tc_faults w)) as [[ | ] fs]; reflexivity.
Qed.

Lemma tcgetattr_orig_loud : dies_loudly tcgetattr_orig.
Proof.
  intros w. unfold tcgetattr_orig.
  destruct (next_fault (tc_faults w)) as [[ | ] fs]; reflexivity.
Qed.

Lemma modify_loud (f : world -> world) :
  (forall w, stderr (f w) = stderr w) -> dies_loudly (modify f).
Proof. intros Hf w. apply Hf. Qed.

Lemma assign_loud (f : Z -> editorState -> editorState) (v : Z) : dies_loudly (assign f v).
Proof. apply modify_loud. reflexivity. Qed.

Lemma returns_only_ret {A : Type} (v : A) : returns_only v (ret v).
Proof. intros w a w' H. injection H as <- _. reflexivity. Qed.

Lemma returns_only_bind {A B : Type} (v : B) (m : M A) (k : A -> M B) :
  (forall a, returns_only v (k a)) -> returns_only v (bind m k).
Proof.
  intros Hk w b' w'. unfold bind.
  destruct (m w) as [a w1 | s w1 | w1]; [apply Hk | discriminate | discriminate].
Qed.

Ltac loud_step :=
  first
    [ apply loud_ret
    | apply loud_get
    | apply loud_hang
    | assumption
    | solve [auto]
    | apply loud_bind; [ | intros ? ]
    | match goal with
      | |- dies_loudly (if ?c then _ else _) => destruct c
      | |- dies_loudly (let '(_, _) := ?p in _) => destruct p
      | |- dies_loudly (match ?p with _ => _ end) => destruct p
      end ].

Ltac loud_auto := repeat loud_step.

Section Endings.

Context `{P : platform}.

Lemma die_loud {A : Type} (s : string) : In s die_messages -> dies_loudly (die (A := A) s).
Proof.
  intros Hs w. unfold die, bind, perror, modify, exit. cbn.
  split; [reflexivity | ]. exists s. split; [exact Hs | reflexivity].
Qed.

Lemma die_loud_tcgetattr {A : Type} : dies_loudly (die (A := A) "tcgetattr").
Proof. apply die_loud. cbn. tauto. Qed.

Lemma die_loud_tcsetattr {A : Type} : dies_loudly (die (A := A) "tcsetattr").
Proof. apply die_loud. cbn. tauto. Qed.

Lemma die_loud_read {A : Type} : dies_loudly (die (A := A) "read").
Proof. apply die_loud. cbn. tauto. Qed.

Lemma die_loud_getWindowSize {A : Type} : dies_loudly (die (A := A) "getWindowSize").
Proof. apply die_loud. cbn. tauto. Qed.

Lemma disableRawMode_loud : dies_loudly disableRawMode.
Proof.
  pose proof tcsetattr_loud. pose proof (@die_loud_tcsetattr unit).
  unfold disableRawMode. loud_auto.
Qed.

Lemma enableRawMode_loud : dies_loudly enableRawMode.
Proof.
  pose proof tcsetattr_loud. pose proof tcgetattr_orig_loud.
  pose proof (@die_loud_tcsetattr unit). pose proof (@die_loud_tcgetattr unit).
  assert (dies_loudly (modify (set_atexit true))) by (apply modify_loud; reflexivity).
  unfold enableRawMode. loud_auto.
Qed.

Lemma read_byte_loud (fuel : nat) : dies_loudly (read_byte fuel).
Proof.
  pose proof read_loud. pose proof (@die_loud_read ascii).
  induction fuel as [ | fuel IH]; cbn [read_byte]; loud_auto.
Qed.

Lemma readKey_loud : dies_loudly readKey.
Proof.
  pose proof read_loud. pose proof read_byte_loud.
  unfold readKey. loud_auto.
Qed.

Lemma read_reply_loud (fuel : nat) (buf : list ascii) : dies_loudly (read_reply fuel buf).
Proof.
  pose proof read_loud.
  revert buf. induction fuel as [ | fuel IH]; intros buf; cbn [read_reply]; loud_auto.
Qed.

Lemma getWindowSize_loud (rows cols : Z) : dies_loudly (getWindowSize rows cols).
Proof.
  pose proof read_reply_loud.
  pose proof (fun s n => loud_output _ (write_output s n)) as Hwrite.
  assert (Hcursor : forall rows cols, dies_loudly (getCursorPosition rows cols)).
  { intros r c. unfold getCursorPosition. loud_auto. }
  unfold getWindowSize. loud_auto.
Qed.

Lemma initEditor_loud : dies_loudly initEditor.
Proof.
  pose proof getWindowSize_loud. pose proof assign_loud.
  pose proof (@die_loud_getWindowSize unit).
  unfold initEditor. loud_auto.
Qed.

Lemma moveCursor_loud (key : Z) : dies_loudly (moveCursor key).
Proof. pose proof assign_loud. unfold moveCursor. loud_auto. Qed.

Lemma main_loop_loud (fuel : nat) : dies_loudly (main_loop fuel).
Proof.
  pose proof readKey_loud. pose proof moveCursor_loud.
  pose proof (loud_output _ refreshScreen_output).
  pose proof (loud_output _ clearScreen_output).
  induction fuel as [ | fuel IH]; cbn [main_loop]; loud_auto.
Qed.

Lemma main_loud : dies_loudly main.
Proof.
  pose proof enableRawMode_loud. pose proof initEditor_loud. pose proof main_loop_loud.
  pose proof (fun s => loud_output _ (printf_output s)).
  unfold main. loud_auto.
Qed.

Lemma key_printer_loop_loud (fuel : nat) : dies_loudly (KeyPrinter.main_loop fuel).
Proof.
  pose proof read_loud. pose proof (@die_loud_read unit).
  pose proof (fun s => loud_output _ (printf_output s)) as Hprintf.
  assert (Hkey : forall c, dies_loudly (KeyPrinter.printKeyInfo c)).
  { intros c. unfold KeyPrinter.printKeyInfo. loud_auto. }
  induction fuel as [ | fuel IH]; cbn [KeyPrinter.main_loop]; loud_auto.
Qed.

Lemma key_printer_main_loud : dies_loudly KeyPrinter.main.
Proof.
  pose proof enableRawMode_loud. pose proof key_printer_loop_loud.
  pose proof (fun s => loud_output _ (printf_output s)).
  unfold KeyPrinter.main. loud_auto.
Qed.

Lemma main_returns_zero : returns_only 0 main.
Proof. unfold main. repeat (apply returns_only_bind; intros ?). apply returns_only_ret. Qed.

Lemma key_printer_main_returns_zero : returns_only 0 KeyPrinter.main.
Proof.
  unfold KeyPrinter.main. repeat (apply returns_only_bind; intros ?).
  apply returns_only_ret.
Qed.

(** The handlers of [exit] never wait. *)
Lemma run_atexit_returns (w w' : world) : run_atexit w <> Hang w'.
Proof.
  unfold run_atexit, disableRawMode, bind, get, tcsetattr, die, bind, perror, modify,
    exit, ret.
  destruct (atexit_disableRawMode w); [ | discriminate].
  destruct (next_fault (tc_faults w)) as [[ | ] fs]; discriminate.
Qed.

Lemma process_ends_properly (body : M Z) (w : world) :
  dies_loudly body -> returns_only 0 body -> ends_properly w (process body w).
Proof.
  intros Hloud Hzero. unfold process. specialize (Hloud w). specialize (Hzero w).
  assert (Hexit : dies_loudly run_atexit).
  { pose proof disableRawMode_loud. unfold run_atexit. loud_auto. }
  destruct (body w) as [status w1 | status w1 | w1]; [ | | exact Hloud].
  - rewrite (Hzero status w1 eq_refl). specialize (Hexit w1).
    destruct (run_atexit w1) as [[] w2 | s w2 | w2]; cbn.
    + left. split; [reflexivity | congruence].
    + destruct Hexit as (-> & msg & Hmsg & Herr). right. split; [reflexivity | ].
      exists [msg]. split; [cbn; lia | ]. split; [constructor; [exact Hmsg | constructor] | ].
      congruence.
    + congruence.
  - destruct Hloud as (-> & msg & Hmsg & Herr). specialize (Hexit w1).
    destruct (run_atexit w1) as [[] w2 | s w2 | w2] eqn:Hhandler; cbn.
    + right. split; [reflexivity | ].
      exists [msg]. split; [cbn; lia | ]. split; [constructor; [exact Hmsg | constructor] | ].
      congruence.
    + destruct Hexit as (-> & msg' & Hmsg' & Herr'). right. split; [reflexivity | ].
      exists [msg; msg']. split; [cbn; lia | ].
      split; [constructor; [exact Hmsg | constructor; [exact Hmsg' | constructor]] | ].
      rewrite Herr', Herr, <- app_assoc. reflexivity.
    + exfalso. exact (run_atexit_returns w1 w2 Hhandler).
Qed.

End Endings.

(** ** The key printer *)

Lemma chr_lit (c : ascii) : KeyPrinter.chr (lit c) = c.
Proof.
  unfold KeyPrinter.chr. pose proof (lit_bounds c).
  rewrite Z.mod_small by lia. unfold lit. rewrite N2Z.id. apply ascii_N_embedding.
Qed.

Lemma chr_caret (c : ascii) :
  lit c < 128 -> KeyPrinter.chr (lit c + 64) = ascii_of_N (N_of_ascii c + 64).
Proof.
  intros Hc. unfold KeyPrinter.chr. pose proof (lit_bounds c).
  rewrite Z.mod_small by lia. unfold lit in *. f_equal. lia.
Qed.

Section KeyPrinterFacts.

Context `{P : platform}.

Lemma printKeyInfo_line (c : ascii) (w : world) :
  KeyPrinter.printKeyInfo (lit c) w = Ret tt (set_stdout (stdout w ++ key_line c) w).
Proof.
  unfold KeyPrinter.printKeyInfo, KeyPrinter.iscntrl, key_line, printf, modify.
  destruct ((lit c <? 32) || (lit c =? 127)) eqn:Hcntrl.
  - rewrite chr_caret; [reflexivity | ].
    apply orb_true_iff in Hcntrl. destruct Hcntrl as [H | H]; lia.
  - rewrite chr_lit. reflexivity.
Qed.

(** One turn of the loop on a read that does not end it. *)
Lemma key_printer_turn (fuel : nat) (ev : read_event) (evs : list read_event) (w : world) :
  goes_on ev ->
  KeyPrinter.main_loop (S fuel) (feed (ev :: evs) w) =
    KeyPrinter.main_loop fuel (feed evs (set_stdout (stdout w ++ shown ev) w)).
Proof.
  intros Hev. cbn [KeyPrinter.main_loop]. unfold bind at 1. cbn [read feed set_stdin stdin].
  assert (Hsame : set_stdout (stdout w ++ []) w = w).
  { rewrite app_nil_r. destruct w; reflexivity. }
  destruct ev as [c | | errno]; cbn [goes_on shown] in *.
  - unfold bind at 1. cbn [ret]. unfold bind at 1.
    rewrite lit_eqb.
    destruct (Ascii.eqb_spec c NUL) as [-> | Hnul]; cbn [negb ret].
    + rewrite Hsame. reflexivity.
    + rewrite printKeyInfo_line. rewrite lit_eqb.
      apply Ascii.eqb_neq in Hev. rewrite Hev. reflexivity.
  - unfold bind at 1. cbn [ret]. unfold bind at 1.
    change (negb (lit NUL =? lit NUL)) with false. cbv iota. cbn [ret].
    change (lit NUL =? lit "q") with false. cbv iota.
    rewrite Hsame. reflexivity.
  - subst errno. rewrite Z.eqb_refl. cbn [negb].
    unfold bind at 1. cbn [ret]. unfold bind at 1.
    change (negb (lit NUL =? lit NUL)) with false. cbv iota. cbn [ret].
    change (lit NUL =? lit "q") with false. cbv iota.
    rewrite Hsame. reflexivity.
Qed.

Lemma key_printer_loop_run (fuel : nat) (evs rest : list read_event) (w : world) :
  Forall goes_on evs -> (length evs < fuel)%nat ->
  KeyPrinter.main_loop fuel (feed (evs ++ Byte "q" :: rest) w) =
    Ret tt (feed rest
              (set_stdout (stdout w ++ flat_map shown evs ++ key_line "q") w)).
Proof.
  intros Hevs. revert fuel w. induction Hevs as [ | ev evs Hev _ IH]; intros fuel w Hfuel.
  - destruct fuel as [ | fuel]; [cbn in Hfuel; lia | ].
    cbn [app flat_map KeyPrinter.main_loop]. unfold bind at 1. cbn [read feed set_stdin stdin].
    unfold bind at 1. cbn [ret]. unfold bind at 1.
    change (negb (lit "q" =? lit NUL)) with true. cbv iota.
    rewrite (printKeyInfo_line "q"). rewrite Z.eqb_refl. reflexivity.
  - destruct fuel as [ | fuel]; [cbn in Hfuel; lia | ].
    cbn [app flat_map]. rewrite key_printer_turn by exact Hev.
    rewrite IH by (cbn [length] in Hfuel; lia).
    cbn [set_stdout stdout]. unfold feed. cbn [set_stdin set_stdout].
    rewrite <- !app_assoc. reflexivity.
Qed.

(** X14.  The key printer, from a terminal whose attribute calls succeed:
    the header, then one line for every byte read that is not [NUL] (a
    [NUL] byte, which Ctrl-@ sends, is taken for no key at all), reads
    without a byte passed over, up to and including the line of the first
    [q]; then the farewell. The status is 0, the terminal has its
    attributes again, and what was typed behind the [q] is unread. *)
Theorem key_printer_prints_each_key (evs rest : list read_event) (w : world) :
  tc_faults w = [] ->
  Forall goes_on evs ->
  exists w' : world,
    KeyPrinter.run (feed (evs ++ Byte "q" :: rest) w) = Exit 0 w'
    /\ stdout w' =
         stdout w ++ key_printer_header ++ flat_map shown evs ++ key_line "q"
           ++ key_printer_farewell
    /\ stdin w' = rest
    /\ tty w' = tty w
    /\ stderr w' = stderr w.
Proof.
  intros Hf Hevs.
  unfold KeyPrinter.run, process, KeyPrinter.main.
  unfold bind at 1. rewrite enableRawMode_ok by exact Hf.
  unfold bind at 1. unfold printf at 1, modify at 1.
  unfold bind at 1. unfold printf at 1, modify at 1.
  unfold bind at 1. unfold printf at 1, modify at 1.
  unfold bind at 1. cbn [get].
  cbn [stdin stdout tty set_stdout set_tty set_atexit set_orig_termios feed set_stdin].
  unfold bind at 1.
  match goal with
  | |- context [KeyPrinter.main_loop _ ?w0] =>
      let out := eval cbn [stdout] in (stdout w0) in
      change w0
        with (feed (evs ++ Byte "q" :: rest)
                (set_stdout out
                   (set_tty (raw_of (tty w))
                      (set_atexit true (set_orig_termios (tty w) w)))))
  end.
  rewrite key_printer_loop_run by (try exact Hevs; rewrite length_app; cbn; lia).
  unfold bind at 1. unfold printf at 1, modify at 1. cbn [ret].
  unfold run_atexit, bind, get. cbn [atexit_disableRawMode feed set_stdin set_stdout].
  rewrite disableRawMode_ok by exact Hf.
  eexists. split; [reflexivity | ].
  cbn. unfold key_printer_header, key_printer_farewell.
  rewrite <- !app_assoc. repeat split.
Qed.

Lemma key_printer_loop_error (fuel : nat) (evs rest : list read_event) (errno : Z)
    (w : world) :
  Forall goes_on evs -> (length evs < fuel)%nat -> errno <> EAGAIN ->
  KeyPrinter.main_loop fuel (feed (evs ++ Error errno :: rest) w) =
    Exit 1 (set_stderr (stderr w ++ ["read"%string])
              (feed rest (set_stdout (stdout w ++ flat_map shown evs) w))).
Proof.
  intros Hevs. revert fuel w. induction Hevs as [ | ev evs Hev _ IH]; intros fuel w Hfuel Herr.
  - destruct fuel as [ | fuel]; [cbn in Hfuel; lia | ].
    cbn [app flat_map KeyPrinter.main_loop]. unfold bind at 1. cbn [read feed set_stdin stdin].
    apply Z.eqb_neq in Herr. rewrite Herr. cbn [negb].
    unfold bind at 1. unfold die, bind, perror, modify, exit.
    rewrite app_nil_r. destruct w; reflexivity.
  - destruct fuel as [ | fuel]; [cbn in Hfuel; lia | ].
    cbn [app flat_map]. rewrite key_printer_turn by exact Hev.
    rewrite IH by (try exact Herr; cbn [length] in Hfuel; lia).
    cbn [set_stdout stdout]. unfold feed. cbn [set_stdin set_stdout].
    rewrite <- !app_assoc. reflexivity.
Qed.

(** X15.  A read that fails with anything but [EAGAIN] ends the key
    printer through [die]: the lines of the keys before it are out, the
    message is [read], the status 1, and the handler of [exit] has put the
    terminal attributes back. *)
Theorem key_printer_read_error (evs rest : list read_event) (errno : Z) (w : world) :
  tc_faults w = [] ->
  Forall goes_on evs -> errno <> EAGAIN ->
  exists w' : world,
    KeyPrinter.run (feed (evs ++ Error errno :: rest) w) = Exit 1 w'
    /\ stdout w' = stdout w ++ key_printer_header ++ flat_map shown evs
    /\ stderr w' = stderr w ++ ["read"%string]
    /\ stdin w' = rest
    /\ tty w' = tty w.
Proof.
  intros Hf Hevs Herr.
  unfold KeyPrinter.run, process, KeyPrinter.main.
  unfold bind at 1. rewrite enableRawMode_ok by exact Hf.
  unfold bind at 1. unfold printf at 1, modify at 1.
  unfold bind at 1. unfold printf at 1, modify at 1.
  unfold bind at 1. unfold printf at 1, modify at 1.
  unfold bind at 1. cbn [get].
  cbn [stdin stdout tty set_stdout set_tty set_atexit set_orig_termios feed set_stdin].
  unfold bind at 1.
  match goal with
  | |- context [KeyPrinter.main_loop _ ?w0] =>
      let out := eval cbn [stdout] in (stdout w0) in
      change w0
        with (feed (evs ++ Error errno :: rest)
                (set_stdout out
                   (set_tty (raw_of (tty w))
                      (set_atexit true (set_orig_termios (tty w) w)))))
  end.
  rewrite key_printer_loop_error
    by (try exact Hevs; try exact Herr; rewrite length_app; cbn; lia).
  unfold run_atexit, bind, get.
  cbn [atexit_disableRawMode feed set_stdin set_stdout set_stderr].
  rewrite disableRawMode_ok by exact Hf.
  eexists. split; [reflexivity | ].
  cbn. unfold key_printer_header.
  rewrite <- !app_assoc. repeat split.
Qed.

End KeyPrinterFacts.

(** The keys [a] and Ctrl-A, a timeout and a [NUL] byte between them,
    then [q]. *)
Lemma key_printer_prints_each_key_witness :
  exists w' : world,
    KeyPrinter.run (P := linux_x86_64)
      (boot (P := linux_x86_64) cooked None
         [Byte "a"; Timeout; Byte "001"; Byte NUL; Byte "q"; Byte "x"]) = Exit 0 w'
    /\ stdout w' =
         key_printer_header
           ++ str "97 ('a')" ++ [CR; LF] ++ str "1 (^A)" ++ [CR; LF]
           ++ str "113 ('q')" ++ [CR; LF] ++ key_printer_farewell
    /\ stdin w' = [Byte "x"]
    /\ tty w' = cooked.
Proof.
  destruct (key_printer_prints_each_key (P := linux_x86_64)
              [Byte "a"; Timeout; Byte "001"; Byte NUL] [Byte "x"]
              (boot (P := linux_x86_64) cooked None []))
    as (w' & Hrun & Hout & Hin & Htty & _).
  - reflexivity.
  - repeat constructor; discriminate.
  - exists w'. split; [exact Hrun | ]. split; [exact Hout | ]. split; assumption.
Defined.

(** [EIO] (5) behind the key [a]. *)
Lemma key_printer_read_error_witness :
  exists w' : world,
    KeyPrinter.run (P := linux_x86_64)
      (boot (P := linux_x86_64) cooked None [Byte "a"; Error 5]) = Exit 1 w'
    /\ stdout w' = key_printer_header ++ str "97 ('a')" ++ [CR; LF]
    /\ stderr w' = ["read"%string]
    /\ tty w' = cooked.
Proof.
  destruct (key_printer_read_error (P := linux_x86_64)
              [Byte "a"] [] 5 (boot (P := linux_x86_64) cooked None []))
    as (w' & Hrun & Hout & Herr & _ & Htty).
  - reflexivity.
  - repeat constructor; discriminate.
  - discriminate.
  - exists w'. split; [exact Hrun | ]. split; [exact Hout | ]. split; assumption.
Defined.

(** ** Key codes *)

Lemma escape_key_range (evs : list read_event) :
  In (fst (escape_key evs)) special_keys \/ fst (escape_key evs) = KEY_ESC.
Proof.
  unfold escape_key.
  repeat match goal with
         | |- context [match ?x with _ => _ end] => destruct x
         end;
    cbn [fst]; first [right; reflexivity | left; cbn; tauto].
Qed.

Section KeyCodes.

Context `{P : platform}.

(** What the first loop of [readKey] has read when it returns. *)
Lemma read_byte_inv (fuel : nat) (w w' : world) (c : ascii) :
  read_byte fuel w = Ret c w' ->
  exists pre rest : list read_event,
    stdin w = pre ++ Byte c :: rest /\ Forall retried pre /\ w' = feed rest w.
Proof.
  revert w. induction fuel as [ | fuel IH]; intros w; cbn [read_byte]; [discriminate | ].
  unfold bind, read.
  destruct (stdin w) as [ | ev evs] eqn:Hin.
  - intros H. destruct (IH w H) as (pre & rest & Hstdin & _). rewrite Hin in Hstdin.
    destruct pre; discriminate Hstdin.
  - assert (Hnext : retried ev ->
                    read_byte fuel (set_stdin evs w) = Ret c w' ->
                    exists pre rest : list read_event,
                      ev :: evs = pre ++ Byte c :: rest /\ Forall retried pre
                      /\ w' = feed rest w).
    { intros Hev H. destruct (IH _ H) as (pre & rest & Hstdin & Hpre & ->).
      cbn [set_stdin stdin] in Hstdin. exists (ev :: pre), rest.
      split; [rewrite Hstdin; reflexivity | ].
      split; [constructor; assumption | reflexivity]. }
    destruct ev as [c0 | | errno].
    + intros H. injection H as <- <-. exists [], evs.
      split; [reflexivity | ]. split; [constructor | reflexivity].
    + apply Hnext. left. reflexivity.
    + destruct (Z.eqb_spec errno EAGAIN) as [-> | Hne]; cbn [negb].
      * apply Hnext. right. reflexivity.
      * unfold die, bind, perror, modify, exit. discriminate.
Qed.

(** X16.  Whenever [readKey] returns, the key is one of the nine special
    codes (1000 to 1008), and then an [ESC] byte was read, or it is the
    value of a byte, between -128 and 255: the codes cannot be taken for
    bytes, nor bytes for codes. *)
Theorem readKey_range (w w' : world) (key : Z) :
  readKey w = Ret key w' ->
  (In key special_keys /\ 1000 <= key <= 1008
   /\ exists pre rest : list read_event,
        stdin w = pre ++ Byte ESC :: rest /\ Forall retried pre)
  \/ (-128 <= key <= 255
      /\ exists (pre rest : list read_event) (c : ascii),
           stdin w = pre ++ Byte c :: rest /\ Forall retried pre
           /\ (key = int_of_char c \/ key = KEY_ESC)).
Proof.
  intros Hrun.
  assert (Hfirst : exists (c : ascii) (w0 : world),
             read_byte (length (stdin w)) w = Ret c w0).
  { unfold readKey in Hrun. unfold bind at 1 in Hrun. cbn [get] in Hrun.
    unfold bind at 1 in Hrun.
    destruct (read_byte (length (stdin w)) w) as [c w0 | | ]; try discriminate.
    exists c, w0. reflexivity. }
  destruct Hfirst as (c & w0 & Hbyte).
  destruct (read_byte_inv _ _ _ _ Hbyte) as (pre & rest & Hstdin & Hpre & _).
  rewrite <- (set_stdin_same w), Hstdin in Hrun. fold (feed (pre ++ Byte c :: rest) w) in Hrun.
  destruct (Ascii.eqb_spec c ESC) as [-> | Hplain].
  - rewrite (readKey_escape pre rest w Hpre) in Hrun. injection Hrun as <- _.
    destruct (escape_key_range rest) as [Hspecial | Hesc].
    + left. split; [exact Hspecial | ].
      split; [ | exists pre, rest; split; assumption].
      cbn in Hspecial.
      repeat destruct Hspecial as [<- | Hspecial]; try (vm_compute; split; discriminate).
      destruct Hspecial.
    + right. rewrite Hesc. split; [vm_compute; split; discriminate | ].
      exists pre, rest, ESC. split; [exact Hstdin | ]. split; [exact Hpre | ].
      right. reflexivity.
  - rewrite (readKey_byte pre rest c w Hpre Hplain) in Hrun. injection Hrun as <- _.
    right. split; [apply int_of_char_range | ].
    exists pre, rest, c. split; [exact Hstdin | ]. split; [exact Hpre | ].
    left. reflexivity.
Qed.

(** X17.  After any number of retried reads, a byte other than [ESC] is
    the key itself: [readKey] returns the [int] the [char] promotes to (on
    a platform with a signed [char] the bytes from 0x80 on give negative
    keys) and reads no further. That value is never [KEY_ESC] and never a
    special code. *)
Theorem readKey_plain_byte (pre rest : list read_event) (c : ascii) (w : world) :
  Forall retried pre -> c <> ESC ->
  readKey (feed (pre ++ Byte c :: rest) w) = Ret (int_of_char c) (feed rest w)
  /\ (lit c < 128 -> int_of_char c = lit c)
  /\ (128 <= lit c -> int_of_char c = if char_signed then lit c - 256 else lit c)
  /\ int_of_char c <> KEY_ESC
  /\ ~ In (int_of_char c) special_keys.
Proof.
  intros Hpre Hc.
  split; [apply readKey_byte; assumption | ].
  pose proof (lit_bounds c) as Hlit. pose proof (int_of_char_range c) as Hrange.
  split.
  { intros Hlow. unfold int_of_char. cbv zeta.
    destruct (Z.leb_spec 128 (lit c)); [lia | reflexivity]. }
  split.
  { intros Hhigh. unfold int_of_char. cbv zeta.
    destruct (Z.leb_spec 128 (lit c)); [reflexivity | lia]. }
  split.
  - intros Heq. apply Hc. apply lit_inj.
    apply Z.eqb_eq. rewrite lit_eqb.
    rewrite <- (int_of_char_eqb c ESC) by (vm_compute; reflexivity).
    apply Z.eqb_eq. exact Heq.
  - unfold special_keys, KEY_UP, KEY_DOWN, KEY_RIGHT, KEY_LEFT, KEY_PAGE_UP,
      KEY_PAGE_DOWN, KEY_HOME, KEY_END, KEY_DEL. cbn [In]. lia.
Qed.

End KeyCodes.

(** The byte 0xE4 on a platform where [char] is signed: the key is -28. *)
Lemma readKey_plain_byte_witness :
  readKey (P := linux_x86_64)
    (feed [Byte "228"] (at_loop (P := linux_x86_64) 24 80 [])) =
  Ret (-28) (feed [] (at_loop (P := linux_x86_64) 24 80 [])).
Proof.
  destruct (readKey_plain_byte (P := linux_x86_64) [] [] "228"
              (at_loop (P := linux_x86_64) 24 80 [])) as [Hrun _].
  - constructor.
  - discriminate.
  - exact Hrun.
Defined.

(** Page Up typed on a 24 x 80 screen. *)
Lemma readKey_range_witness :
  exists w' : world,
    readKey (P := linux_x86_64) (at_loop (P := linux_x86_64) 24 80 (keys (esc "[5~"))) =
      Ret KEY_PAGE_UP w'
    /\ 1000 <= KEY_PAGE_UP <= 1008.
Proof.
  eexists. split; [reflexivity | ].
  destruct (readKey_range (P := linux_x86_64)
              (at_loop (P := linux_x86_64) 24 80 (keys (esc "[5~"))) _ _ eq_refl)
    as [(_ & Hrange & _) | (Hrange & _)].
  - exact Hrange.
  - vm_compute in Hrange. destruct Hrange as [_ Hle]. exfalso. apply Hle. reflexivity.
Defined.

(** ** Sessions *)

Lemma escape_table_decoded (entry : string * Z) (rest : list read_event) :
  In entry escape_table ->
  escape_key (keys (str (fst entry)) ++ rest) = (snd entry, rest).
Proof.
  intros Hin. cbn in Hin.
  repeat destruct Hin as [<- | Hin]; try reflexivity. destruct Hin.
Qed.

Lemma escape_table_special (entry : string * Z) :
  In entry escape_table -> In (snd entry) special_keys.
Proof.
  intros Hin. cbn in Hin.
  repeat destruct Hin as [<- | Hin]; cbn; tauto.
Qed.

Lemma press_effect_kept (e : editorState) (p : press) :
  in_bounds e -> reportable e ->
  in_bounds (press_effect e p) /\ reportable (press_effect e p).
Proof.
  intros Hb He. destruct p as [c | entry]; cbn [press_effect]; [split; assumption | ].
  split; [apply after_key_in_bounds; exact Hb | exact He].
Qed.

Section Sessions.

Context `{P : platform}.

(** One turn of the loop on a sequence of the tables. *)
Lemma main_loop_special (fuel : nat) (pre rest : list read_event) (entry : string * Z)
    (w : world) :
  heap_faults w = [] -> write_faults w = [] -> reportable (E w) -> in_bounds (E w) ->
  Forall retried pre -> In entry escape_table ->
  main_loop (S fuel) (feed (pre ++ Byte ESC :: keys (str (fst entry)) ++ rest) w) =
    main_loop fuel
      (feed rest (set_E (after_key (snd entry) (E w))
                    (set_stdout (stdout w ++ frame (E w)) w))).
Proof.
  intros Hh Hw He Hb Hpre Hin. cbn [main_loop].
  unfold bind at 1. rewrite refreshScreen_reportable by assumption.
  unfold bind at 1. rewrite (readKey_escape pre _ _ Hpre).
  rewrite (escape_table_decoded entry rest Hin). cbn [fst snd].
  pose proof (escape_table_special entry Hin) as Hspecial.
  set (w1 := feed rest (set_stdout (stdout w ++ frame (E w)) w)).
  assert (Hr : int_range (screenrows (E w1)))
    by (destruct He as [Hr _]; unfold int_range; cbn; lia).
  assert (Hc : int_range (screencols (E w1)))
    by (destruct He as [_ Hc]; unfold int_range; cbn; lia).
  pose proof (moveCursor_moved (snd entry) w1 Hr Hc Hb) as Hmove.
  fold (after_key (snd entry) (E w1)) in Hmove.
  cbn in Hspecial.
  repeat destruct Hspecial as [Hkey | Hspecial]; try destruct Hspecial;
    rewrite <- Hkey in *;
    match goal with
    | |- context [if ?quit then clearScreen else _] => change quit with false
    end; cbv iota;
    match goal with
    | |- context [if ?nav then moveCursor _ else ret tt] =>
        first [change nav with true | change nav with false]
    end; cbv iota; unfold bind at 1.
  1-8: rewrite Hmove; reflexivity.
  cbn [ret]. replace (after_key KEY_DEL (E w)) with (E w) by (destruct (E w); reflexivity).
  unfold w1. destruct w; reflexivity.
Qed.

(** One turn of the loop on a step it goes on after. *)
Lemma main_loop_step (fuel : nat) (s : step) (rest : list read_event) (w : world) :
  heap_faults w = [] -> write_faults w = [] -> reportable (E w) -> in_bounds (E w) ->
  step_ok s ->
  main_loop (S fuel) (feed (step_events s ++ rest) w) =
    main_loop fuel
      (feed rest (set_E (step_effect (E w) s)
                    (set_stdout (stdout w ++ frame (E w)) w))).
Proof.
  intros Hh Hw He Hb [Hpre Hp]. destruct s as [pre [c | entry]];
    unfold step_events, step_effect;
    cbn [fst snd press_ok press_events press_effect] in *; rewrite <- app_assoc.
  - destruct Hp as [Hq Hesc]. cbn [app].
    rewrite (main_loop_plain_key fuel pre rest c w Hh Hw He Hpre Hq Hesc).
    destruct w; reflexivity.
  - cbn [app].
    exact (main_loop_special fuel pre rest entry w Hh Hw He Hb Hpre Hp).
Qed.

Lemma main_loop_session (fuel : nat) (steps : list step)
    (idle rest : list read_event) (w : world) :
  heap_faults w = [] -> write_faults w = [] -> reportable (E w) -> in_bounds (E w) ->
  Forall step_ok steps -> Forall retried idle -> (length steps < fuel)%nat ->
  main_loop fuel (feed (flat_map step_events steps ++ idle ++ Byte "q" :: rest) w) =
    Ret tt (feed rest
              (set_E (fold_left step_effect steps (E w))
                 (set_stdout
                    (stdout w ++ frames_of (E w) steps ++ esc "[2J" ++ esc "[H") w))).
Proof.
  intros Hh Hw He Hb Hsteps Hidle. revert fuel w Hh Hw He Hb.
  induction Hsteps as [ | s steps Hs _ IH]; intros fuel w Hh Hw He Hb Hfuel.
  - destruct fuel as [ | fuel]; [cbn in Hfuel; lia | ].
    cbn [flat_map app fold_left frames_of].
    rewrite (main_loop_q fuel idle rest w Hh Hw He Hidle).
    destruct w; reflexivity.
  - destruct fuel as [ | fuel]; [cbn in Hfuel; lia | ].
    cbn [flat_map fold_left frames_of]. rewrite <- app_assoc.
    rewrite main_loop_step by assumption.
    destruct (press_effect_kept (E w) (snd s) Hb He) as [Hb' He'].
    fold (step_effect (E w) s) in Hb', He'.
    rewrite IH; cbn [set_E set_stdout heap_faults write_faults E stdout];
      try assumption; [ | cbn [length] in Hfuel; unfold step in *; lia].
    unfold feed. f_equal. rewrite <- !app_assoc. reflexivity.
Qed.

(** X19.  The main loop follows the keys. For any sequence of presses
    (bytes other than [q] and [ESC], and keys of the tables), with any
    number of reads that time out before each, followed by [q]: the loop
    draws the state before every key, moves the cursor as the keys say one
    after the other, clears the screen and returns; what was typed behind
    the [q] is unread. *)
Theorem main_loop_follows_keys (fuel : nat) (steps : list step)
    (idle rest : list read_event) (w : world) :
  heap_faults w = [] -> write_faults w = [] -> reportable (E w) -> in_bounds (E w) ->
  Forall step_ok steps -> Forall retried idle -> (length steps < fuel)%nat ->
  main_loop fuel (feed (flat_map step_events steps ++ idle ++ Byte "q" :: rest) w) =
    Ret tt (feed rest
              (set_E (fold_left step_effect steps (E w))
                 (set_stdout
                    (stdout w ++ frames_of (E w) steps ++ esc "[2J" ++ esc "[H") w))).
Proof. apply main_loop_session. Qed.

Lemma step_events_length (steps : list step) :
  (length steps <= length (flat_map step_events steps))%nat.
Proof.
  induction steps as [ | [pre p] steps IH]; cbn [flat_map length]; [lia | ].
  rewrite length_app. change (step_events (pre, p)) with (pre ++ press_events p).
  rewrite length_app.
  destruct p; cbn [press_events length]; unfold step in *; lia.
Qed.

(** X20.  A whole session of the editor, from a terminal with a window of
    [rows] by [cols] on which nothing fails: raw mode, one frame before
    every key, the cursor moved as the keys say from the origin, the
    screen cleared on [q], the farewell printed, status 0, and the
    terminal attributes back as they were found. *)
Theorem editor_session (steps : list step) (idle rest : list read_event)
    (rows cols : Z) (w : world) :
  tc_faults w = [] -> heap_faults w = [] -> write_faults w = [] ->
  winsize w = Some (rows, cols) ->
  0 < rows <= 65535 -> 0 < cols <= 65535 ->
  Forall step_ok steps -> Forall retried idle ->
  exists w' : world,
    run (feed (flat_map step_events steps ++ idle ++ Byte "q" :: rest) w) = Exit 0 w'
    /\ E w' = fold_left step_effect steps (screen_at rows cols 0 0)
    /\ stdout w' =
         stdout w ++ frames_of (screen_at rows cols 0 0) steps
           ++ esc "[2J" ++ esc "[H" ++ goodbye
    /\ stdin w' = rest
    /\ tty w' = tty w
    /\ stderr w' = stderr w.
Proof.
  intros Hf Hh Hw Hws Hrows Hcols Hsteps Hidle.
  set (evs := flat_map step_events steps ++ idle ++ Byte "q" :: rest).
  unfold run, process, main.
  unfold bind at 1. rewrite enableRawMode_ok by exact Hf.
  unfold bind at 1.
  rewrite (initEditor_ioctl rows cols) by (try exact Hws; lia).
  unfold bind at 1. cbn [get].
  cbn [stdin stdout tty set_E set_tty set_atexit set_orig_termios feed set_stdin].
  unfold bind at 1.
  match goal with
  | |- context [main_loop ?n ?w0] =>
      change (main_loop n w0)
        with (main_loop (S (length evs))
                (feed evs
                   (set_E (screen_at rows cols 0 0)
                      (set_tty (raw_of (tty w))
                         (set_atexit true (set_orig_termios (tty w) w))))))
  end.
  unfold evs at 2.
  rewrite main_loop_session;
    cbn [heap_faults write_faults E set_E set_tty set_atexit set_orig_termios];
    try assumption.
  - unfold bind at 1. unfold printf at 1, modify at 1. cbn [ret].
    unfold run_atexit, bind, get.
    cbn [atexit_disableRawMode feed set_stdin set_stdout set_E set_tty set_atexit].
    rewrite disableRawMode_ok by exact Hf.
    eexists. split; [reflexivity | ].
    cbn. rewrite <- !app_assoc. repeat split.
  - unfold reportable. cbn. lia.
  - unfold in_bounds. cbn. lia.
  - pose proof (step_events_length steps). unfold evs. rewrite length_app. lia.
Qed.

End Sessions.

(** The scenario of the specification and more: [h], [j], Right, a
    pause, Page Down, End, Delete, then [q], on a 24 x 80 screen. *)
Lemma main_loop_follows_keys_witness :
  exists w' : world,
    main_loop (P := linux_x86_64) 20
      (at_loop (P := linux_x86_64) 24 80
         (keys (str "hj" ++ esc "[C") ++ [Timeout; Timeout]
            ++ keys (esc "[6~" ++ esc "[F" ++ esc "[3~" ++ str "q"))) =
      Ret tt w'
    /\ E w' = screen_at 24 80 23 79.
Proof.
  eexists. split.
  - apply (main_loop_follows_keys (P := linux_x86_64) 20
             [([], Typed "h"); ([], Typed "j"); ([], Special ("[C"%string, KEY_RIGHT));
              ([Timeout; Timeout], Special ("[6~"%string, KEY_PAGE_DOWN));
              ([], Special ("[F"%string, KEY_END));
              ([], Special ("[3~"%string, KEY_DEL))]
             [] [] (at_loop (P := linux_x86_64) 24 80 [])).
    + reflexivity.
    + reflexivity.
    + unfold reportable. cbn. lia.
    + unfold in_bounds. cbn. lia.
    + repeat (constructor; [split; [repeat constructor | cbn; first [tauto | split; discriminate]] | ]).
      constructor.
    + constructor.
    + cbn. lia.
  - reflexivity.
Defined.

(** The same keys, from the start of the process to its end. *)
Lemma editor_session_witness :
  exists w' : world,
    run (P := linux_x86_64)
      (boot (P := linux_x86_64) cooked (Some (24, 80))
         (keys (str "hj" ++ esc "[C" ++ esc "[6~" ++ esc "[F" ++ esc "[3~" ++ str "q"))) =
      Exit 0 w'
    /\ E w' = screen_at 24 80 23 79
    /\ tty w' = cooked.
Proof.
  destruct (editor_session (P := linux_x86_64)
              [([], Typed "h"); ([], Typed "j"); ([], Special ("[C"%string, KEY_RIGHT));
               ([], Special ("[6~"%string, KEY_PAGE_DOWN));
               ([], Special ("[F"%string, KEY_END));
               ([], Special ("[3~"%string, KEY_DEL))]
              [] [] 24 80 (boot (P := linux_x86_64) cooked (Some (24, 80)) []))
    as (w' & Hrun & HE & _ & _ & Htty & _).
  - reflexivity.
  - reflexivity.
  - reflexivity.
  - reflexivity.
  - lia.
  - lia.
  - repeat (constructor; [split; [repeat constructor | cbn; first [tauto | split; discriminate]] | ]).
    constructor.
  - constructor.
  - exists w'. split; [exact Hrun | ]. split; [exact HE | exact Htty].
Defined.

(** ** A session that ends with a failed read *)

Section SessionErrors.

Context `{P : platform}.

Lemma main_loop_read_error (fuel : nat) (pre rest : list read_event) (errno : Z)
    (w : world) :
  heap_faults w = [] -> write_faults w = [] -> reportable (E w) ->
  Forall retried pre -> errno <> EAGAIN ->
  main_loop (S fuel) (feed (pre ++ Error errno :: rest) w) =
    Exit 1 (set_stderr (stderr w ++ ["read"%string])
              (feed rest (set_stdout (stdout w ++ frame (E w)) w))).
Proof.
  intros Hh Hw He Hpre Herr. cbn [main_loop].
  unfold bind at 1. rewrite refreshScreen_reportable by assumption.
  unfold bind at 1. rewrite readKey_dies by assumption.
  reflexivity.
Qed.

Lemma main_loop_session_error (fuel : nat) (steps : list step)
    (idle rest : list read_event) (errno : Z) (w : world) :
  heap_faults w = [] -> write_faults w = [] -> reportable (E w) -> in_bounds (E w) ->
  Forall step_ok steps -> Forall retried idle -> errno <> EAGAIN ->
  (length steps < fuel)%nat ->
  main_loop fuel (feed (flat_map step_events steps ++ idle ++ Error errno :: rest) w) =
    Exit 1 (set_stderr (stderr w ++ ["read"%string])
              (feed rest
                 (set_E (fold_left step_effect steps (E w))
                    (set_stdout (stdout w ++ frames_of (E w) steps) w)))).
Proof.
  intros Hh Hw He Hb Hsteps Hidle Herr. revert fuel w Hh Hw He Hb.
  induction Hsteps as [ | s steps Hs _ IH]; intros fuel w Hh Hw He Hb Hfuel.
  - destruct fuel as [ | fuel]; [cbn in Hfuel; lia | ].
    cbn [flat_map app fold_left frames_of].
    rewrite (main_loop_read_error fuel idle rest errno w Hh Hw He Hidle Herr).
    destruct w; reflexivity.
  - destruct fuel as [ | fuel]; [cbn in Hfuel; lia | ].
    cbn [flat_map fold_left frames_of]. rewrite <- app_assoc.
    rewrite main_loop_step by assumption.
    destruct (press_effect_kept (E w) (snd s) Hb He) as [Hb' He'].
    fold (step_effect (E w) s) in Hb', He'.
    rewrite IH; cbn [set_E set_stdout heap_faults write_faults E stdout];
      try assumption; [ | cbn [length] in Hfuel; unfold step in *; lia].
    unfold feed. cbn [stderr set_E set_stdout]. f_equal. rewrite <- !app_assoc. reflexivity.
Qed.

(** X21.  A read that fails with anything but [EAGAIN] while the editor
    waits for a key ends the session through [die]: status 1 and the
    message [read]. The screen is not cleared and no farewell is printed
    (the last frame stays), but the handler of [exit] puts the terminal
    attributes back. *)
Theorem editor_read_error (steps : list step) (idle rest : list read_event)
    (errno rows cols : Z) (w : world) :
  tc_faults w = [] -> heap_faults w = [] -> write_faults w = [] ->
  winsize w = Some (rows, cols) ->
  0 < rows <= 65535 -> 0 < cols <= 65535 ->
  Forall step_ok steps -> Forall retried idle -> errno <> EAGAIN ->
  exists w' : world,
    run (feed (flat_map step_events steps ++ idle ++ Error errno :: rest) w) = Exit 1 w'
    /\ stdout w' = stdout w ++ frames_of (screen_at rows cols 0 0) steps
    /\ stderr w' = stderr w ++ ["read"%string]
    /\ stdin w' = rest
    /\ tty w' = tty w.
Proof.
  intros Hf Hh Hw Hws Hrows Hcols Hsteps Hidle Herr.
  set (evs := flat_map step_events steps ++ idle ++ Error errno :: rest).
  unfold run, process, main.
  unfold bind at 1. rewrite enableRawMode_ok by exact Hf.
  unfold bind at 1.
  rewrite (initEditor_ioctl rows cols) by (try exact Hws; lia).
  unfold bind at 1. cbn [get].
  cbn [stdin stdout tty set_E set_tty set_atexit set_orig_termios feed set_stdin].
  unfold bind at 1.
  match goal with
  | |- context [main_loop ?n ?w0] =>
      change (main_loop n w0)
        with (main_loop (S (length evs))
                (feed evs
                   (set_E (screen_at rows cols 0 0)
                      (set_tty (raw_of (tty w))
                         (set_atexit true (set_orig_termios (tty w) w))))))
  end.
  unfold evs at 2.
  rewrite main_loop_session_error;
    cbn [heap_faults write_faults E set_E set_tty set_atexit set_orig_termios];
    try assumption.
  - unfold run_atexit, bind, get.
    cbn [atexit_disableRawMode feed set_stdin set_stdout set_stderr set_E set_tty set_atexit].
    rewrite disableRawMode_ok by exact Hf.
    eexists. split; [reflexivity | ].
    cbn. repeat split.
  - unfold reportable. cbn. lia.
  - unfold in_bounds. cbn. lia.
  - pose proof (step_events_length steps). unfold evs. rewrite length_app. lia.
Qed.

End SessionErrors.

(** Right, a timeout, then [EIO] (5). *)
Lemma editor_read_error_witness :
  exists w' : world,
    run (P := linux_x86_64)
      (boot (P := linux_x86_64) cooked (Some (24, 80))
         (keys (esc "[C") ++ [Timeout; Error 5])) = Exit 1 w'
    /\ stdout w' = frame (screen_at 24 80 0 0) ++ frame (screen_at 24 80 0 1)
    /\ stderr w' = ["read"%string]
    /\ tty w' = cooked.
Proof.
  destruct (editor_read_error (P := linux_x86_64)
              [([], Special ("[C"%string, KEY_RIGHT))] [Timeout] [] 5 24 80
              (boot (P := linux_x86_64) cooked (Some (24, 80)) []))
    as (w' & Hrun & Hout & Herr & _ & Htty).
  - reflexivity.
  - reflexivity.
  - reflexivity.
  - reflexivity.
  - lia.
  - lia.
  - constructor; [ | constructor]. split; [constructor | cbn; tauto].
  - repeat constructor.
  - discriminate.
  - exists w'. split; [exact Hrun | ]. split; [exact Hout | ]. split; assumption.
Defined.

(** ** What a frame is made of *)

(** The lengths the drawing code clips to the width of the screen are
    not negative when the width is not. *)
Lemma clipped_nonneg (len cols : Z) :
  0 <= len -> 0 <= cols -> 0 <= (if len >? cols then cols else len).
Proof. intros Hl Hc. destruct (len >? cols); assumption. Qed.

(** The [write] of [refreshScreen], given a buffer that holds [bytes]. *)
Lemma write_built (ab : appendBuffer) (bytes : list ascii) (w : world) :
  b ab = bytes -> len ab = Z.of_nat (length bytes) ->
  exists w' : world,
    (write (b ab) (len ab) ;; abFree ab) w = Ret tt w'
    /\ write_faults w' = drop 1 (write_faults w)
    /\ stdout w' = stdout w ++ (if fst (next_fault (write_faults w)) then [] else bytes).
Proof.
  intros Hb Hl. unfold bind, write, abFree, ret. rewrite Hl, Hb, Nat2Z.id, firstn_all.
  destruct (write_faults w) as [ | [ | ] fs]; cbn [next_fault fst drop];
    eexists; (split; [reflexivity | ]); cbn; rewrite ?app_nil_r; split; reflexivity.
Qed.

(** [refreshScreen] when no [realloc] fails: the buffer it hands to
    [write] is the frame of the state. *)
Lemma refreshScreen_built (w : world) :
  heap_faults w = [] -> reportable (E w) ->
  exists w' : world,
    refreshScreen w = Ret tt w'
    /\ write_faults w' = drop 1 (write_faults w)
    /\ stdout w' =
         stdout w ++ (if fst (next_fault (write_faults w)) then [] else frame (E w)).
Proof.
  intros Hh [Hrows Hcols].
  assert (Hr : int_range (screenrows (E w))) by (unfold int_range; lia).
  assert (Hc : int_range (screencols (E w))) by (unfold int_range; lia).
  assert (Hc0 : 0 <= screencols (E w)) by lia.
  assert (Hfit : Z.of_nat (length (frame (E w))) < 2 ^ 31)
    by (apply frame_fits; assumption).
  unfold refreshScreen.
  rewrite !bind_abAppend by exact Hh.
  unfold bind at 1. cbn [get].
  destruct (draw_rows_ok (Z.to_nat (screenrows (E w))) 0
              (push (push AB_INIT (esc "[?25l") 6) (esc "[H") 3) w Hh Hc0 Hc Hr)
    as (ab & Hrun & Hdrawn); [lia | lia | ].
  unfold bind at 1. rewrite Hrun.
  pose proof (fun ab0 => status_shown_push ab0 (E w) Hc0) as Hstatus.
  destruct (snprintf 80 (status_text (E w))) as [status statuslen].
  cbn [fst snd] in Hstatus.
  rewrite !bind_abAppend by exact Hh.
  pose proof (fun ab0 => cursor_text_push ab0 (E w)) as Hcursor.
  destruct (snprintf 32 (cursor_text (E w))) as [buf n].
  cbn [fst] in Hcursor.
  rewrite !bind_abAppend by exact Hh.
  destruct (appended_init _ _ _ _ _
              (frame_appended w ab status buf statuslen Hdrawn Hstatus Hcursor) eq_refl Hfit)
    as [Hb Hl].
  apply write_built; [exact Hb | exact Hl].
Qed.

Section Frames.

Context `{P : platform}.

(** X3.  On a screen with a non-negative number of columns
    [refreshScreen] always returns, whatever [realloc] and [write]
    answer, and all it does is add bytes to the output: the editor
    state, the terminal attributes and the input are as before.  (A
    negative number of columns would be handed to [abAppend] as a
    length: no statement is made for it.) *)
Theorem refreshScreen_only_writes (w : world) :
  0 <= screencols (E w) ->
  exists w' : world,
    refreshScreen w = Ret tt w'
    /\ E w' = E w /\ tty w' = tty w /\ orig_termios w' = orig_termios w
    /\ stdin w' = stdin w /\ stderr w' = stderr w
    /\ exists out : list ascii, stdout w' = stdout w ++ out.
Proof.
  intros _.
  destruct (refreshScreen_output w)
    as ([] & w' & Hdraw & (Htty & _ & Horig & _) & _ & Hin & Herr & HE & _ & _ & Hout).
  exists w'. repeat match goal with |- _ /\ _ => split end; assumption.
Qed.

(** X6.  On a screen with a non-negative number of columns, whatever
    [realloc] and [write] answer, [refreshScreen] returns after exactly
    one call of [write].  When that call fails nothing is written.  When
    it does not fail and no [realloc] failed either, what is written is
    the frame of the state and nothing else.  (With failed [realloc]s
    the buffer lacks the pieces that were dropped; it is still handed
    over in the one call.) *)
Theorem refreshScreen_single_write (w : world) :
  0 <= screencols (E w) ->
  exists w' : world,
    refreshScreen w = Ret tt w'
    /\ write_faults w' = drop 1 (write_faults w)
    /\ (fst (next_fault (write_faults w)) = true -> stdout w' = stdout w)
    /\ (fst (next_fault (write_faults w)) = false ->
        heap_faults w = [] -> reportable (E w) ->
        stdout w' = stdout w ++ frame (E w))
    /\ exists bytes : list ascii, stdout w' = stdout w ++ bytes.
Proof.
  intros _.
  assert (Hthen : forall bytes w1 w2 w3,
             buffering w1 w2 -> wrote_once bytes w2 w3 -> wrote_once bytes w1 w3).
  { intros bytes w1 w2 w3 [Hout Hw] [Hw' Hout']. unfold wrote_once.
    rewrite <- Hw, <- Hout. split; assumption. }
  assert (Hrun : exists (bytes : list ascii) (w' : world),
             refreshScreen w = Ret tt w' /\ wrote_once bytes w w').
  { pose proof abAppend_buffering as Happend.
    pose proof draw_rows_buffering as Hrows.
    unfold refreshScreen, snprintf. cbv beta iota zeta.
    unfold bind at 1. destruct (Happend AB_INIT (esc "[?25l") 6 w) as (ab1 & w1 & -> & B1).
    unfold bind at 1. destruct (Happend ab1 (esc "[H") 3 w1) as (ab2 & w2 & -> & B2).
    unfold bind at 1. cbn [get].
    unfold bind at 1.
    destruct (Hrows (Z.to_nat (screenrows (E w2))) 0 ab2 w2) as (ab3 & w3 & -> & B3).
    unfold bind at 1. destruct (Happend ab3 (esc "[999C") 6 w3) as (ab4 & w4 & -> & B4).
    unfold bind at 1. destruct (Happend ab4 (esc "[1A") 4 w4) as (ab5 & w5 & -> & B5).
    unfold bind at 1. destruct (Happend ab5 (esc "[7m") 4 w5) as (ab6 & w6 & -> & B6).
    unfold bind at 1.
    match goal with
    | |- context [abAppend ab6 ?s ?n w6] =>
        destruct (Happend ab6 s n w6) as (ab7 & w7 & -> & B7)
    end.
    unfold bind at 1. destruct (Happend ab7 (esc "[m") 3 w7) as (ab8 & w8 & -> & B8).
    unfold bind at 1.
    match goal with
    | |- context [abAppend ab8 ?s ?n w8] =>
        destruct (Happend ab8 s n w8) as (ab9 & w9 & -> & B9)
    end.
    unfold bind at 1. destruct (Happend ab9 (esc "[?25h") 6 w9) as (ab10 & w10 & -> & B10).
    destruct (write_once (b ab10) (len ab10) ab10 w10) as ([] & w' & Hrun & Hw').
    exists (take (Z.to_nat (len ab10)) (b ab10)), w'.
    split; [exact Hrun | ].
    assert (Hall : buffering w w10) by (repeat (etrans; [eassumption | ]); reflexivity).
    exact (Hthen _ _ _ _ Hall Hw'). }
  destruct Hrun as (bytes & w' & Hrun & Hfaults & Hout).
  exists w'. split; [exact Hrun | ]. split; [exact Hfaults | ].
  split; [ | split].
  - intros Hfail. rewrite Hfail in Hout. rewrite Hout. apply app_nil_r.
  - intros Hdone Hh He.
    destruct (refreshScreen_built w Hh He) as (w2 & Hrun2 & _ & Hout2).
    rewrite Hrun in Hrun2. injection Hrun2 as <-.
    rewrite Hdone in Hout2. exact Hout2.
  - eexists. exact Hout.
Qed.

(** X18.  Without failures of [realloc] and [write], on an extent
    [ioctl] can report, [refreshScreen] writes the frame of the state
    and nothing else; the frame is at most [18 * rows + cols + 124]
    bytes long, which is below [2 ^ 31], the range of the length field
    of the append buffer. *)
Theorem refreshScreen_frame_size (w : world) :
  heap_faults w = [] -> write_faults w = [] -> reportable (E w) ->
  refreshScreen w = Ret tt (set_stdout (stdout w ++ frame (E w)) w)
  /\ Z.of_nat (length (frame (E w))) <= 18 * screenrows (E w) + screencols (E w) + 124
  /\ Z.of_nat (length (frame (E w))) < 2 ^ 31.
Proof.
  intros Hh Hw He. split; [ | split].
  - pose proof (refreshScreen_reportable (stdin w) w Hh Hw He) as Hrun.
    unfold feed in Hrun. rewrite set_stdin_same in Hrun. rewrite Hrun.
    destruct w; reflexivity.
  - destruct He as [Hr Hc]. apply frame_length; lia.
  - destruct He as [Hr Hc]. apply frame_fits; assumption.
Qed.

(** X2.  While no key arrives (every read times out or is
    interrupted), on a screen with a non-negative number of columns, the
    main loop neither ends nor exits: it calls [refreshScreen] once and
    stays in the first loop of [readKey], with the reads used up and the
    editor state and the terminal attributes as they were.  When neither
    [realloc] nor [write] fails and the extent is one [ioctl] can
    report, what has been written is exactly one frame of the state. *)
Theorem main_loop_waits_for_key (w : world) :
  0 <= screencols (E w) ->
  Forall retried (stdin w) ->
  exists w' : world,
    main_loop (S (length (stdin w))) w = Hang w'
    /\ E w' = E w /\ tty w' = tty w /\ stdin w' = []
    /\ (heap_faults w = [] -> write_faults w = [] -> reportable (E w) ->
        stdout w' = stdout w ++ frame (E w))
    /\ exists out : list ascii, stdout w' = stdout w ++ out.
Proof.
  intros _ Hall. cbn [main_loop].
  destruct (refreshScreen_output w)
    as ([] & w1 & Hdraw & Hterm & _ & Hin & _ & HE & _ & _ & out & Hout).
  unfold bind at 1. rewrite Hdraw. unfold bind at 1.
  unfold readKey. unfold bind at 1. cbn [get].
  rewrite <- Hin in Hall.
  destruct (read_byte_waits w1 Hall) as (w' & Hwait & Hempty).
  pose proof (read_byte_untouched (length (stdin w1)) w1) as Hsame.
  assert (Hframe : preserves (fun a b => E b = E a /\ stdout b = stdout a)
                     (read_byte (length (stdin w1)))).
  { clear. generalize (length (stdin w1)). intros n.
    induction n as [ | n IH]; intros w; cbn [read_byte]; [split; reflexivity | ].
    unfold bind, read. destruct (stdin w) as [ | [c | | e] rest].
    - destruct (IH w) as [H1 H2]. split; assumption.
    - split; reflexivity.
    - destruct (IH (set_stdin rest w)) as [H1 H2]. split; assumption.
    - destruct (negb (e =? EAGAIN)).
      + split; reflexivity.
      + destruct (IH (set_stdin rest w)) as [H1 H2]. split; assumption. }
  specialize (Hframe w1).
  unfold bind at 1. rewrite Hwait in *. cbn [world_of] in *.
  exists w'. split; [reflexivity | ].
  destruct Hsame as (Htty & _). destruct Hterm as (Htty1 & _).
  destruct Hframe as [HE' Hout'].
  split; [congruence | ]. split; [congruence | ]. split; [exact Hempty | ].
  split.
  - intros Hh Hw He.
    pose proof (refreshScreen_reportable (stdin w) w Hh Hw He) as Hexact.
    unfold feed in Hexact. rewrite set_stdin_same in Hexact.
    rewrite Hdraw in Hexact. injection Hexact as ->.
    rewrite Hout'. reflexivity.
  - exists out. congruence.
Qed.

End Frames.

(** A 24 x 80 screen, whatever fails. *)
Lemma refreshScreen_only_writes_witness :
  exists w' : world,
    refreshScreen
      (set_heap_faults [false; true; true] (at_loop (P := linux_x86_64) 24 80 [])) = Ret tt w'
    /\ E w' = screen_at 24 80 0 0.
Proof.
  destruct (refreshScreen_only_writes
              (set_heap_faults [false; true; true] (at_loop (P := linux_x86_64) 24 80 [])))
    as (w' & Hrun & HE & _).
  - cbn. lia.
  - exists w'. split; [exact Hrun | exact HE].
Defined.

(** A 24 x 80 screen: the one [write] fails, or it carries the frame. *)
Lemma refreshScreen_single_write_witness :
  (exists w' : world,
     refreshScreen (set_write_faults [true; false] (at_loop (P := linux_x86_64) 24 80 [])) =
       Ret tt w'
     /\ write_faults w' = [false] /\ stdout w' = [])
  /\ (exists w' : world,
        refreshScreen (at_loop (P := linux_x86_64) 24 80 []) = Ret tt w'
        /\ stdout w' = frame (screen_at 24 80 0 0)).
Proof.
  split.
  - destruct (refreshScreen_single_write
                (set_write_faults [true; false] (at_loop (P := linux_x86_64) 24 80 [])))
      as (w' & Hrun & Hfaults & Hfail & _).
    + cbn. lia.
    + exists w'. split; [exact Hrun | ]. split; [exact Hfaults | ].
      apply Hfail. reflexivity.
  - destruct (refreshScreen_single_write (at_loop (P := linux_x86_64) 24 80 []))
      as (w' & Hrun & _ & _ & Hdone & _).
    + cbn. lia.
    + exists w'. split; [exact Hrun | ].
      apply Hdone; [reflexivity | reflexivity | unfold reportable; cbn; lia].
Defined.

(** A 24 x 80 screen: the frame, of at most 636 bytes. *)
Lemma refreshScreen_frame_size_witness :
  refreshScreen (at_loop (P := linux_x86_64) 24 80 []) =
    Ret tt (set_stdout (frame (screen_at 24 80 0 0)) (at_loop (P := linux_x86_64) 24 80 []))
  /\ Z.of_nat (length (frame (screen_at 24 80 0 0))) <= 636.
Proof.
  destruct (refreshScreen_frame_size (at_loop (P := linux_x86_64) 24 80 []))
    as (Hrun & Hlen & _).
  - reflexivity.
  - reflexivity.
  - unfold reportable. cbn. lia.
  - split; [exact Hrun | exact Hlen].
Defined.

(** Three timeouts and no key: the editor has drawn one frame and waits. *)
Lemma main_loop_waits_for_key_witness :
  exists w' : world,
    main_loop (P := linux_x86_64) 4
      (at_loop (P := linux_x86_64) 24 80 [Timeout; Timeout; Timeout]) = Hang w'
    /\ E w' = screen_at 24 80 0 0
    /\ stdout w' = frame (screen_at 24 80 0 0).
Proof.
  destruct (main_loop_waits_for_key (P := linux_x86_64)
              (at_loop (P := linux_x86_64) 24 80 [Timeout; Timeout; Timeout]))
    as (w' & Hrun & HE & _ & _ & Hout & _).
  - cbn. lia.
  - repeat constructor.
  - exists w'. split; [exact Hrun | ]. split; [exact HE | ].
    apply Hout; [reflexivity | reflexivity | unfold reportable; cbn; lia].
Defined.

(** ** Moves that undo each other, and where they do not *)

Section BackAndForth.

Context `{P : platform}.

Lemma moveCursor_pair (key1 key2 : Z) (e' : editorState) (w : world) :
  int_range (screenrows (E w)) -> int_range (screencols (E w)) ->
  in_bounds (E w) ->
  after_key key2 (after_key key1 (E w)) = e' ->
  (moveCursor key1 ;; moveCursor key2) w = Ret tt (set_E e' w).
Proof.
  intros Hr Hc Hb <-. apply moveCursor_twice; assumption.
Qed.

(** X5.  With the cursor on the screen, in column [x] of [cols] and row
    [y] of [rows].  Right then Left ends in column
    [max 0 (min (cols - 1) (x + 1) - 1)]: where it started, unless the
    cursor stood in the last column of a screen of two columns or more,
    and then one column back.  Left then Right ends in column
    [min (cols - 1) (max 0 (x - 1) + 1)]: where it started, unless the
    cursor stood in column 0 of a screen of two columns or more, and
    then in column 1.  Down then Up and Up then Down do the same to the
    row.  On a screen of one column, or of one row, the pairs move
    nothing.  A second Home, End, Page Up or Page Down changes nothing. *)
Theorem moveCursor_there_and_back (w : world) :
  int_range (screenrows (E w)) -> int_range (screencols (E w)) ->
  in_bounds (E w) ->
  let x := cursor_x (E w) in
  let y := cursor_y (E w) in
  let cols := screencols (E w) in
  let rows := screenrows (E w) in
  ((moveCursor KEY_RIGHT ;; moveCursor KEY_LEFT) w =
     Ret tt (set_E (with_cursor_x (Z.max 0 (Z.min (cols - 1) (x + 1) - 1)) (E w)) w)
   /\ (moveCursor KEY_LEFT ;; moveCursor KEY_RIGHT) w =
        Ret tt (set_E (with_cursor_x (Z.min (cols - 1) (Z.max 0 (x - 1) + 1)) (E w)) w)
   /\ (moveCursor KEY_DOWN ;; moveCursor KEY_UP) w =
        Ret tt (set_E (with_cursor_y (Z.max 0 (Z.min (rows - 1) (y + 1) - 1)) (E w)) w)
   /\ (moveCursor KEY_UP ;; moveCursor KEY_DOWN) w =
        Ret tt (set_E (with_cursor_y (Z.min (rows - 1) (Z.max 0 (y - 1) + 1)) (E w)) w))
  /\ ((x < cols - 1 \/ cols = 1 ->
         (moveCursor KEY_RIGHT ;; moveCursor KEY_LEFT) w = Ret tt w)
      /\ (0 < x \/ cols = 1 ->
            (moveCursor KEY_LEFT ;; moveCursor KEY_RIGHT) w = Ret tt w)
      /\ (y < rows - 1 \/ rows = 1 ->
            (moveCursor KEY_DOWN ;; moveCursor KEY_UP) w = Ret tt w)
      /\ (0 < y \/ rows = 1 ->
            (moveCursor KEY_UP ;; moveCursor KEY_DOWN) w = Ret tt w))
  /\ ((x = cols - 1 -> 1 < cols ->
         (moveCursor KEY_RIGHT ;; moveCursor KEY_LEFT) w =
           Ret tt (set_E (with_cursor_x (x - 1) (E w)) w))
      /\ (x = 0 -> 1 < cols ->
            (moveCursor KEY_LEFT ;; moveCursor KEY_RIGHT) w =
              Ret tt (set_E (with_cursor_x 1 (E w)) w))
      /\ (y = rows - 1 -> 1 < rows ->
            (moveCursor KEY_DOWN ;; moveCursor KEY_UP) w =
              Ret tt (set_E (with_cursor_y (y - 1) (E w)) w))
      /\ (y = 0 -> 1 < rows ->
            (moveCursor KEY_UP ;; moveCursor KEY_DOWN) w =
              Ret tt (set_E (with_cursor_y 1 (E w)) w)))
  /\ (forall key : Z,
        In key [KEY_HOME; KEY_END; KEY_PAGE_UP; KEY_PAGE_DOWN] ->
        (moveCursor key ;; moveCursor key) w = moveCursor key w).
Proof.
  intros Hr Hc Hb x y cols rows.
  assert (Hpair : forall (key1 key2 : Z) (e' : editorState),
             after_key key2 (after_key key1 (E w)) = e' ->
             (moveCursor key1 ;; moveCursor key2) w = Ret tt (set_E e' w))
    by (intros key1 key2 e'; apply moveCursor_pair; assumption).
  assert (Hback : forall key1 key2 : Z,
             after_key key2 (after_key key1 (E w)) = E w ->
             (moveCursor key1 ;; moveCursor key2) w = Ret tt w).
  { intros key1 key2 Heq. rewrite (Hpair key1 key2 (E w) Heq).
    rewrite set_E_same. reflexivity. }
  pose proof (moveCursor_moved) as Hone.
  destruct Hb as [Hy Hx]. fold x y cols rows in Hy, Hx.
  subst x y cols rows.
  split; [ | split; [ | split]].
  - repeat match goal with |- _ /\ _ => split end;
      apply Hpair; destruct (E w) as [rows cols x y]; cbn in *;
      unfold after_key, moved, with_cursor_x, with_cursor_y; cbn; f_equal; lia.
  - repeat match goal with |- _ /\ _ => split end;
      intros Hcase; apply Hback; destruct (E w) as [rows cols x y]; cbn in *;
      unfold after_key, moved, with_cursor_x, with_cursor_y; cbn; f_equal; lia.
  - repeat match goal with |- _ /\ _ => split end;
      intros Hat Hwide; apply Hpair; destruct (E w) as [rows cols x y]; cbn in *;
      unfold after_key, moved, with_cursor_x, with_cursor_y; cbn; f_equal; lia.
  - intros key Hkey. rewrite (Hpair key key _ eq_refl).
    rewrite (Hone key w Hr Hc (conj Hy Hx)).
    fold (after_key key (E w)). f_equal. f_equal.
    destruct (E w) as [rows cols x y]. cbn in *.
    destruct Hkey as [<- | [<- | [<- | [<- | []]]]];
      unfold after_key, moved, with_cursor_x, with_cursor_y; cbn; reflexivity.
Qed.

End BackAndForth.

(** On a 24 x 80 screen: from the last column Right then Left ends in
    column 78, from the last row Down then Up ends in row 22, and in the
    middle the pair changes nothing; on a screen of one column the pair
    changes nothing either. *)
Lemma moveCursor_there_and_back_witness :
  (moveCursor KEY_RIGHT ;; moveCursor KEY_LEFT)
    (set_E (screen_at 24 80 5 79) (at_loop (P := linux_x86_64) 24 80 [])) =
    Ret tt (set_E (screen_at 24 80 5 78) (at_loop (P := linux_x86_64) 24 80 []))
  /\ (moveCursor KEY_DOWN ;; moveCursor KEY_UP)
       (set_E (screen_at 24 80 23 5) (at_loop (P := linux_x86_64) 24 80 [])) =
       Ret tt (set_E (screen_at 24 80 22 5) (at_loop (P := linux_x86_64) 24 80 []))
  /\ (moveCursor KEY_RIGHT ;; moveCursor KEY_LEFT)
       (set_E (screen_at 24 80 5 40) (at_loop (P := linux_x86_64) 24 80 [])) =
       Ret tt (set_E (screen_at 24 80 5 40) (at_loop (P := linux_x86_64) 24 80 []))
  /\ (moveCursor KEY_RIGHT ;; moveCursor KEY_LEFT)
       (set_E (screen_at 24 1 5 0) (at_loop (P := linux_x86_64) 24 1 [])) =
       Ret tt (set_E (screen_at 24 1 5 0) (at_loop (P := linux_x86_64) 24 1 [])).
Proof.
  split; [ | split; [ | split]].
  - destruct (moveCursor_there_and_back
                (set_E (screen_at 24 80 5 79) (at_loop (P := linux_x86_64) 24 80 [])))
      as (_ & _ & (Hfar & _) & _).
    + unfold int_range. cbn. lia.
    + unfold int_range. cbn. lia.
    + unfold in_bounds. cbn. lia.
    + apply Hfar; cbn; lia.
  - destruct (moveCursor_there_and_back
                (set_E (screen_at 24 80 23 5) (at_loop (P := linux_x86_64) 24 80 [])))
      as (_ & _ & (_ & _ & Hfar & _) & _).
    + unfold int_range. cbn. lia.
    + unfold int_range. cbn. lia.
    + unfold in_bounds. cbn. lia.
    + apply Hfar; cbn; lia.
  - destruct (moveCursor_there_and_back
                (set_E (screen_at 24 80 5 40) (at_loop (P := linux_x86_64) 24 80 [])))
      as (_ & (Hback & _) & _).
    + unfold int_range. cbn. lia.
    + unfold int_range. cbn. lia.
    + unfold in_bounds. cbn. lia.
    + apply Hback. left. cbn. lia.
  - destruct (moveCursor_there_and_back
                (set_E (screen_at 24 1 5 0) (at_loop (P := linux_x86_64) 24 1 [])))
      as (_ & (Hback & _) & _).
    + unfold int_range. cbn. lia.
    + unfold int_range. cbn. lia.
    + unfold in_bounds. cbn. lia.
    + apply Hback. right. reflexivity.
Defined.

(** ** How the two programs end *)


